(** * An interpreter for Erwig's block language: runtime stack, commands, parser

    A shallow embedding of [runtime.py], [command.py] and [parse.py].
    Python values that the program manipulates are modelled as follows:
    - [str] is [string]; a character is one of the code points 0..255;
    - [int] is [Z] (Python integers do not wrap);
    - a [list] is a [list], with the first element at index 0;
    - a [dict] whose insertion order matters is an association list;
    - an object that is changed in place (a record of the stack) is
      written back at its index in the list that holds it;
    - an exception that nothing catches ends the run: [Raise e];
    - [re] is a backtracking matcher for the patterns of the program;
    - [eval] is an evaluator of the Python expressions the program
      builds; text outside that fragment gives [Unsupported];
    - the calls of functions and the conditionals of a program nest
      without a bound: the executor takes the depth it may reach, and
      gives [OutOfFuel] beyond it;
    - the lines [execute_program] prints are left out. *)

From Stdlib Require Import String Ascii List ZArith Lia Bool Arith.
From Stdlib Require DecimalPos DecimalFacts.
From Stdlib Require Import DecimalString Sorted.
Import ListNotations.
Set Warnings "-register-all".
Local Open Scope string_scope.

(* ================================================================== *)
(** * Outcomes of Python computations *)

Inductive exn : Type :=
| IndexError
| KeyError (key : string)
| TypeError
| NameError (name : string)
| AttributeError
| ValueError
| SyntaxError
| ZeroDivisionError.

(** [Ok a]: the computation returns [a].  [Raise e]: it raises [e].
    [Unsupported]: it leaves the Python that is modelled (a [float], a
    piece of syntax the program's texts do not have).  [OutOfFuel]: it
    needs more steps or a greater depth than it was given. *)
Inductive outcome (A : Type) : Type :=
| Ok (a : A)
| Raise (e : exn)
| Unsupported
| OutOfFuel.

Arguments Ok {A} a.
Arguments Raise {A} e.
Arguments Unsupported {A}.
Arguments OutOfFuel {A}.

Definition bind {A B : Type} (m : outcome A) (f : A -> outcome B) : outcome B :=
  match m with
  | Ok a => f a
  | Raise e => Raise e
  | Unsupported => Unsupported
  | OutOfFuel => OutOfFuel
  end.

Declare Scope py_scope.
Delimit Scope py_scope with py.
Notation "x <- m ;; k" := (bind m (fun x => k))
  (at level 61, m at next level, right associativity) : py_scope.
Notation "' pat <- m ;; k" := (bind m (fun x => match x with pat => k end))
  (at level 61, pat pattern, m at next level, right associativity) : py_scope.
Local Open Scope py_scope.

(* ================================================================== *)
(** * Python strings *)

Module Str.

Definition code (c : ascii) : nat := nat_of_ascii c.

Definition between (lo hi : nat) (c : ascii) : bool :=
  (lo <=? code c)%nat && (code c <=? hi)%nat.

(** [str.isspace] on the code points 0..255; [\s] of [re] agrees. *)
Definition is_space (c : ascii) : bool :=
  between 9 13 c || between 28 32 c || (code c =? 133)%nat || (code c =? 160)%nat.

Definition is_digit (c : ascii) : bool := between 48 57 c.

(** The characters for which [str.isnumeric] holds, up to code point 255:
    the digits, the superscripts 1 2 3 and the three vulgar fractions. *)
Definition is_numeric_char (c : ascii) : bool :=
  is_digit c || (code c =? 178)%nat || (code c =? 179)%nat || (code c =? 185)%nat
  || between 188 190 c.

Definition is_upper (c : ascii) : bool := between 65 90 c.
Definition is_lower (c : ascii) : bool := between 97 122 c.

Fixpoint forallb (p : ascii -> bool) (s : string) : bool :=
  match s with
  | EmptyString => true
  | String c s' => p c && forallb p s'
  end.

Definition isnumeric (s : string) : bool :=
  negb (s =? "") && forallb is_numeric_char s.

Fixpoint lstrip (s : string) : string :=
  match s with
  | String c s' => if is_space c then lstrip s' else s
  | EmptyString => EmptyString
  end.

Fixpoint rev_onto (s acc : string) : string :=
  match s with
  | EmptyString => acc
  | String c s' => rev_onto s' (String c acc)
  end.

Definition rev (s : string) : string := rev_onto s EmptyString.

Definition rstrip (s : string) : string := rev (lstrip (rev s)).

Definition strip (s : string) : string := rstrip (lstrip s).

Fixpoint startswith (s p : string) : bool :=
  match p, s with
  | EmptyString, _ => true
  | String a p', String b s' => Ascii.eqb a b && startswith s' p'
  | String _ _, EmptyString => false
  end.

Definition endswith (s p : string) : bool := startswith (rev s) (rev p).

Fixpoint drop (n : nat) (s : string) : string :=
  match n, s with
  | O, _ => s
  | S n', String _ s' => drop n' s'
  | S _, EmptyString => EmptyString
  end.

Fixpoint take (n : nat) (s : string) : string :=
  match n, s with
  | S n', String c s' => String c (take n' s')
  | _, _ => EmptyString
  end.

(** [s[i:j]] for indices that are not negative. *)
Definition slice (s : string) (i j : nat) : string := take (j - i) (drop i s).

(** [s[:-1]]. *)
Definition drop_last (s : string) : string := take (String.length s - 1) s.

(** [s.replace(old, new, 1)]: the first occurrence only. *)
Fixpoint replace_first (old new s : string) : string :=
  if startswith s old then new ++ drop (String.length old) s
  else match s with
       | EmptyString => EmptyString
       | String c s' => String c (replace_first old new s')
       end.

(** [s.split(sep)] for a separator of one character. *)
Fixpoint split_char (sep : ascii) (s : string) : list string :=
  match s with
  | EmptyString => [EmptyString]
  | String c s' =>
      if Ascii.eqb c sep then EmptyString :: split_char sep s'
      else match split_char sep s' with
           | p :: ps => String c p :: ps
           | [] => [String c EmptyString]
           end
  end.

(** [sep.join(l)]. *)
Fixpoint join (sep : string) (l : list string) : string :=
  match l with
  | [] => EmptyString
  | [x] => x
  | x :: xs => x ++ sep ++ join sep xs
  end.

Definition dquote : ascii := ascii_of_nat 34.
Definition squote : ascii := ascii_of_nat 39.
Definition tab : ascii := ascii_of_nat 9.
Definition newline : ascii := ascii_of_nat 10.

(** ['"' + s + '"'], as the f-string [f'"{uuid}"'] builds it. *)
Definition quoted (s : string) : string :=
  String dquote (s ++ String dquote EmptyString).

End Str.

(* ================================================================== *)
(** * The fragment of [re] the program uses

    A backtracking matcher with Python's priorities: alternatives are
    tried from left to right and repetition is greedy.  No pattern of
    the program has a back-reference or a look-around; the capturing
    groups of [translate_vars] are handled where it is defined. *)

Module Re.

Inductive regex : Type :=
| Eps
| Cls (p : ascii -> bool)
| Cat (a b : regex)
| Alt (a b : regex)
| Star (a : regex).

Definition Plus (a : regex) : regex := Cat a (Star a).
Definition Opt (a : regex) : regex := Alt a Eps.
Definition Chr (c : ascii) : regex := Cls (Ascii.eqb c).

Fixpoint Lit (s : string) : regex :=
  match s with
  | EmptyString => Eps
  | String c s' => Cat (Chr c) (Lit s')
  end.

Fixpoint seq (l : list regex) : regex :=
  match l with
  | [] => Eps
  | [r] => r
  | r :: rs => Cat r (seq rs)
  end.

Fixpoint alt (l : list regex) : regex :=
  match l with
  | [] => Cls (fun _ => false)
  | [r] => r
  | r :: rs => Alt r (alt rs)
  end.

Section Matcher.
Context {A : Type}.

(** [rmatch r s k]: match [r] at the start of [s] and hand what is left
    of [s] to [k]; when [k] fails the matcher backtracks. *)
Fixpoint rmatch (r : regex) (s : string) (k : string -> option A)
  {struct r} : option A :=
    match r with
    | Eps => k s
    | Cls p =>
        match s with
        | String c s' => if p c then k s' else None
        | EmptyString => None
        end
    | Cat a b => rmatch a s (fun s1 => rmatch b s1 k)
    | Alt a b =>
        match rmatch a s k with
        | Some x => Some x
        | None => rmatch b s k
        end
    | Star a =>
        (fix loop (n : nat) (s : string) (k : string -> option A)
           {struct n} : option A :=
           match n with
           | O => k s
           | S n' =>
               match rmatch a s (fun s1 =>
                        if (String.length s1 <? String.length s)%nat
                        then loop n' s1 k else None) with
               | Some x => Some x
               | None => k s
               end
           end) (String.length s) s k
    end.
End Matcher.

(** Length of the text [re.match(r, s)] matches, if it matches. *)
Definition match_len (r : regex) (s : string) : option nat :=
  rmatch r s (fun rest => Some (String.length s - String.length rest)%nat).

(** [re.match(r, s).group(0)], or [None]. *)
Definition re_match (r : regex) (s : string) : option string :=
  option_map (fun n => Str.take n s) (match_len r s).

(** The leftmost match at or after the start of [s]: the text before
    it, the text matched, and the text after it. *)
Fixpoint search (r : regex) (s : string) : option (string * string * string) :=
  match match_len r s with
  | Some n => Some (EmptyString, Str.take n s, Str.drop n s)
  | None =>
      match s with
      | EmptyString => None
      | String c s' =>
          match search r s' with
          | Some (pre, m, post) => Some (String c pre, m, post)
          | None => None
          end
      end
  end.

(** [re.split(r, s)] lists the texts between the matches; with [keep]
    the matched texts are listed too, in place.  [re.findall(r, s)]
    lists the matches.  The patterns of the program match no empty
    text; an empty match is left [Unsupported]. *)
Fixpoint split_fuel (fuel : nat) (keep : bool) (r : regex) (s : string)
  : outcome (list string) :=
  match fuel with
  | O => OutOfFuel
  | S fuel' =>
      match search r s with
      | None => Ok [s]
      | Some (pre, m, post) =>
          if (m =? "")%string then Unsupported
          else
            rest <- split_fuel fuel' keep r post ;;
            Ok (pre :: (if keep then m :: rest else rest))
      end
  end.

Definition re_split (r : regex) (s : string) : outcome (list string) :=
  split_fuel (S (String.length s)) false r s.

Definition re_split_keep (r : regex) (s : string) : outcome (list string) :=
  split_fuel (S (String.length s)) true r s.

Fixpoint findall_fuel (fuel : nat) (r : regex) (s : string)
  : outcome (list string) :=
  match fuel with
  | O => OutOfFuel
  | S fuel' =>
      match search r s with
      | None => Ok []
      | Some (_, m, post) =>
          if (m =? "")%string then Unsupported
          else rest <- findall_fuel fuel' r post ;; Ok (m :: rest)
      end
  end.

Definition re_findall (r : regex) (s : string) : outcome (list string) :=
  findall_fuel (S (String.length s)) r s.

(** Character classes and the patterns of [parse.py]. *)
Definition ws : regex := Cls Str.is_space.
Definition any : regex := Cls (fun c => negb (Ascii.eqb c Str.newline)).

(** [name = "[A-Za-z0-9_]"]. *)
Definition is_name (c : ascii) : bool :=
  Str.is_upper c || Str.is_lower c || Str.is_digit c || Ascii.eqb c "_".
Definition name : regex := Cls is_name.

(** [r_expr = "[A=Za-z0-9_ \t\(\)\+\-\*/]"]: the class holds [A], [=]
    and [Z], not the range from [A] to [Z]. *)
Definition is_r_expr (c : ascii) : bool :=
  Ascii.eqb c "A" || Ascii.eqb c "=" || Ascii.eqb c "Z"
  || Str.is_lower c || Str.is_digit c || Ascii.eqb c "_"
  || Ascii.eqb c " " || Ascii.eqb c Str.tab
  || Ascii.eqb c "(" || Ascii.eqb c ")" || Ascii.eqb c "+"
  || Ascii.eqb c "-" || Ascii.eqb c "*" || Ascii.eqb c "/".
Definition r_expr : regex := Cls is_r_expr.

(** [name+ \s+ name+]. *)
Definition typed_name : regex := seq [Plus name; Plus ws; Plus name].

(** [r_params]: two or more typed names with commas, or one, or none. *)
Definition r_params : regex :=
  Opt (Alt (Cat typed_name
                (Plus (seq [Star ws; Chr ","; Star ws; typed_name])))
           typed_name).

(** [r_cond = "(?:(?:=)|(?:>)|(?:<)|(?:>=)|(?:<=)|(?:!=))"]. *)
Definition r_cond : regex :=
  alt [Lit "="; Lit ">"; Lit "<"; Lit ">="; Lit "<="; Lit "!="].

End Re.

(* ================================================================== *)
(** * Commands, functions and values *)

(** [CallTypeEnum] of [runtime.py]. *)
Inductive CallTypeEnum : Type := CBV | CBR | CBVR | CBNEED | CBNAME.

Definition CallTypeEnum_eqb (a b : CallTypeEnum) : bool :=
  match a, b with
  | CBV, CBV | CBR, CBR | CBVR, CBVR | CBNEED, CBNEED | CBNAME, CBNAME => true
  | _, _ => false
  end.

(** One entry of the line data: the index of the last command of a
    source line, the number of commands of the line, the line number. *)
Definition line_entry : Type := (Z * Z * Z)%type.

(** [Command] of [command.py]: the type tag with the fields that the
    parser stores in [data] for that tag.  [CLEAR_FUNC_RET] is a member
    of [CommandTypeEnum] that nothing constructs. *)
Inductive Command : Type :=
| DECLARE_VAR (name : string)
| DECLARE_FUNC (name : string) (commands : list Command * list line_entry)
               (params : list string)
| ASSIGN_VAR (name value : string)
| FUNC_CALL (name : string) (params : list string)
| RETURN (value : string)
| VALUE_RESULT (name : string) (params : list string)
| STORE_FUNC_RET (uuid : string)
| SCOPE_NEW
| SCOPE_DEL (func : bool)
| CONDITIONAL (left cond right : string)
              (ifc elsec : list Command * list line_entry).

Definition command_data : Type := (list Command * list line_entry)%type.

(** [Function] of [runtime.py]. *)
Module Function.
Record t : Type := mk
  { name : string;
    params : list string;
    commands : command_data;
    rindex : Z }.
End Function.

(** What a record entry, the return slot or an expression can hold:
    [None], an [int], a [str] (an expression kept as text), a
    [Function], or the [bool] of a comparison. *)
Inductive value : Type :=
| VNone
| VInt (z : Z)
| VStr (s : string)
| VFunc (f : Function.t)
| VBool (b : bool).

(** [a != b].  [Function] is a dataclass without fields, so any two
    functions compare equal. *)
Definition value_ne (a b : value) : bool :=
  match a, b with
  | VNone, VNone => false
  | VInt x, VInt y => negb (Z.eqb x y)
  | VStr x, VStr y => negb (String.eqb x y)
  | VFunc _, VFunc _ => false
  | VBool x, VBool y => negb (Bool.eqb x y)
  | VInt x, VBool y => negb (Z.eqb x (if y then 1 else 0))
  | VBool x, VInt y => negb (Z.eqb (if x then 1 else 0) y)
  | _, _ => true
  end.

(** [v != None]. *)
Definition is_not_None (v : value) : bool :=
  match v with VNone => false | _ => true end.

(** [isinstance(v, str)]. *)
Definition is_str (v : value) : bool :=
  match v with VStr _ => true | _ => false end.

(* ================================================================== *)
(** * [eval]: the Python expressions the program builds

    [translate_vars] builds text from decimal literals, the operators
    [+ - * /], parentheses, [stack.get_value('...')] and
    [stack.func_ret("...")]; [conditional] joins two such texts with a
    comparison operator; [str] of a value gives a literal or [None].
    [eval] of such text is: split it into tokens, parse it with
    Python's precedences, evaluate it from left to right. *)

Module PyEval.

Inductive optok : Type :=
| OPlus | OMinus | OStar | OSlash | OAssign
| OEq | ONe | OLt | OGt | OLe | OGe.

Inductive token : Type :=
| TNum (digits : string)
| TName (s : string)
| TStr (s : string)
| TOp (o : optok)
| TLPar
| TRPar
| TDot
| TComma.

Fixpoint span (p : ascii -> bool) (s : string) : string * string :=
  match s with
  | String c s' =>
      if p c then let (a, b) := span p s' in (String c a, b)
      else (EmptyString, s)
  | EmptyString => (EmptyString, EmptyString)
  end.

Definition is_blank (c : ascii) : bool :=
  Ascii.eqb c " " || Ascii.eqb c Str.tab || (Str.code c =? 12)%nat.

Definition is_name_start (c : ascii) : bool :=
  Str.is_upper c || Str.is_lower c || Ascii.eqb c "_".

Definition is_quote (c : ascii) : bool :=
  Ascii.eqb c Str.dquote || Ascii.eqb c Str.squote.

Definition head_is (p : ascii -> bool) (s : string) : bool :=
  match s with String c _ => p c | EmptyString => false end.

(** The keywords of Python other than [None], [True] and [False]: an
    expression with one of them is outside the fragment. *)
Definition is_keyword (w : string) : bool :=
  existsb (String.eqb w)
    ["and"; "as"; "assert"; "async"; "await"; "break"; "class"; "continue";
     "def"; "del"; "elif"; "else"; "except"; "finally"; "for"; "from";
     "global"; "if"; "import"; "in"; "is"; "lambda"; "nonlocal"; "not";
     "or"; "pass"; "raise"; "return"; "try"; "while"; "with"; "yield"].

(** The text of a string literal up to its closing quote [q].  A
    literal with a backslash is outside the fragment; one that the
    line ends before is a syntax error. *)
Fixpoint lex_string (q : ascii) (s : string) : outcome (string * string) :=
  match s with
  | EmptyString => Raise SyntaxError
  | String c s' =>
      if Ascii.eqb c q then Ok (EmptyString, s')
      else if Ascii.eqb c "\" || Ascii.eqb c Str.newline then Unsupported
      else '(a, b) <- lex_string q s' ;; Ok (String c a, b)
  end.

Fixpoint lex (n : nat) (s : string) : outcome (list token) :=
  match n with
  | O => OutOfFuel
  | S n' =>
      match s with
      | EmptyString => Ok []
      | String c s' =>
          let one (t : token) := ts <- lex n' s' ;; Ok (t :: ts) in
          let two (t : token) := ts <- lex n' (Str.drop 1 s') ;; Ok (t :: ts) in
          if is_blank c then lex n' s'
          else if Str.is_digit c then
            let (d, r) := span Str.is_digit s in
            if head_is (fun x => Re.is_name x || Ascii.eqb x ".") r
            then Unsupported
            else ts <- lex n' r ;; Ok (TNum d :: ts)
          else if is_name_start c then
            let (w, r) := span Re.is_name s in
            if head_is is_quote r || is_keyword w then Unsupported
            else ts <- lex n' r ;; Ok (TName w :: ts)
          else if is_quote c then
            if head_is (Ascii.eqb c) s' && head_is (Ascii.eqb c) (Str.drop 1 s')
            then Unsupported
            else '(lit, r) <- lex_string c s' ;;
                 ts <- lex n' r ;; Ok (TStr lit :: ts)
          else if Ascii.eqb c "(" then one TLPar
          else if Ascii.eqb c ")" then one TRPar
          else if Ascii.eqb c "," then one TComma
          else if Ascii.eqb c "." then one TDot
          else if Ascii.eqb c "+" then one (TOp OPlus)
          else if Ascii.eqb c "-" then
            if head_is (Ascii.eqb ">") s' then Unsupported else one (TOp OMinus)
          else if Ascii.eqb c "*" then
            if head_is (Ascii.eqb "*") s' then Unsupported else one (TOp OStar)
          else if Ascii.eqb c "/" then
            if head_is (Ascii.eqb "/") s' then Unsupported else one (TOp OSlash)
          else if Ascii.eqb c "=" then
            if head_is (Ascii.eqb "=") s' then two (TOp OEq) else one (TOp OAssign)
          else if Ascii.eqb c "!" then
            if head_is (Ascii.eqb "=") s' then two (TOp ONe) else Unsupported
          else if Ascii.eqb c "<" then
            if head_is (Ascii.eqb "=") s' then two (TOp OLe)
            else if head_is (fun x => Ascii.eqb x "<" || Ascii.eqb x ">") s'
                 then Unsupported else one (TOp OLt)
          else if Ascii.eqb c ">" then
            if head_is (Ascii.eqb "=") s' then two (TOp OGe)
            else if head_is (Ascii.eqb ">") s' then Unsupported
            else one (TOp OGt)
          else Unsupported
      end
  end.

Inductive binop : Type := Add | Sub | Mul | Div.
Inductive cmpop : Type := CEq | CNe | CLt | CGt | CLe | CGe.

Inductive expr : Type :=
| ENum (z : Z)
| EStr (s : string)
| EName (s : string)
| EAttr (e : expr) (attr : string)
| ECall (f : expr) (args : list expr)
| ENeg (e : expr)
| EPos (e : expr)
| EBin (op : binop) (a b : expr)
| ECmp (op : cmpop) (a b : expr).

Definition cmp_of (o : optok) : option cmpop :=
  match o with
  | OEq => Some CEq | ONe => Some CNe | OLt => Some CLt
  | OGt => Some CGt | OLe => Some CLe | OGe => Some CGe
  | _ => None
  end.

Definition digit_val (c : ascii) : Z := Z.of_nat (Str.code c - 48).

Fixpoint digits_val (acc : Z) (s : string) : Z :=
  match s with
  | EmptyString => acc
  | String c s' => digits_val (10 * acc + digit_val c)%Z s'
  end.

(** A decimal literal; one with a leading zero is refused unless it is
    all zeros. *)
Definition number (d : string) : outcome expr :=
  if head_is (Ascii.eqb "0") d && negb (Str.forallb (Ascii.eqb "0") d)
  then Raise SyntaxError
  else Ok (ENum (digits_val 0 d)).

(** String literals that follow one another are one literal. *)
Fixpoint p_strings (acc : string) (ts : list token) : string * list token :=
  match ts with
  | TStr s :: r => p_strings (acc ++ s) r
  | _ => (acc, ts)
  end.

(** The parser, by recursive descent:
    comparison, sum, product, sign, primary with its trailers, and the
    arguments of a call.  A chain of comparisons, a tuple and a keyword
    are outside the fragment. *)
Fixpoint p_cmp (n : nat) (ts : list token) {struct n}
  : outcome (expr * list token) :=
  match n with
  | O => OutOfFuel
  | S n' =>
      '(a, r) <- p_sum n' ts ;;
      match r with
      | TOp o :: r1 =>
          match cmp_of o with
          | Some c =>
              '(b, r2) <- p_sum n' r1 ;;
              match r2 with
              | TOp o2 :: _ =>
                  match cmp_of o2 with
                  | Some _ => Unsupported
                  | None => Ok (ECmp c a b, r2)
                  end
              | _ => Ok (ECmp c a b, r2)
              end
          | None => Ok (a, r)
          end
      | _ => Ok (a, r)
      end
  end
with p_sum (n : nat) (ts : list token) {struct n}
  : outcome (expr * list token) :=
  match n with
  | O => OutOfFuel
  | S n' => '(a, r) <- p_prod n' ts ;; p_sum_loop n' a r
  end
with p_sum_loop (n : nat) (acc : expr) (ts : list token) {struct n}
  : outcome (expr * list token) :=
  match n with
  | O => OutOfFuel
  | S n' =>
      match ts with
      | TOp OPlus :: r =>
          '(b, r') <- p_prod n' r ;; p_sum_loop n' (EBin Add acc b) r'
      | TOp OMinus :: r =>
          '(b, r') <- p_prod n' r ;; p_sum_loop n' (EBin Sub acc b) r'
      | _ => Ok (acc, ts)
      end
  end
with p_prod (n : nat) (ts : list token) {struct n}
  : outcome (expr * list token) :=
  match n with
  | O => OutOfFuel
  | S n' => '(a, r) <- p_sign n' ts ;; p_prod_loop n' a r
  end
with p_prod_loop (n : nat) (acc : expr) (ts : list token) {struct n}
  : outcome (expr * list token) :=
  match n with
  | O => OutOfFuel
  | S n' =>
      match ts with
      | TOp OStar :: r =>
          '(b, r') <- p_sign n' r ;; p_prod_loop n' (EBin Mul acc b) r'
      | TOp OSlash :: r =>
          '(b, r') <- p_sign n' r ;; p_prod_loop n' (EBin Div acc b) r'
      | _ => Ok (acc, ts)
      end
  end
with p_sign (n : nat) (ts : list token) {struct n}
  : outcome (expr * list token) :=
  match n with
  | O => OutOfFuel
  | S n' =>
      match ts with
      | TOp OMinus :: r => '(e, r') <- p_sign n' r ;; Ok (ENeg e, r')
      | TOp OPlus :: r => '(e, r') <- p_sign n' r ;; Ok (EPos e, r')
      | _ => '(a, r) <- p_atom n' ts ;; p_trailers n' a r
      end
  end
with p_atom (n : nat) (ts : list token) {struct n}
  : outcome (expr * list token) :=
  match n with
  | O => OutOfFuel
  | S n' =>
      match ts with
      | TNum d :: r => e <- number d ;; Ok (e, r)
      | TStr s :: r => let (lit, r') := p_strings s r in Ok (EStr lit, r')
      | TName x :: r => Ok (EName x, r)
      | TLPar :: TRPar :: _ => Unsupported
      | TLPar :: r =>
          '(e, r') <- p_cmp n' r ;;
          match r' with
          | TRPar :: r'' => Ok (e, r'')
          | TComma :: _ => Unsupported
          | TName _ :: _ => Unsupported
          | _ => Raise SyntaxError
          end
      | TDot :: _ => Unsupported
      | _ => Raise SyntaxError
      end
  end
with p_trailers (n : nat) (acc : expr) (ts : list token) {struct n}
  : outcome (expr * list token) :=
  match n with
  | O => OutOfFuel
  | S n' =>
      match ts with
      | TDot :: TName a :: r => p_trailers n' (EAttr acc a) r
      | TDot :: _ => Raise SyntaxError
      | TLPar :: TRPar :: r => p_trailers n' (ECall acc []) r
      | TLPar :: r =>
          '(args, r') <- p_args n' r ;; p_trailers n' (ECall acc args) r'
      | _ => Ok (acc, ts)
      end
  end
with p_args (n : nat) (ts : list token) {struct n}
  : outcome (list expr * list token) :=
  match n with
  | O => OutOfFuel
  | S n' =>
      '(e, r) <- p_cmp n' ts ;;
      match r with
      | TRPar :: r' => Ok ([e], r')
      | TComma :: TRPar :: _ => Unsupported
      | TComma :: r' => '(es, r'') <- p_args n' r' ;; Ok (e :: es, r'')
      | TName _ :: _ => Unsupported
      | TOp OAssign :: _ => Unsupported
      | _ => Raise SyntaxError
      end
  end.

(** [compile(text, mode='eval')]. *)
Definition parse (text : string) : outcome expr :=
  ts <- lex (S (String.length text)) text ;;
  '(e, r) <- p_cmp (8 * List.length ts + 8) ts ;;
  match r with
  | [] => Ok e
  | TName _ :: _ => Unsupported
  | TComma :: _ => Unsupported
  | _ => Raise SyntaxError
  end.

End PyEval.

(* ================================================================== *)
(** * Evaluation of a parsed expression

    The text is evaluated in the scope of the [eval] call.  The one
    name of that scope the program's texts can mention is [stack]:
    [scope] says whether the scope binds it, and what the two methods
    the texts call do.  [S] is the state the methods act on. *)

Module PyScope.
Record methods (S : Type) : Type := mk
  { get_value : string -> S -> outcome (value * S);
    func_ret : string -> S -> outcome value }.
Arguments mk {S}.
Arguments get_value {S}.
Arguments func_ret {S}.
End PyScope.

Module PyValue.

(** [str(v)]. *)
Definition str (v : value) : string :=
  match v with
  | VNone => "None"
  | VInt z => NilZero.string_of_int (Z.to_int z)
  | VStr s => s
  | VFunc _ => "Function()"
  | VBool true => "True"
  | VBool false => "False"
  end.

(** Arithmetic.  [/] is true division: its result is a [float], which
    the model does not have. *)
Definition binop (op : PyEval.binop) (a b : value) : outcome value :=
  match a, b with
  | VInt x, VInt y =>
      match op with
      | PyEval.Add => Ok (VInt (x + y))
      | PyEval.Sub => Ok (VInt (x - y))
      | PyEval.Mul => Ok (VInt (x * y))
      | PyEval.Div => if Z.eqb y 0 then Raise ZeroDivisionError else Unsupported
      end
  | VStr x, VStr y =>
      match op with
      | PyEval.Add => Ok (VStr (x ++ y))
      | _ => Raise TypeError
      end
  | VBool _, _ | _, VBool _ => Unsupported
  | VStr _, VInt _ | VInt _, VStr _ =>
      match op with
      | PyEval.Mul => Unsupported
      | _ => Raise TypeError
      end
  | _, _ => Raise TypeError
  end.

Definition neg (a : value) : outcome value :=
  match a with
  | VInt x => Ok (VInt (- x))
  | VBool _ => Unsupported
  | _ => Raise TypeError
  end.

Definition pos (a : value) : outcome value :=
  match a with
  | VInt x => Ok (VInt x)
  | VBool _ => Unsupported
  | _ => Raise TypeError
  end.

Definition cmp (op : PyEval.cmpop) (a b : value) : outcome value :=
  match op with
  | PyEval.CEq => Ok (VBool (negb (value_ne a b)))
  | PyEval.CNe => Ok (VBool (value_ne a b))
  | _ =>
      match a, b with
      | VInt x, VInt y =>
          Ok (VBool match op with
                    | PyEval.CLt => Z.ltb x y
                    | PyEval.CGt => Z.gtb x y
                    | PyEval.CLe => Z.leb x y
                    | _ => Z.geb x y
                    end)
      | VBool _, _ | _, VBool _ => Unsupported
      | VStr _, VStr _ => Unsupported
      | _, _ => Raise TypeError
      end
  end.

End PyValue.

(** The arguments of a call, evaluated from left to right by [ev]. *)
Definition eval_list {S : Type}
  (ev : PyEval.expr -> S -> outcome (value * S))
  : list PyEval.expr -> S -> outcome (list value * S) :=
  fix eval_args (l : list PyEval.expr) (s : S) : outcome (list value * S) :=
    match l with
    | [] => Ok ([], s)
    | a :: l' =>
        '(v, s1) <- ev a s ;;
        '(vs, s2) <- eval_args l' s1 ;;
        Ok (v :: vs, s2)
    end.

Section Eval.
Context {S : Type}.
Variable stack : option (PyScope.methods S).

(** Evaluation is from left to right: the callee before the arguments,
    the left operand before the right one. *)
Fixpoint eval_expr (e : PyEval.expr) (s : S) {struct e} : outcome (value * S) :=
  match e with
  | PyEval.ENum z => Ok (VInt z, s)
  | PyEval.EStr t => Ok (VStr t, s)
  | PyEval.EName x =>
      if x =? "None" then Ok (VNone, s)
      else if x =? "True" then Ok (VBool true, s)
      else if x =? "False" then Ok (VBool false, s)
      else if x =? "stack" then
        match stack with
        | None => Raise (NameError "stack")
        | Some _ => Unsupported
        end
      else Unsupported
  | PyEval.ECall (PyEval.EAttr (PyEval.EName x) m) args =>
      if x =? "stack" then
        match stack with
        | None => Raise (NameError "stack")
        | Some st =>
            if (m =? "get_value") || (m =? "func_ret") then
              '(vs, s1) <- eval_list eval_expr args s ;;
              match vs with
              | [VStr a] =>
                  if m =? "get_value" then PyScope.get_value st a s1
                  else v <- PyScope.func_ret st a s1 ;; Ok (v, s1)
              | _ => Unsupported
              end
            else Unsupported
        end
      else Unsupported
  | PyEval.ECall f args =>
      '(_, s1) <- eval_expr f s ;;
      '(_, _) <- eval_list eval_expr args s1 ;;
      Raise TypeError
  | PyEval.EAttr e' _ =>
      '(_, _) <- eval_expr e' s ;; Unsupported
  | PyEval.ENeg a =>
      '(v, s1) <- eval_expr a s ;; r <- PyValue.neg v ;; Ok (r, s1)
  | PyEval.EPos a =>
      '(v, s1) <- eval_expr a s ;; r <- PyValue.pos v ;; Ok (r, s1)
  | PyEval.EBin op a b =>
      '(x, s1) <- eval_expr a s ;;
      '(y, s2) <- eval_expr b s1 ;;
      r <- PyValue.binop op x y ;; Ok (r, s2)
  | PyEval.ECmp op a b =>
      '(x, s1) <- eval_expr a s ;;
      '(y, s2) <- eval_expr b s1 ;;
      r <- PyValue.cmp op x y ;; Ok (r, s2)
  end.

(** [eval(text)] in a scope that binds [stack] as given. *)
Definition py_eval (text : string) (s : S) : outcome (value * S) :=
  e <- PyEval.parse text ;; eval_expr e s.

End Eval.

(** [eval(text)] in a scope where the name [stack] is not bound. *)
Definition eval_no_stack (text : string) : outcome value :=
  '(v, _) <- py_eval (S := unit) None text tt ;; Ok v.

(* ================================================================== *)
(** * Python lists and dicts *)

Module PyList.

(** [l[i]]: a negative index counts from the end. *)
Definition index {A : Type} (l : list A) (i : Z) : outcome A :=
  let n := Z.of_nat (List.length l) in
  let j := (if i <? 0 then i + n else i)%Z in
  if ((0 <=? j) && (j <? n))%Z
  then match nth_error l (Z.to_nat j) with
       | Some x => Ok x
       | None => Raise IndexError
       end
  else Raise IndexError.

Fixpoint set_nth {A : Type} (l : list A) (n : nat) (x : A) : list A :=
  match l, n with
  | [], _ => []
  | _ :: l', O => x :: l'
  | y :: l', S n' => y :: set_nth l' n' x
  end.

(** The list after the object at [l[i]] has changed to [x]. *)
Definition update {A : Type} (l : list A) (i : Z) (x : A) : list A :=
  let n := Z.of_nat (List.length l) in
  let j := (if i <? 0 then i + n else i)%Z in
  if ((0 <=? j) && (j <? n))%Z then set_nth l (Z.to_nat j) x else l.

(** [l.pop()]: the list without its last element, and that element. *)
Definition pop {A : Type} (l : list A) : outcome (list A * A) :=
  match rev l with
  | [] => Raise IndexError
  | x :: r => Ok (rev r, x)
  end.

(** [range(a, b, -1)]: [a, a-1, ..., b+1]. *)
Definition range_down (a b : Z) : list Z :=
  map (fun k => (a - Z.of_nat k)%Z) (seq 0 (Z.to_nat (a - b))).

(** [range(n)]. *)
Definition range (n : nat) : list nat := seq 0 n.

Definition len {A : Type} (l : list A) : Z := Z.of_nat (List.length l).

End PyList.

(** A [dict] with [str] keys: the entries in insertion order.  Storing
    under a key the dict has keeps the key's place. *)
Module Dict.

Definition t (V : Type) : Type := list (string * V).

Fixpoint get {V : Type} (d : t V) (k : string) : option V :=
  match d with
  | [] => None
  | (k', v) :: d' => if k' =? k then Some v else get d' k
  end.

Definition mem {V : Type} (d : t V) (k : string) : bool :=
  match get d k with Some _ => true | None => false end.

Fixpoint set {V : Type} (d : t V) (k : string) (v : V) : t V :=
  match d with
  | [] => [(k, v)]
  | (k', v') :: d' => if k' =? k then (k', v) :: d' else (k', v') :: set d' k v
  end.

Definition keys {V : Type} (d : t V) : list string := map fst d.

End Dict.

(* ================================================================== *)
(** * [runtime.py] *)

(** [eval(value)] for a value that need not be text. *)
Definition eval_value (v : value) : outcome value :=
  match v with
  | VStr text => eval_no_stack text
  | _ => Raise TypeError
  end.

(** An optional name used as a condition: [None] and the empty text
    are false. *)
Definition name_given (fname : option string) : option string :=
  match fname with
  | Some f => if f =? "" then None else Some f
  | None => None
  end.

Module ActivatationRecord.

Record t : Type := mk
  { record : Dict.t value;
    calltype : CallTypeEnum }.

(** [ActivatationRecord(calltype)]. *)
Definition new (calltype : CallTypeEnum) : t := mk [] calltype.

Definition with_record (self : t) (d : Dict.t value) : t :=
  mk d (calltype self).

(** The inner function [obtain] of [get_value].  Its [eval] runs in
    the scope of [obtain], which holds [val], [self] and [name]: the
    parameter [stack] of [get_value] is no name of that scope, since
    [obtain] does not mention it. *)
Definition obtain (self : t) (name : string) : outcome (value * t) :=
  match Dict.get (record self) name with
  | None => Raise (KeyError name)
  | Some stored =>
      val <- (match stored with
              | VStr text => eval_no_stack text
              | _ => Ok stored
              end) ;;
      if CallTypeEnum_eqb (calltype self) CBNEED && value_ne val stored
      then Ok (val, with_record self (Dict.set (record self) name val))
      else Ok (val, self)
  end.

(** The loop of [get_value] over the entries when [fname] is given. *)
Fixpoint get_before (self : t) (name fname : string) (items : Dict.t value)
  : outcome (value * t) :=
  match items with
  | [] => Ok (VNone, self)
  | (k, _) :: items' =>
      if k =? fname then Ok (VNone, self)
      else if k =? name then obtain self name
      else get_before self name fname items'
  end.

(** [get_value(self, stack, name, fname=None)]: the value and the
    record afterwards.  The parameter [stack] has no part in it: it is
    there for the [eval] of [obtain], which cannot see it. *)
Definition get_value (self : t) (name : string) (fname : option string)
  : outcome (value * t) :=
  match name_given fname with
  | Some f => get_before self name f (record self)
  | None =>
      if Dict.mem (record self) name then obtain self name
      else Ok (VNone, self)
  end.

(** The inner function [assign] of [set_value]. *)
Definition assign (self : t) (name : string) (value : value) : outcome t :=
  v <- (match value with
        | VStr text => eval_no_stack text
        | _ => Ok value
        end) ;;
  Ok (with_record self (Dict.set (record self) name v)).

Fixpoint set_before (self : t) (name : string) (value : value)
  (fname : string) (keys : list string) : outcome (bool * t) :=
  match keys with
  | [] => Ok (false, self)
  | k :: keys' =>
      if k =? fname then Ok (false, self)
      else if k =? name then r <- assign self name value ;; Ok (true, r)
      else set_before self name value fname keys'
  end.

(** [set_value(self, stack, name, value, fname=None)]; [stack] has no
    part in it either. *)
Definition set_value (self : t) (name : string) (value : value)
  (fname : option string) : outcome (bool * t) :=
  match name_given fname with
  | Some f => set_before self name value f (Dict.keys (record self))
  | None =>
      if Dict.mem (record self) name
      then r <- assign self name value ;; Ok (true, r)
      else Ok (false, self)
  end.

End ActivatationRecord.

Module RuntimeStack.

(** The first component of an entry of [func_stack] is the index the
    function was declared at; [value_result] pushes an entry whose
    first component is the whole entry it popped. *)
Inductive frame_ref : Type :=
| RInt (rindex : Z)
| RTuple (rindex : frame_ref) (sindex : Z) (fname : string).

Definition func_entry : Type := (frame_ref * Z * string)%type.

Record t : Type := mk
  { records : list ActivatationRecord.t;
    typing : bool;
    calltype : CallTypeEnum;
    ret : value;
    func_stack : list func_entry;
    func_returns : Dict.t value }.

(** [RuntimeStack(type, calltype)]. *)
Definition new (type : bool) (calltype : CallTypeEnum) : t :=
  mk [] type calltype VNone [] [].

Definition with_records (self : t) (rs : list ActivatationRecord.t) : t :=
  mk rs (typing self) (calltype self) (ret self) (func_stack self)
     (func_returns self).

Definition with_func_stack (self : t) (fs : list func_entry) : t :=
  mk (records self) (typing self) (calltype self) (ret self) fs
     (func_returns self).

Definition store_func_returns (self : t) (uuid : string) : t :=
  mk (records self) (typing self) (calltype self) VNone (func_stack self)
     (Dict.set (func_returns self) uuid (ret self)).

Definition func_ret (self : t) (uuid : string) : outcome value :=
  match Dict.get (func_returns self) uuid with
  | Some v => Ok v
  | None => Raise (KeyError uuid)
  end.

Definition push_record (self : t) (record : ActivatationRecord.t) : t :=
  with_records self (records self ++ [record]).

Definition pop_record (self : t) : outcome t :=
  '(rs, _) <- PyList.pop (records self) ;; Ok (with_records self rs).

Definition push_func (self : t) (rindex : frame_ref) (fname : string) : t :=
  with_func_stack self
    (func_stack self ++ [(rindex, (PyList.len (records self) - 1)%Z, fname)]).

Definition pop_func (self : t) : outcome (func_entry * t) :=
  '(fs, e) <- PyList.pop (func_stack self) ;; Ok (e, with_func_stack self fs).

Definition in_func (self : t) : bool :=
  match func_stack self with [] => false | _ => true end.

Definition set_ret (self : t) (value : value) : t :=
  mk (records self) (typing self) (calltype self) value (func_stack self)
     (func_returns self).

Definition get_ret (self : t) : value := ret self.

(** One loop of [get_value]: the records at the indices [idxs], in that
    order, until one gives a value that is not [None]. *)
Fixpoint get_loop (self : t) (name : string) (fname : option string)
  (idxs : list Z) : outcome (value * t) :=
  match idxs with
  | [] => Ok (VNone, self)
  | i :: idxs' =>
      r <- PyList.index (records self) i ;;
      '(v, r') <- ActivatationRecord.get_value r name fname ;;
      let self' := with_records self (PyList.update (records self) i r') in
      if is_not_None v then Ok (v, self')
      else get_loop self' name fname idxs'
  end.

(** [get_value(self, name)]: static scoping is [not self.typing], and
    it applies inside a function call only. *)
Definition get_value (self : t) (name : string) : outcome (value * t) :=
  let top := (PyList.len (records self) - 1)%Z in
  if in_func self && negb (typing self) then
    '(rindex, sindex, fname) <- PyList.index (func_stack self) (-1) ;;
    '(v, s1) <- get_loop self name None (PyList.range_down top (sindex - 1)) ;;
    if is_not_None v then Ok (v, s1)
    else
      match rindex with
      | RInt r => get_loop s1 name (Some fname) (PyList.range_down r (-1))
      | RTuple _ _ _ => Raise TypeError
      end
  else get_loop self name None (PyList.range_down top (-1)).

(** One loop of [set_value].  With [evaluate] the argument passed on is
    [eval(value)], computed anew for every record tried. *)
Fixpoint set_loop (self : t) (name : string) (value : value) (evaluate : bool)
  (fname : option string) (idxs : list Z) : outcome (bool * t) :=
  match idxs with
  | [] => Ok (false, self)
  | i :: idxs' =>
      r <- PyList.index (records self) i ;;
      v <- (if evaluate then eval_value value else Ok value) ;;
      '(done, r') <- ActivatationRecord.set_value r name v fname ;;
      if done
      then Ok (true, with_records self (PyList.update (records self) i r'))
      else set_loop self name value evaluate fname idxs'
  end.

(** [set_value(self, name, value)]. *)
Definition set_value (self : t) (name : string) (value : value)
  : outcome (bool * t) :=
  let top := (PyList.len (records self) - 1)%Z in
  if in_func self && negb (typing self) then
    '(rindex, sindex, fname) <- PyList.index (func_stack self) (-1) ;;
    '(done, s1) <- set_loop self name value true None
                     (PyList.range_down top (sindex - 1)) ;;
    if done then Ok (true, s1)
    else
      match rindex with
      | RInt r =>
          set_loop s1 name value true (Some fname) (PyList.range_down r (-1))
      | RTuple _ _ _ => Raise TypeError
      end
  else set_loop self name value false None (PyList.range_down top (-1)).

(** [declare_value(self, name)]. *)
Definition declare_value (self : t) (name : string) : outcome t :=
  r <- PyList.index (records self) (-1) ;;
  Ok (with_records self
        (PyList.update (records self) (-1)
           (ActivatationRecord.with_record r
              (Dict.set (ActivatationRecord.record r) name VNone)))).

End RuntimeStack.

(* ================================================================== *)
(** * [command.py] *)

Module Cmd.

(** The pattern of [translate_vars]:
    [(".+")|(\()|(\))|(\s?\+\s?)|(\s?-\s?)|(\s?\*\s?)|(\s?/\s?)]. *)
Definition elem_pattern : Re.regex :=
  let around (c : ascii) := Re.seq [Re.Opt Re.ws; Re.Chr c; Re.Opt Re.ws] in
  Re.alt [ Re.seq [Re.Chr Str.dquote; Re.Plus Re.any; Re.Chr Str.dquote];
           Re.Chr "("; Re.Chr ")";
           around "+"%char; around "-"%char; around "*"%char;
           around "/"%char ].

Definition is_operator (s : string) : bool :=
  existsb (String.eqb s) ["+"; "-"; "*"; "/"; "("; ")"].

(** The text [translate_vars] puts for one element. *)
Definition translate_elem (elem : string) : string :=
  if is_operator (Str.strip elem) || Str.isnumeric elem then elem
  else if PyEval.head_is (Ascii.eqb Str.dquote) elem
       then "stack.func_ret(" ++ elem ++ ")"
       else "stack.get_value('" ++ elem ++ "')".

(** [translate_vars(expr)].  Every alternative of the pattern is one
    capturing group, so [re.split] lists each matched text between the
    texts around it, with [None] for the six groups that took no part;
    [filter(None, ...)] drops those and the empty texts. *)
Definition translate_vars (expr : string) : outcome string :=
  parts <- Re.re_split_keep elem_pattern expr ;;
  let elems := filter (fun e => negb (e =? "")) parts in
  Ok (String.concat "" (map translate_elem elems)).

(** The scope of an [eval] in a function of [command.py]: [stack] is
    the runtime stack. *)
Definition stack_scope : option (PyScope.methods RuntimeStack.t) :=
  Some (PyScope.mk
          (fun name s => RuntimeStack.get_value s name)
          (fun uuid s => RuntimeStack.func_ret s uuid)).

Definition eval (text : string) (stack : RuntimeStack.t)
  : outcome (value * RuntimeStack.t) :=
  py_eval stack_scope text stack.

Definition new_scope (stack : RuntimeStack.t) (calltype : CallTypeEnum)
  : RuntimeStack.t :=
  RuntimeStack.push_record stack (ActivatationRecord.new calltype).

Definition del_scope (stack : RuntimeStack.t) (func : bool)
  : outcome RuntimeStack.t :=
  s1 <- (if func
         then '(_, s) <- RuntimeStack.pop_func stack ;; Ok s
         else Ok stack) ;;
  RuntimeStack.pop_record s1.

Definition declare_variable (stack : RuntimeStack.t) (name : string)
  : outcome RuntimeStack.t :=
  RuntimeStack.declare_value stack name.

Definition assign_variable (stack : RuntimeStack.t) (name value : string)
  : outcome RuntimeStack.t :=
  expr <- translate_vars value ;;
  '(v, s1) <- eval expr stack ;;
  '(_, s2) <- RuntimeStack.set_value s1 name (VStr (PyValue.str v)) ;;
  Ok s2.

Definition function_return (stack : RuntimeStack.t) (value : string)
  : outcome RuntimeStack.t :=
  expr <- translate_vars value ;;
  '(v, s1) <- eval expr stack ;;
  Ok (RuntimeStack.set_ret s1 v).

(** [func.params] and [func.name]: only a [Function] has them. *)
Definition as_function (v : value) : outcome Function.t :=
  match v with
  | VFunc f => Ok f
  | _ => Raise AttributeError
  end.

(** The loop of [value_result].  For an argument that is not numeric
    it calls [func_record.get_value(param)], one argument short of the
    two that [get_value] requires. *)
Fixpoint value_result_loop (params args : list string) (idxs : list nat)
  : outcome unit :=
  match idxs with
  | [] => Ok tt
  | i :: idxs' =>
      _ <- PyList.index params (Z.of_nat i) ;;
      arg <- PyList.index args (Z.of_nat i) ;;
      if negb (Str.isnumeric arg) then Raise TypeError
      else value_result_loop params args idxs'
  end.

Definition value_result (stack : RuntimeStack.t) (name : string)
  (args : list string) : outcome RuntimeStack.t :=
  '(func, s1) <- RuntimeStack.get_value stack name ;;
  '(rindex, s2) <- RuntimeStack.pop_func s1 ;;
  '(rs, func_record) <- PyList.pop (RuntimeStack.records s2) ;;
  let s3 := RuntimeStack.with_records s2 rs in
  f <- as_function func ;;
  _ <- value_result_loop (Function.params f) args
         (PyList.range (List.length (Function.params f))) ;;
  let s4 := RuntimeStack.with_records s3 (RuntimeStack.records s3 ++ [func_record]) in
  let '(r, sindex, fname) := rindex in
  Ok (RuntimeStack.push_func s4 (RuntimeStack.RTuple r sindex fname)
        (Function.name f)).

Definition declare_function (stack : RuntimeStack.t) (name : string)
  (commands : command_data) (params : list string) : outcome RuntimeStack.t :=
  s1 <- RuntimeStack.declare_value stack name ;;
  let f := Function.mk name params commands
             (PyList.len (RuntimeStack.records s1) - 1)%Z in
  '(_, s2) <- RuntimeStack.set_value s1 name (VFunc f) ;;
  Ok s2.

Definition is_deferred (calltype : CallTypeEnum) : bool :=
  CallTypeEnum_eqb calltype CBNAME || CallTypeEnum_eqb calltype CBNEED
  || CallTypeEnum_eqb calltype CBR.

(** [apply_func_params]: the record being filled and the stack. *)
Fixpoint apply_func_params_loop (stack : RuntimeStack.t)
  (record : ActivatationRecord.t) (params arguments : list string)
  (calltype : CallTypeEnum) (idxs : list nat)
  : outcome (ActivatationRecord.t * RuntimeStack.t) :=
  match idxs with
  | [] => Ok (record, stack)
  | i :: idxs' =>
      argument <- PyList.index arguments (Z.of_nat i) ;;
      text <- translate_vars argument ;;
      '(v, s1) <- (if is_deferred calltype then Ok (VStr text, stack)
                   else eval text stack) ;;
      param <- PyList.index params (Z.of_nat i) ;;
      apply_func_params_loop s1
        (ActivatationRecord.with_record record
           (Dict.set (ActivatationRecord.record record) param v))
        params arguments calltype idxs'
  end.

Definition apply_func_params (stack : RuntimeStack.t)
  (record : ActivatationRecord.t) (params arguments : list string)
  (calltype : CallTypeEnum)
  : outcome (ActivatationRecord.t * RuntimeStack.t) :=
  apply_func_params_loop stack record params arguments calltype
    (PyList.range (List.length params)).

(** [cond_lookup] of [conditional]. *)
Definition cond_lookup : Dict.t string :=
  [ ("=", "=="); ("==", "==");
    ("\=", "!="); ("/=", "!="); ("!=", "!=");
    (">", ">"); ("<", "<");
    ("=<", "<="); ("<=", "<=");
    (">=", ">="); ("=>", ">=") ].

(** The truth of a value in [if boolean:]. *)
Definition truthy (v : value) : bool :=
  match v with
  | VNone => false
  | VInt z => negb (Z.eqb z 0)
  | VStr s => negb (s =? "")
  | VFunc _ => true
  | VBool b => b
  end.

(** The first two statements of [conditional]: the text of the
    comparison, and its value. *)
Definition condition (stack : RuntimeStack.t) (lhs cond rhs : string)
  : outcome (value * RuntimeStack.t) :=
  l <- translate_vars lhs ;;
  op <- match Dict.get cond_lookup cond with
        | Some op => Ok op
        | None => Raise (KeyError cond)
        end ;;
  r <- translate_vars rhs ;;
  eval (l ++ op ++ r) stack.

Section Execute.
(** What [c.apply(stack, calltype)] does, for the loops below. *)
Variable apply : Command -> RuntimeStack.t -> outcome RuntimeStack.t.

(** The inner loop of [execute_program]: [count] commands from index
    [i] on.  The lines it prints are left out. *)
Fixpoint run_commands (commands : list Command) (count : nat) (i : nat)
  (stack : RuntimeStack.t) : outcome (nat * RuntimeStack.t) :=
  match count with
  | O => Ok (i, stack)
  | S count' =>
      c <- PyList.index commands (Z.of_nat i) ;;
      s1 <- apply c stack ;;
      run_commands commands count' (S i) s1
  end.

(** The outer loop of [execute_program], over the line data. *)
Fixpoint run_lines (commands : list Command) (line_data : list line_entry)
  (i : nat) (stack : RuntimeStack.t) : outcome RuntimeStack.t :=
  match line_data with
  | [] => Ok stack
  | (_, ccount, _) :: line_data' =>
      '(i', s1) <- run_commands commands (Z.to_nat ccount) i stack ;;
      run_lines commands line_data' i' s1
  end.
End Execute.

Section Calls.
(** [execute_program(stack, calltype, commands, line_data)] as the two
    functions below call it, on the commands and line data of a body. *)
Variable execute_program : RuntimeStack.t -> command_data -> outcome RuntimeStack.t.

(** [call_function(stack, fname, args, calltype)]. *)
Definition call_function (stack : RuntimeStack.t) (fname : string)
  (args : list string) (calltype : CallTypeEnum) : outcome RuntimeStack.t :=
  '(func, s1) <- RuntimeStack.get_value stack fname ;;
  let rfunc := ActivatationRecord.new calltype in
  f <- as_function func ;;
  '(rfunc', s2) <- apply_func_params s1 rfunc (Function.params f) args calltype ;;
  let s3 := RuntimeStack.push_record s2 rfunc' in
  let s4 := RuntimeStack.push_func s3 (RuntimeStack.RInt (Function.rindex f))
              fname in
  execute_program s4 (Function.commands f).

(** [conditional(stack, left, cond, right, ifcommands, ecommands,
    calltype)]. *)
Definition conditional (stack : RuntimeStack.t) (lhs cond rhs : string)
  (ifcommands ecommands : command_data) (calltype : CallTypeEnum)
  : outcome RuntimeStack.t :=
  '(boolean, s1) <- condition stack lhs cond rhs ;;
  if truthy boolean
  then execute_program
         (RuntimeStack.push_record s1 (ActivatationRecord.new calltype))
         ifcommands
  else execute_program
         (RuntimeStack.push_record s1 (ActivatationRecord.new calltype))
         ecommands.
End Calls.

(** [Command.apply(self, stack, calltype)].  [call_function] and
    [conditional] run [execute_program], which applies commands in
    turn: [n] bounds the depth of calls and conditionals in progress. *)
Fixpoint apply (n : nat) (calltype : CallTypeEnum) (c : Command)
  (stack : RuntimeStack.t) {struct n} : outcome RuntimeStack.t :=
  match n with
  | O => OutOfFuel
  | S n' =>
      let execute_program (s : RuntimeStack.t) (body : command_data) :=
        run_lines (apply n' calltype) (fst body) (snd body) 0 s in
      match c with
      | SCOPE_NEW => Ok (new_scope stack calltype)
      | SCOPE_DEL func => del_scope stack func
      | DECLARE_VAR name => declare_variable stack name
      | ASSIGN_VAR name value => assign_variable stack name value
      | FUNC_CALL fname args =>
          call_function execute_program stack fname args calltype
      | STORE_FUNC_RET uuid => Ok (RuntimeStack.store_func_returns stack uuid)
      | RETURN value => function_return stack value
      | VALUE_RESULT name args =>
          if CallTypeEnum_eqb calltype CBVR then value_result stack name args
          else Ok stack
      | DECLARE_FUNC name commands params =>
          declare_function stack name commands params
      | CONDITIONAL lhs cond rhs ifc elsec =>
          conditional execute_program stack lhs cond rhs ifc elsec calltype
      end
  end.

(** [execute_program(stack, calltype, commands, line_data)]. *)
Definition execute_program (n : nat) (stack : RuntimeStack.t)
  (calltype : CallTypeEnum) (commands : list Command)
  (line_data : list line_entry) : outcome RuntimeStack.t :=
  run_lines (apply n calltype) commands line_data 0 stack.

End Cmd.

(* ================================================================== *)
(** * [parse.py] *)

Module Parse.
Local Open Scope list_scope.

(** The text of a call, the uuid of its result, where it starts and
    where it ends. *)
Definition call : Type := (string * string * nat * nat)%type.

Definition call_end (c : call) : nat := let '(_, _, _, m) := c in m.

Section WithUuid.
(** [str(uuid4())]: the text of the [k]-th uuid drawn during the parse. *)
Variable uuid4 : nat -> string.

(** The inner loop of [collect_func_calls]: from index [j], with
    [parens] parentheses open, the index after the one that closes the
    first.  [value[j]] past the end is an [IndexError]. *)
Fixpoint close_paren (rest : string) (parens : nat) (j : nat) : outcome nat :=
  match parens with
  | O => Ok j
  | S p =>
      match rest with
      | EmptyString => Raise IndexError
      | String c rest' =>
          if Ascii.eqb c "(" then close_paren rest' (S parens) (S j)
          else if Ascii.eqb c ")" then
            match p with
            | O => Ok (S j)
            | S _ => close_paren rest' p (S j)
            end
          else close_paren rest' parens (S j)
      end
  end.

(** [name+ \s* \(]. *)
Definition call_head : Re.regex :=
  Re.seq [Re.Plus Re.name; Re.Star Re.ws; Re.Chr "("].

(** The first loop of [collect_func_calls], from index [i]; [k] uuids
    have been drawn. *)
Fixpoint scan_calls (n : nat) (value : string) (i : nat) (k : nat)
  (func_calls : list call) : outcome (list call * nat) :=
  match n with
  | O => OutOfFuel
  | S n' =>
      if (i <? String.length value)%nat then
        match Re.match_len call_head (Str.drop i value) with
        | Some len =>
            j <- close_paren (Str.drop (i + len) value) 1 (i + len) ;;
            scan_calls n' value (i + (len - 1) + 1) (S k)
              (func_calls ++ [(Str.slice value i j, uuid4 k, i, j)])
        | None => scan_calls n' value (i + 1) k func_calls
        end
      else Ok (func_calls, k)
  end.

(** [list.sort(key=lambda call: call[3])]: stable, by the end index. *)
Fixpoint insert_call (c : call) (l : list call) : list call :=
  match l with
  | [] => [c]
  | d :: l' =>
      if (call_end c <? call_end d)%nat then c :: d :: l'
      else d :: insert_call c l'
  end.

Definition sort_calls (l : list call) : list call :=
  fold_left (fun acc c => insert_call c acc) l [].

(** [overlap(index)] and [get_overlaps(n, m)]. *)
Definition overlap (func_calls : list call) (index : nat) : bool :=
  existsb (fun c => let '(_, _, l, m) := c in
                    (index <? m)%nat && (l <? index)%nat) func_calls.

Definition get_overlaps (func_calls : list call) (n m : nat) : list call :=
  filter (fun c => (call_end c <? m)%nat && (n <? call_end c)%nat) func_calls.

(** The second loop of [collect_func_calls]. *)
Fixpoint rewrite_calls (value : string) (func_calls : list call)
  (idxs : list nat) : outcome (string * list call) :=
  match idxs with
  | [] => Ok (value, func_calls)
  | i :: idxs' =>
      '(scall, uuid, n, m) <- PyList.index func_calls (Z.of_nat i) ;;
      if negb (overlap func_calls m) then
        let value' := Str.replace_first scall (Str.quoted uuid) value in
        let scall' :=
          fold_left (fun s (o : call) =>
                       let '(ocall, ouuid, _, _) := o in
                       Str.replace_first ocall (Str.quoted ouuid) s)
                    (get_overlaps func_calls n m) scall in
        rewrite_calls value'
          (PyList.set_nth func_calls i (scall', uuid, n, m)) idxs'
      else rewrite_calls value func_calls idxs'
  end.

(** [collect_func_calls(value)], and the number of uuids drawn so far. *)
Definition collect_func_calls (value : string) (k : nat)
  : outcome (string * list call * nat) :=
  '(found, k') <- scan_calls (S (String.length value)) value 0 k [] ;;
  let func_calls := sort_calls found in
  '(value', func_calls') <-
     rewrite_calls value func_calls (PyList.range (List.length func_calls)) ;;
  Ok (value', func_calls', k').

(** [l[0] = x] and [l[-1] = x] on a list that is not empty. *)
Definition set_first (l : list string) (x : string) : list string :=
  match l with [] => [] | _ :: l' => x :: l' end.

Definition set_last (l : list string) (x : string) : list string :=
  rev (set_first (rev l) x).

Definition comma : Re.regex := Re.seq [Re.Star Re.ws; Re.Chr ","; Re.Star Re.ws].

(** The commands of one call in [gen_func_call_commands]. *)
Definition call_commands (c : call) : outcome (list Command) :=
  let '(scall, uuid, _, _) := c in
  heads <- Re.re_split (Re.seq [Re.Star Re.ws; Re.Chr "("]) scall ;;
  fname <- PyList.index heads 0 ;;
  args <- Re.re_split comma scall ;;
  a0 <- PyList.index args 0 ;;
  let args1 := set_first args (Str.join "(" (tl (Str.split_char "(" a0))) in
  an <- PyList.index args1 (-1) ;;
  let args2 := set_last args1 (Str.drop_last an) in
  Ok [ FUNC_CALL fname args2; STORE_FUNC_RET uuid;
       VALUE_RESULT fname args2; SCOPE_DEL true ].

Fixpoint gen_func_call_commands (func_calls : list call)
  : outcome (list Command) :=
  match func_calls with
  | [] => Ok []
  | c :: rest =>
      cs <- call_commands c ;;
      cs' <- gen_func_call_commands rest ;;
      Ok (cs ++ cs')
  end.

(** [obtain_scoped_lines(i, input)]. *)
Fixpoint obtain_scoped_lines_loop (n : nat) (i : Z) (input : list string)
  (scope_count : Z) (lines : list string) : outcome (Z * list string) :=
  match n with
  | O => OutOfFuel
  | S n' =>
      if (0 <? scope_count)%Z then
        let i1 := (i + 1)%Z in
        l <- PyList.index input i1 ;;
        let count :=
          (if Str.endswith l "{" then scope_count + 1
           else if Str.endswith l "}" then scope_count - 1
           else scope_count)%Z in
        obtain_scoped_lines_loop n' i1 input count (lines ++ [l])
      else Ok (i, lines)
  end.

Definition obtain_scoped_lines (i : Z) (input : list string)
  : outcome (Z * list string) :=
  obtain_scoped_lines_loop (S (List.length input)) i input 1 [].

(** The patterns of the statement shapes, in the order of the tests. *)
Definition re_function : Re.regex :=
  Re.seq [Re.typed_name; Re.Chr "("; Re.r_params; Re.Chr ")"; Re.Star Re.ws;
          Re.Chr "{"].

Definition re_return : Re.regex :=
  Re.seq [Re.Lit "return"; Re.Plus Re.ws; Re.Plus Re.r_expr].

Definition re_if : Re.regex :=
  Re.seq [Re.Lit "if"; Re.Plus Re.ws; Re.Plus Re.r_expr; Re.Star Re.ws;
          Re.r_cond; Re.Star Re.ws; Re.Plus Re.r_expr; Re.Star Re.ws;
          Re.Chr "{"].

(** [\s*:?=\s*]. *)
Definition assign_op : Re.regex :=
  Re.seq [Re.Star Re.ws; Re.Opt (Re.Chr ":"); Re.Chr "="; Re.Star Re.ws].

Definition re_declare_assign : Re.regex :=
  Re.seq [Re.typed_name; assign_op; Re.Plus Re.r_expr].

Definition re_declare : Re.regex := Re.typed_name.

Definition re_assign : Re.regex :=
  Re.seq [Re.Plus Re.name; assign_op; Re.Plus Re.r_expr].

(** Whether a line has one of the statement shapes [parse_input] tests
    for, in the order of its tests. *)
Definition recognized (line : string) : bool :=
  let matches (r : Re.regex) :=
    match Re.re_match r line with Some _ => true | None => false end in
  (line =? "{") || (line =? "}") || matches re_function || matches re_return
  || matches re_if || matches re_declare_assign || matches re_declare
  || matches re_assign.

(** [re.split("\s+", re.match(f"{name}+\s+{name}+", smatch).group(0))[1]]. *)
Definition second_word (smatch : string) : outcome string :=
  match Re.re_match Re.typed_name smatch with
  | None => Raise AttributeError
  | Some m =>
      ws <- Re.re_split (Re.Plus Re.ws) m ;;
      PyList.index ws 1
  end.

(** The parameter names of a function header. *)
Definition function_params (smatch : string) : outcome (list string) :=
  found <- Re.re_findall (Re.seq [Re.Chr "("; Re.r_params; Re.Chr ")"]) smatch ;;
  first <- PyList.index found 0 ;;
  let inner := Str.slice first 1 (String.length first - 1) in
  pieces <- Re.re_split comma inner ;;
  (fix names (l : list string) : outcome (list string) :=
     match l with
     | [] => Ok []
     | x :: l' =>
         ws <- Re.re_split (Re.Plus Re.ws) x ;;
         p <- PyList.index ws 1 ;;
         ps <- names l' ;;
         Ok (p :: ps)
     end) pieces.

(** [a, b = l]. *)
Definition unpack2 {A : Type} (l : list A) : outcome (A * A) :=
  match l with
  | [a; b] => Ok (a, b)
  | _ => Raise ValueError
  end.

(** The state of the loop of [parse_input]: the commands and the line
    data so far, and the number of uuids drawn. *)
Definition parsed : Type := (list Command * list line_entry * nat)%type.

(** The loop of [parse_input] from line [i] on.  [n] bounds the lines
    still to read plus the depth of the blocks inside one another. *)
Fixpoint parse_loop (n : nat) (input : list string) (type : bool)
  (calltype : CallTypeEnum) (lineno : Z) (i : Z) (commands : list Command)
  (clines : list line_entry) (k : nat) {struct n} : outcome parsed :=
  match n with
  | O => OutOfFuel
  | S n' =>
      if (i <? PyList.len input)%Z then
        let j := i in
        let ccount := PyList.len commands in
        let parse_input (lines : list string) (base : Z) (k0 : nat) :=
          parse_loop n' lines type calltype base 0 [] [] k0 in
        let next (i' : Z) (commands' : list Command) (k' : nat) :=
          parse_loop n' input type calltype lineno (i' + 1)%Z commands'
            (clines ++ [((PyList.len commands' - 1)%Z,
                         (PyList.len commands' - ccount)%Z,
                         (lineno + j)%Z)]) k' in
        line <- PyList.index input i ;;
        if line =? "{" then next i (commands ++ [SCOPE_NEW]) k
        else if line =? "}" then next i (commands ++ [SCOPE_DEL false]) k
        else match Re.re_match re_function line with
        | Some smatch =>
            fname <- second_word smatch ;;
            fparams <- function_params smatch ;;
            '(i1, func_lines) <- obtain_scoped_lines i input ;;
            '(body, _) <- PyList.pop func_lines ;;
            '(fcommands, flines, k1) <- parse_input body (lineno + j + 1)%Z k ;;
            next i1 (commands ++ [DECLARE_FUNC fname (fcommands, flines) fparams]) k1
        | None =>
        match Re.re_match re_return line with
        | Some smatch =>
            parts <- Re.re_split (Re.seq [Re.Lit "return"; Re.Plus Re.ws]) smatch ;;
            value <- PyList.index (filter (fun s => negb (s =? "")) parts) 0 ;;
            '(value', func_calls, k1) <- collect_func_calls value k ;;
            cs <- gen_func_call_commands func_calls ;;
            next i (commands ++ cs ++ [RETURN value']) k1
        | None =>
        match Re.re_match re_if line with
        | Some smatch =>
            head <- match Re.re_match (Re.seq [Re.Lit "if"; Re.Plus Re.ws]) smatch with
                    | Some h => Ok h
                    | None => Raise AttributeError
                    end ;;
            let submatch :=
              Str.slice smatch (String.length head) (String.length smatch - 1) in
            sides <- Re.re_split (Re.seq [Re.Star Re.ws; Re.r_cond; Re.Star Re.ws])
                       submatch ;;
            '(lhs, rhs) <- unpack2 (map Str.strip sides) ;;
            conds <- Re.re_findall Re.r_cond submatch ;;
            condition <- PyList.index conds 0 ;;
            '(i1, if_lines) <- obtain_scoped_lines i input ;;
            after <- PyList.index input (i1 + 1)%Z ;;
            '(i2, else_lines) <-
               (if Str.startswith after "else"
                then obtain_scoped_lines (i1 + 1)%Z input
                else Ok (i1, [])) ;;
            '(icommands, ilines, k1) <- parse_input if_lines (lineno + j + 1)%Z k ;;
            '(ecommands, elines, k2) <-
               parse_input else_lines
                 (lineno + j + PyList.len if_lines + 2)%Z k1 ;;
            next i2 (commands ++ [CONDITIONAL lhs condition rhs
                                    (icommands, ilines) (ecommands, elines)]) k2
        | None =>
        match Re.re_match re_declare_assign line with
        | Some smatch =>
            vname <- second_word smatch ;;
            sides <- Re.re_split assign_op smatch ;;
            value <- PyList.index sides 1 ;;
            '(value', func_calls, k1) <- collect_func_calls value k ;;
            cs <- gen_func_call_commands func_calls ;;
            next i (commands ++ cs ++ [DECLARE_VAR vname; ASSIGN_VAR vname value']) k1
        | None =>
        match Re.re_match re_declare line with
        | Some smatch =>
            vname <- second_word smatch ;;
            next i (commands ++ [DECLARE_VAR vname]) k
        | None =>
        match Re.re_match re_assign line with
        | Some smatch =>
            sides <- Re.re_split assign_op smatch ;;
            '(vname, value) <- unpack2 sides ;;
            '(value', func_calls, k1) <- collect_func_calls value k ;;
            cs <- gen_func_call_commands func_calls ;;
            next i (commands ++ cs ++ [ASSIGN_VAR vname value']) k1
        | None => next i commands k
        end end end end end end
      else Ok (commands, clines, k)
  end.

(** [parse_input(input, type, calltype, lineno)], with the count of
    uuids drawn before and after. *)
Definition parse_input (input : list string) (type : bool)
  (calltype : CallTypeEnum) (lineno : Z) (k : nat) : outcome parsed :=
  parse_loop (2 * List.length input + 2) input type calltype lineno 0 [] [] k.

End WithUuid.

End Parse.

(* ================================================================== *)
(** * A whole run *)

(** The core as [main] drives it: parse the lines, build the stack of
    the run, execute the commands.  [type] is the value the stack keeps
    as [typing] (scoping is static when it is false) and [calltype] the
    calling convention.  [depth] bounds the calls and conditionals in
    progress at one time. *)
Definition run_program (uuid4 : nat -> string) (depth : nat)
  (lines : list string) (type : bool) (calltype : CallTypeEnum)
  : outcome RuntimeStack.t :=
  '(commands, line_data, _) <- Parse.parse_input uuid4 lines type calltype 0 0 ;;
  Cmd.execute_program depth (RuntimeStack.new type calltype) calltype
    commands line_data.

(** What a name resolves to in the state a run ends in. *)
Definition resolve (run : outcome RuntimeStack.t) (name : string)
  : outcome value :=
  s <- run ;; '(v, _) <- RuntimeStack.get_value s name ;; Ok v.

(** A source of uuids for the runs below: the texts
    [00000000-0000-4000-8000-00000000000k]. *)
Definition sample_uuid4 (k : nat) : string :=
  let d := NilZero.string_of_uint (Nat.to_uint k) in
  "00000000-0000-4000-8000-"
  ++ Str.take (12 - String.length d) "000000000000" ++ d.

Definition static : bool := false.
Definition dynamic : bool := true.

(** The programs of the scenarios. *)
Definition inc_lines : list string :=
  ["int inc(int n) {"; "n = n + 1"; "}"; "int a = 1"; "inc(a)"].

Definition inc_block_lines : list string := "{" :: inc_lines.

Definition inc_initializer_lines : list string :=
  ["{"; "int inc(int n) {"; "n = n + 1"; "}"; "int a = 1"; "int r = inc(a)"].

Definition sum_lines : list string :=
  ["int x = 3"; "int y = 4"; "int z = x + y"].

Definition need_lines : list string :=
  ["{"; "int y = 1"; "int f(int p) {"; "int a = p"; "}"; "int r = f(y)"].

Definition two_calls_lines : list string :=
  ["{"; "int f(int k) {"; "return k"; "}"; "int z = f(1) + f(2)"].

Definition alias_lines : list string :=
  ["{"; "int f(int k) {"; "return v"; "}"; "int v = 5";
   "int g(int p) {"; "return p(0)"; "}"; "int r = g(f)"; "int q = f(0)"].

(** The line [if x COND y {] with an empty body, closed, inside a block
    that is closed after it; and the first command of a parse. *)
Definition if_lines (cond : string) : list string :=
  ["if x " ++ cond ++ " y {"; "}"; "}"].

Definition first_command (p : outcome Parse.parsed) : outcome (option Command) :=
  '(commands, _, _) <- p ;; Ok (hd_error commands).

Definition parse_if (cond : string) : outcome (option Command) :=
  first_command (Parse.parse_input sample_uuid4 (if_lines cond) static CBV 0 0).

Definition empty_branch : command_data := ([SCOPE_DEL false], [(0, 1, 1)]%Z).

(* ================================================================== *)
(** * Notions the statements use *)

(** Whether the scan of one record shows [name]: without [fname] when
    the record has the key, with [fname] when the key comes before the
    key [fname] in insertion order. *)
Fixpoint seen_before (name fname : string) (keys : list string) : bool :=
  match keys with
  | [] => false
  | k :: keys' =>
      if k =? fname then false
      else if k =? name then true
      else seen_before name fname keys'
  end.

Definition visible (r : ActivatationRecord.t) (name : string)
  (fname : option string) : bool :=
  match name_given fname with
  | Some f => seen_before name f (Dict.keys (ActivatationRecord.record r))
  | None => Dict.mem (ActivatationRecord.record r) name
  end.

(** No record at the indices [idxs] shows [name]. *)
Definition none_visible (s : RuntimeStack.t) (name : string)
  (fname : option string) (idxs : list Z) : bool :=
  forallb (fun i => match PyList.index (RuntimeStack.records s) i with
                    | Ok r => negb (visible r name fname)
                    | _ => false
                    end) idxs.

(** Static scoping applies: a call is in progress and [typing] is false. *)
Definition static_active (s : RuntimeStack.t) : bool :=
  RuntimeStack.in_func s && negb (RuntimeStack.typing s).

(** [name] is not found by the scoping discipline in force in [s]: no
    record the two-phase search (static) or the search from the top
    down (dynamic) goes through shows it. *)
Definition unresolved (s : RuntimeStack.t) (name : string) : bool :=
  let top := (PyList.len (RuntimeStack.records s) - 1)%Z in
  if static_active s then
    match PyList.index (RuntimeStack.func_stack s) (-1) with
    | Ok (RuntimeStack.RInt r, sindex, fname) =>
        none_visible s name None (PyList.range_down top (sindex - 1))
        && none_visible s name (Some fname) (PyList.range_down r (-1))
    | _ => false
    end
  else none_visible s name None (PyList.range_down top (-1)).

(** The entries of a dict up to the entry for [fname], that one
    included. *)
Fixpoint upto (fname : string) (d : Dict.t value) : Dict.t value :=
  match d with
  | [] => []
  | (k, v) :: d' => if k =? fname then [(k, v)] else (k, v) :: upto fname d'
  end.

(** A record without the entries inserted after the one for [fname]. *)
Definition forget_after (fname : string) (r : ActivatationRecord.t)
  : ActivatationRecord.t :=
  ActivatationRecord.with_record r (upto fname (ActivatationRecord.record r)).

Fixpoint map_nth {A : Type} (f : A -> A) (l : list A) (n : nat) : list A :=
  match l, n with
  | [], _ => []
  | x :: l', O => f x :: l'
  | x :: l', S n' => x :: map_nth f l' n'
  end.

(** The stack in which the record at index [rindex] has lost the
    entries inserted after the one for [fname]. *)
Definition without_later (rindex : Z) (fname : string) (s : RuntimeStack.t)
  : RuntimeStack.t :=
  RuntimeStack.with_records s
    (map_nth (forget_after fname) (RuntimeStack.records s) (Z.to_nat rindex)).

(** The number of commands a line data runs. *)
Definition commands_run (line_data : list line_entry) : nat :=
  fold_right (fun e acc => let '(_, ccount, _) := e in (Z.to_nat ccount + acc)%nat)
    O line_data.

Definition record_count (s : RuntimeStack.t) : nat :=
  List.length (RuntimeStack.records s).

(** States for the instances below.  [inside_f]: static scoping, a
    block that declares [f] and then [v], and a call of [f] in
    progress.  [shadowed]: outside calls, [x] is 1 in the outer record,
    declared without a value in the one above it, and absent from the
    top record.  [ordered]: one
    record with [x] 1 and [y] 2. *)
Definition sample_f : Function.t :=
  Function.mk "f" ["k"] ([RETURN "v"], [(0, 1, 2)]%Z) 0.

Definition inside_f : RuntimeStack.t :=
  RuntimeStack.mk
    [ ActivatationRecord.mk [("f", VFunc sample_f); ("v", VInt 5)] CBV;
      ActivatationRecord.mk [("k", VInt 0)] CBV ]
    static CBV VNone [(RuntimeStack.RInt 0, 1%Z, "f")] [].

Definition outer_x : ActivatationRecord.t :=
  ActivatationRecord.mk [("x", VInt 1)] CBV.

Definition inner_x : ActivatationRecord.t :=
  ActivatationRecord.mk [("x", VNone)] CBV.

Definition top_w : ActivatationRecord.t :=
  ActivatationRecord.mk [("w", VInt 0)] CBV.

Definition shadowed : RuntimeStack.t :=
  RuntimeStack.mk [outer_x; inner_x; top_w] dynamic CBV VNone [] [].

Definition ordered : RuntimeStack.t :=
  RuntimeStack.mk [ActivatationRecord.mk [("x", VInt 1); ("y", VInt 2)] CBV]
    dynamic CBV VNone [] [].

Definition declare_z : command_data :=
  ([DECLARE_VAR "z"; SCOPE_DEL false], [(0, 1, 1); (1, 1, 2)]%Z).

(** The commands of a statement without a call and without a block: a
    declaration, an assignment, a return, the store of a call result. *)
Definition plain (c : Command) : bool :=
  match c with
  | DECLARE_VAR _ | ASSIGN_VAR _ _ | RETURN _ | STORE_FUNC_RET _
  | DECLARE_FUNC _ _ _ => true
  | _ => false
  end.

Definition need_closed_lines : list string :=
  ["{"; "int y = 1"; "int f(int p) {"; "int a = p"; "y = 10"; "int b = p";
   "return a + b"; "}"; "int r = f(2 + 3)"].

Definition if_without_else_lines : list string :=
  ["{"; "int x = 1"; "int y = 2"; "if x > y {"; "int z"; "}"; "int w = 3"].

Definition if_else_lines : list string :=
  ["{"; "int x = 1"; "int y = 2"; "if x > y {"; "int z"; "}"; "else {";
   "x = 5"; "}"; "int w = 3"].

(** The uuids that the commands store call results under, in order. *)
Definition stored_uuids (commands : list Command) : list string :=
  flat_map (fun c => match c with STORE_FUNC_RET uuid => [uuid] | _ => [] end)
    commands.

Definition call_uuid (c : Parse.call) : string := let '(_, u, _, _) := c in u.

(** The order of the calls by the offset of their end. *)
Definition by_end (a b : Parse.call) : Prop :=
  (Parse.call_end a <= Parse.call_end b)%nat.

(** A call without its text: the uuid, the start and the end. *)
Definition call_place (c : Parse.call) : string * nat * nat :=
  let '(_, u, n, m) := c in (u, n, m).

(** No record of the stack was made under call by need. *)
Definition no_need_record (s : RuntimeStack.t) : bool :=
  forallb (fun r => negb (CallTypeEnum_eqb (ActivatationRecord.calltype r) CBNEED))
    (RuntimeStack.records s).

(** What [assign] stores for a value: the value of its text when it is
    text, the value itself otherwise. *)
Definition assigned (v : value) : outcome value :=
  match v with
  | VStr text => eval_no_stack text
  | _ => Ok v
  end.

Definition sample_stack : RuntimeStack.t :=
  RuntimeStack.mk
    [ ActivatationRecord.mk [("x", VInt 1); ("y", VInt 2)] CBV;
      ActivatationRecord.mk [("x", VInt 7)] CBV ]
    dynamic CBV (VInt 4) [] [("u", VInt 3)].

(** The commands applied one after the other, each to the stack the
    one before left. *)
Fixpoint in_turn (apply : Command -> RuntimeStack.t -> outcome RuntimeStack.t)
  (commands : list Command) (s : RuntimeStack.t) : outcome RuntimeStack.t :=
  match commands with
  | [] => Ok s
  | c :: commands' => s1 <- apply c s ;; in_turn apply commands' s1
  end.


(** The text has no opening parenthesis. *)
Definition no_paren (s : string) : bool :=
  Str.forallb (fun c => negb (Ascii.eqb c "(")) s.


(** A character that can stand in a string literal between double
    quotes as it is: no double quote, no backslash, no newline, no
    carriage return (which ends the line of a source text) and no null
    character (which [eval] refuses anywhere in its text). *)
Definition literal_char (c : ascii) : bool :=
  negb (Ascii.eqb c Str.dquote) && negb (Ascii.eqb c "\")
  && negb (Ascii.eqb c Str.newline)
  && negb (Str.code c =? 13)%nat && negb (Str.code c =? 0)%nat.


(** The record has no value for the name: it does not have the name,
    or holds [None] for it. *)
Definition unset_in (r : ActivatationRecord.t) (name : string) : bool :=
  match Dict.get (ActivatationRecord.record r) name with
  | None | Some VNone => true
  | Some _ => false
  end.

(** A conditional that is true, with a false conditional without an
    else clause in its block. *)
Definition nested_if_lines : list string :=
  ["{"; "int x = 1"; "int y = 2"; "if x < y {"; "if x > y {"; "int z"; "}";
   "int w = 3"; "}"; "int a = 4"].

(* ================================================================== *)
(** * The model against Python: small checks *)

Local Open Scope Z_scope.

Ltac run := vm_compute; reflexivity.

Example split_two_char_condition :
  Re.re_split (Re.seq [Re.Star Re.ws; Re.r_cond; Re.Star Re.ws]) "x >= y "
  = Ok ["x"; ""; "y "].
Proof. run. Qed.

Example translate_vars_sum :
  Cmd.translate_vars "n + 1" = Ok "stack.get_value('n') + 1".
Proof. run. Qed.

Example eval_no_stack_arithmetic :
  eval_no_stack "2 - -3 * 4" = Ok (VInt 14).
Proof. run. Qed.

Example eval_no_stack_name_error :
  eval_no_stack "stack.get_value('y')" = Raise (NameError "stack").
Proof. run. Qed.

Example collect_nested_calls :
  Parse.collect_func_calls (fun k => String (ascii_of_nat (97 + k)) "") "f(g(1)) + 2" 0
  = Ok (Str.quoted "a" ++ " + 2",
        [("g(1)", "b", 2%nat, 6%nat);
         ("f(" ++ Str.quoted "b" ++ ")", "a", 0%nat, 7%nat)],
        2%nat).
Proof. run. Qed.

(* ================================================================== *)
(** * Scenarios *)

(** C1. Under CBVR the program [int inc(int n) { n = n + 1 }],
    [int a = 1], [inc(a)] is claimed to leave [a] at 2, and at 1 under
    CBV.  On the code: run as it stands, the first declaration finds
    no record on the stack (IndexError); inside a block the line
    [inc(a)] has none of the statement shapes and gives no command, so
    [a] resolves to 1 under CBVR as under CBV; and when the call is
    made from an initializer, [value_result] raises TypeError under
    dynamic scoping (it calls [get_value] with one argument too few)
    and AttributeError under static scoping (the function's name is
    not visible from inside its own call). *)
Theorem C1_cbvr_copy_back_fails :
  run_program sample_uuid4 8 inc_lines dynamic CBVR = Raise IndexError
  /\ Parse.recognized "inc(a)" = false
  /\ resolve (run_program sample_uuid4 8 inc_block_lines dynamic CBVR) "a"
     = Ok (VInt 1)
  /\ resolve (run_program sample_uuid4 8 inc_block_lines dynamic CBV) "a"
     = Ok (VInt 1)
  /\ run_program sample_uuid4 8 inc_initializer_lines dynamic CBVR
     = Raise TypeError
  /\ run_program sample_uuid4 8 inc_initializer_lines static CBVR
     = Raise AttributeError
  /\ resolve (run_program sample_uuid4 8 inc_initializer_lines dynamic CBV) "a"
     = Ok (VInt 1).
Proof. repeat split; run. Qed.

(** C3. Under CBNEED a parameter bound to an expression that mentions a
    variable cannot be read at all: the first read evaluates the text
    in the scope of [obtain], where [stack] is no name, and raises
    NameError; the binding keeps the text, and every later read raises
    again. *)
Theorem C3_cbneed_read_raises :
  run_program sample_uuid4 8 need_lines dynamic CBNEED
  = Raise (NameError "stack")
  /\ run_program sample_uuid4 8 need_lines static CBNEED
     = Raise (NameError "stack")
  /\ ActivatationRecord.get_value
       (ActivatationRecord.mk [("p", VStr "stack.get_value('y')")] CBNEED)
       "p" None
     = Raise (NameError "stack").
Proof. repeat split; run. Qed.

(** C4. What the parser makes of [if x COND y {] for the eleven
    spellings of the claim: a conditional for [=], [!=], [<] and [>];
    ValueError for [==], [<=], [=<], [>=] and [=>]; a declaration of
    [x] for [\=]; the condition [=] with the left side [x /] for [/=].
    The table [cond_lookup] of the executor has all eleven. *)
Theorem C4_condition_spellings :
  map parse_if ["="; "!="; "<"; ">"]
  = [Ok (Some (CONDITIONAL "x" "=" "y" empty_branch ([], [])));
     Ok (Some (CONDITIONAL "x" "!=" "y" empty_branch ([], [])));
     Ok (Some (CONDITIONAL "x" "<" "y" empty_branch ([], [])));
     Ok (Some (CONDITIONAL "x" ">" "y" empty_branch ([], [])))]
  /\ map parse_if ["=="; "<="; "=<"; ">="; "=>"]
     = [Raise ValueError; Raise ValueError; Raise ValueError;
        Raise ValueError; Raise ValueError]
  /\ parse_if "\=" = Ok (Some (DECLARE_VAR "x"))
  /\ parse_if "/=" = Ok (Some (CONDITIONAL "x /" "=" "y" empty_branch ([], [])))
  /\ map (Dict.get Cmd.cond_lookup)
       ["="; "=="; "!="; "\="; "/="; "<"; ">"; "<="; "=<"; ">="; "=>"]
     = [Some "=="; Some "=="; Some "!="; Some "!="; Some "!="; Some "<";
        Some ">"; Some "<="; Some "<="; Some ">="; Some ">="].
Proof. repeat split; run. Qed.

(** C8. An expression with two calls side by side reads a call result
    that no command stored: [translate_vars] takes the two quoted
    tokens and the operator between them for one element, and [eval]
    looks up the two uuids joined into one key. *)
Theorem C8_two_calls_read_unstored_key :
  run_program sample_uuid4 8 two_calls_lines dynamic CBV
  = Raise (KeyError (sample_uuid4 0 ++ sample_uuid4 1))
  /\ run_program sample_uuid4 8 two_calls_lines static CBV
     = Raise (KeyError (sample_uuid4 0 ++ sample_uuid4 1))
  /\ Cmd.translate_vars
       (Str.quoted (sample_uuid4 0) ++ " + " ++ Str.quoted (sample_uuid4 1))
     = Ok ("stack.func_ret(" ++ Str.quoted (sample_uuid4 0) ++ " + "
           ++ Str.quoted (sample_uuid4 1) ++ ")").
Proof. repeat split; run. Qed.

(* ================================================================== *)
(** * Lists, indices and records *)

Local Open Scope list_scope.

Lemma with_records_same (s : RuntimeStack.t) :
  RuntimeStack.with_records s (RuntimeStack.records s) = s.
Proof. destruct s; reflexivity. Qed.

Lemma with_record_same (r : ActivatationRecord.t) :
  ActivatationRecord.with_record r (ActivatationRecord.record r) = r.
Proof. destruct r; reflexivity. Qed.

Lemma set_nth_same {A : Type} (l : list A) (n : nat) (x : A) :
  nth_error l n = Some x -> PyList.set_nth l n x = l.
Proof.
  revert n; induction l as [|y l IH]; intros [|n] H; simpl in *;
    try discriminate.
  - now inversion H.
  - now rewrite IH.
Qed.

Lemma set_nth_length {A : Type} (l : list A) (n : nat) (x : A) :
  List.length (PyList.set_nth l n x) = List.length l.
Proof.
  revert n; induction l as [|y l IH]; intros [|n]; simpl; auto.
Qed.

Lemma update_length {A : Type} (l : list A) (i : Z) (x : A) :
  List.length (PyList.update l i x) = List.length l.
Proof.
  unfold PyList.update.
  destruct (_ && _); auto using set_nth_length.
Qed.

Lemma update_same {A : Type} (l : list A) (i : Z) (x : A) :
  PyList.index l i = Ok x -> PyList.update l i x = l.
Proof.
  unfold PyList.index, PyList.update.
  destruct (_ && _); [|discriminate].
  destruct (nth_error l _) eqn:E; [|discriminate].
  intros H; inversion H; subst. now apply set_nth_same.
Qed.

Lemma set_nth_beyond {A : Type} (l : list A) (n : nat) (x : A) :
  (List.length l <= n)%nat -> PyList.set_nth l n x = l.
Proof.
  revert n; induction l as [|y l IH]; intros [|n] H; simpl in *;
    try lia; auto.
  rewrite IH; auto; lia.
Qed.

Lemma index_nonneg {A : Type} (l : list A) (i : Z) :
  0 <= i ->
  PyList.index l i = match nth_error l (Z.to_nat i) with
                     | Some x => Ok x
                     | None => Raise IndexError
                     end.
Proof.
  intros H. unfold PyList.index.
  destruct (Z.ltb_spec i 0); [lia|].
  destruct (Z.leb_spec 0 i); [|lia].
  destruct (Z.ltb_spec i (Z.of_nat (List.length l))); cbn [andb].
  - reflexivity.
  - rewrite (proj2 (nth_error_None l (Z.to_nat i))) by lia. reflexivity.
Qed.

Lemma update_nonneg {A : Type} (l : list A) (i : Z) (x : A) :
  0 <= i -> PyList.update l i x = PyList.set_nth l (Z.to_nat i) x.
Proof.
  intros H. unfold PyList.update.
  destruct (Z.ltb_spec i 0); [lia|].
  destruct (Z.leb_spec 0 i); [|lia].
  destruct (Z.ltb_spec i (Z.of_nat (List.length l))); cbn [andb].
  - reflexivity.
  - symmetry. apply set_nth_beyond. lia.
Qed.

(** [range(a, b, -1)] starts with [a] when [b < a]. *)
Lemma range_down_step (a b : Z) :
  b < a -> PyList.range_down a b = a :: PyList.range_down (a - 1) b.
Proof.
  intros H. unfold PyList.range_down.
  replace (Z.to_nat (a - b)) with (S (Z.to_nat (a - 1 - b))) by lia.
  cbn [seq map]. f_equal; [f_equal; lia|].
  rewrite <- seq_shift, map_map.
  apply map_ext. intros k. lia.
Qed.

Lemma range_down_empty (a b : Z) : a <= b -> PyList.range_down a b = [].
Proof.
  intros H. unfold PyList.range_down.
  now replace (Z.to_nat (a - b)) with O by lia.
Qed.

Lemma range_down_bounds (a b i : Z) :
  In i (PyList.range_down a b) -> b < i <= a.
Proof.
  unfold PyList.range_down. rewrite in_map_iff.
  intros (k & <- & Hk). apply in_seq in Hk. lia.
Qed.

(* ================================================================== *)
(** * A name that no record shows *)

Lemma seen_before_get (r : ActivatationRecord.t) (name f : string)
  (items : Dict.t value) :
  seen_before name f (Dict.keys items) = false ->
  ActivatationRecord.get_before r name f items = Ok (VNone, r).
Proof.
  induction items as [|[k v] items IH]; simpl; intros H; auto.
  destruct (k =? f)%string; auto.
  destruct (k =? name)%string; [discriminate|auto].
Qed.

Lemma seen_before_set (r : ActivatationRecord.t) (name f : string)
  (v : value) (keys : list string) :
  seen_before name f keys = false ->
  ActivatationRecord.set_before r name v f keys = Ok (false, r).
Proof.
  induction keys as [|k keys IH]; simpl; intros H; auto.
  destruct (k =? f)%string; auto.
  destruct (k =? name)%string; [discriminate|auto].
Qed.

Lemma hidden_get (r : ActivatationRecord.t) (name : string)
  (fname : option string) :
  visible r name fname = false ->
  ActivatationRecord.get_value r name fname = Ok (VNone, r).
Proof.
  unfold visible, ActivatationRecord.get_value.
  destruct (name_given fname); intros H.
  - now apply seen_before_get.
  - now rewrite H.
Qed.

Lemma hidden_set (r : ActivatationRecord.t) (name : string) (v : value)
  (fname : option string) :
  visible r name fname = false ->
  ActivatationRecord.set_value r name v fname = Ok (false, r).
Proof.
  unfold visible, ActivatationRecord.set_value.
  destruct (name_given fname); intros H.
  - now apply seen_before_set.
  - now rewrite H.
Qed.

Lemma none_visible_get_loop (name : string) (fname : option string)
  (idxs : list Z) (s : RuntimeStack.t) :
  none_visible s name fname idxs = true ->
  RuntimeStack.get_loop s name fname idxs = Ok (VNone, s).
Proof.
  induction idxs as [|i idxs IH]; simpl; intros H; auto.
  apply andb_prop in H as [Hi H].
  destruct (PyList.index (RuntimeStack.records s) i) as [r| | |] eqn:E;
    try discriminate.
  apply negb_true_iff in Hi. simpl.
  rewrite (hidden_get _ _ _ Hi). simpl.
  rewrite (update_same _ _ _ E), with_records_same. auto.
Qed.

Lemma none_visible_set_loop (name : string) (value : value)
  (evaluate : bool) (fname : option string) (idxs : list Z)
  (s : RuntimeStack.t) :
  (evaluate = true -> exists w, eval_value value = Ok w) ->
  none_visible s name fname idxs = true ->
  RuntimeStack.set_loop s name value evaluate fname idxs = Ok (false, s).
Proof.
  intros Hv.
  induction idxs as [|i idxs IH]; simpl; intros H; auto.
  apply andb_prop in H as [Hi H].
  destruct (PyList.index (RuntimeStack.records s) i) as [r| | |] eqn:E;
    try discriminate.
  apply negb_true_iff in Hi. simpl.
  destruct evaluate.
  - destruct Hv as [w Hw]; auto. rewrite Hw. simpl.
    rewrite (hidden_set _ _ _ _ Hi). simpl. auto.
  - simpl. rewrite (hidden_set _ _ _ _ Hi). simpl. auto.
Qed.

(** X26. For every name that the scoping discipline in force does not
    find, a read returns [None] and leaves the stack as it is, and a
    write returns false and leaves every record as it is.  Under static
    scoping inside a call the write evaluates the text of its value
    for each record it tries, before it looks at the record: the value
    is one that [eval] accepts, as the text of a number is. *)
Theorem unresolved_name_read_write (s : RuntimeStack.t) (name : string)
  (value : value) :
  unresolved s name = true ->
  (static_active s = true -> exists w, eval_value value = Ok w) ->
  RuntimeStack.get_value s name = Ok (VNone, s)
  /\ RuntimeStack.set_value s name value = Ok (false, s).
Proof.
  unfold unresolved, RuntimeStack.get_value, RuntimeStack.set_value,
    static_active.
  intros H Hv.
  destruct (RuntimeStack.in_func s && negb (RuntimeStack.typing s)).
  - destruct (PyList.index (RuntimeStack.func_stack s) (-1))
      as [[[[r|] sindex] fname]| | |]; try discriminate.
    apply andb_prop in H as [H1 H2]. simpl. split.
    + rewrite (none_visible_get_loop _ _ _ _ H1). simpl.
      now apply none_visible_get_loop.
    + rewrite (none_visible_set_loop _ _ _ _ _ _ (fun _ => Hv eq_refl) H1).
      simpl. apply none_visible_set_loop; auto.
  - split.
    + now apply none_visible_get_loop.
    + apply none_visible_set_loop; [discriminate|assumption].
Qed.

(* ================================================================== *)
(** * The records under an unset binding *)

Lemma set_nth_app_left {A : Type} (l tail : list A) (y : A) (n : nat) :
  (n < List.length l)%nat ->
  PyList.set_nth (l ++ tail) n y = PyList.set_nth l n y ++ tail.
Proof.
  revert n; induction l as [|z l IH]; intros [|n] H; simpl in *; try lia; auto.
  rewrite IH; auto; lia.
Qed.

Lemma set_nth_app_middle {A : Type} (l tail : list A) (x y : A) :
  PyList.set_nth (l ++ x :: tail) (List.length l) y = l ++ y :: tail.
Proof. induction l as [|z l IH]; simpl; congruence. Qed.

Lemma len_app {A : Type} (l tail : list A) :
  PyList.len (l ++ tail) = PyList.len l + PyList.len tail.
Proof. unfold PyList.len. rewrite length_app. lia. Qed.

Lemma len_cons {A : Type} (x : A) (l : list A) :
  PyList.len (x :: l) = PyList.len l + 1.
Proof. unfold PyList.len. simpl. lia. Qed.

Lemma len_nonneg {A : Type} (l : list A) : 0 <= PyList.len l.
Proof. unfold PyList.len. lia. Qed.

Lemma len_update {A : Type} (l : list A) (i : Z) (x : A) :
  PyList.len (PyList.update l i x) = PyList.len l.
Proof. unfold PyList.len. now rewrite update_length. Qed.

Lemma index_app_left {A : Type} (l tail : list A) (i : Z) :
  0 <= i < PyList.len l -> PyList.index (l ++ tail) i = PyList.index l i.
Proof.
  intros H. rewrite !index_nonneg by lia.
  rewrite nth_error_app1 by (unfold PyList.len in H; lia). reflexivity.
Qed.

Lemma update_app_left {A : Type} (l tail : list A) (y : A) (i : Z) :
  0 <= i < PyList.len l ->
  PyList.update (l ++ tail) i y = PyList.update l i y ++ tail.
Proof.
  intros H. rewrite !update_nonneg by lia.
  apply set_nth_app_left. unfold PyList.len in H. lia.
Qed.

Lemma index_app_right {A : Type} (l tail : list A) (j : Z) :
  0 <= j ->
  PyList.index (l ++ tail) (PyList.len l + j) = PyList.index tail j.
Proof.
  intros H. pose proof (len_nonneg l) as Hl.
  rewrite !index_nonneg by lia.
  unfold PyList.len in *. rewrite nth_error_app2 by lia.
  now replace (Z.to_nat (Z.of_nat (List.length l) + j) - List.length l)%nat
    with (Z.to_nat j) by lia.
Qed.

Lemma update_app_middle {A : Type} (l tail : list A) (x y : A) :
  PyList.update (l ++ x :: tail) (PyList.len l) y = l ++ y :: tail.
Proof.
  rewrite update_nonneg by apply len_nonneg.
  unfold PyList.len. rewrite Nat2Z.id. apply set_nth_app_middle.
Qed.

(** [range(a, b, -1)] in two parts. *)
Lemma range_down_split (a m b : Z) :
  b <= m <= a ->
  PyList.range_down a b = PyList.range_down a m ++ PyList.range_down m b.
Proof.
  intros H. remember (Z.to_nat (a - m)) as k eqn:Hk.
  revert a H Hk. induction k as [|k IH]; intros a H Hk.
  - assert (a = m) by lia. subst a.
    now rewrite (range_down_empty m m) by lia.
  - rewrite (range_down_step a b), (range_down_step a m) by lia.
    cbn [app]. f_equal. apply IH; lia.
Qed.

(** A loop of [get_value] over indices under the first [len rs] records
    does not look at the records after them. *)
Lemma get_loop_under (s : RuntimeStack.t) (name : string)
  (fname : option string) (tail : list ActivatationRecord.t)
  (idxs : list Z) :
  forall rs : list ActivatationRecord.t,
    (forall i, In i idxs -> 0 <= i < PyList.len rs) ->
    RuntimeStack.get_loop (RuntimeStack.with_records s (rs ++ tail))
      name fname idxs
    = ('(v, s1) <- RuntimeStack.get_loop (RuntimeStack.with_records s rs)
                     name fname idxs ;;
       Ok (v, RuntimeStack.with_records s1 (RuntimeStack.records s1 ++ tail))).
Proof.
  induction idxs as [|i idxs IH]; intros rs Hin.
  - reflexivity.
  - assert (Hi : 0 <= i < PyList.len rs) by (apply Hin; now left).
    cbn [RuntimeStack.get_loop RuntimeStack.records RuntimeStack.with_records].
    rewrite index_app_left by assumption.
    destruct (PyList.index rs i) as [r| | |]; try reflexivity.
    cbn [bind].
    destruct (ActivatationRecord.get_value r name fname) as [[v r']| | |];
      try reflexivity.
    cbn [bind]. rewrite update_app_left by assumption.
    destruct (is_not_None v).
    + reflexivity.
    + apply (IH (PyList.update rs i r')).
      intros j Hj. rewrite len_update. apply Hin. now right.
Qed.

(** The records a loop passes without seeing the name. *)
Lemma get_loop_skip (name : string) (fname : option string)
  (idxs rest : list Z) (s : RuntimeStack.t) :
  none_visible s name fname idxs = true ->
  RuntimeStack.get_loop s name fname (idxs ++ rest)
  = RuntimeStack.get_loop s name fname rest.
Proof.
  induction idxs as [|i idxs IH]; simpl; intros H; auto.
  apply andb_prop in H as [Hi H].
  destruct (PyList.index (RuntimeStack.records s) i) as [r| | |] eqn:E;
    try discriminate.
  apply negb_true_iff in Hi. simpl.
  rewrite (hidden_get _ _ _ Hi). simpl.
  rewrite (update_same _ _ _ E), with_records_same. auto.
Qed.

Lemma set_loop_skip (name : string) (value : value) (fname : option string)
  (idxs rest : list Z) (s : RuntimeStack.t) :
  none_visible s name fname idxs = true ->
  RuntimeStack.set_loop s name value false fname (idxs ++ rest)
  = RuntimeStack.set_loop s name value false fname rest.
Proof.
  induction idxs as [|i idxs IH]; simpl; intros H; auto.
  apply andb_prop in H as [Hi H].
  destruct (PyList.index (RuntimeStack.records s) i) as [r| | |] eqn:E;
    try discriminate.
  apply negb_true_iff in Hi. simpl.
  rewrite (hidden_set _ _ _ _ Hi). simpl. auto.
Qed.

(** The records above the binding do not have the name. *)
Lemma none_visible_above (s : RuntimeStack.t) (name : string)
  (rs above : list ActivatationRecord.t) (inner : ActivatationRecord.t) :
  RuntimeStack.records s = rs ++ inner :: above ->
  Forall (fun r => Dict.mem (ActivatationRecord.record r) name = false) above ->
  none_visible s name None
    (PyList.range_down (PyList.len (RuntimeStack.records s) - 1) (PyList.len rs))
  = true.
Proof.
  intros Hrec Habove. unfold none_visible. apply forallb_forall.
  intros i Hi. apply range_down_bounds in Hi.
  rewrite Hrec in *. rewrite len_app, len_cons in Hi.
  replace i with (PyList.len rs + (i - PyList.len rs)) by lia.
  rewrite index_app_right by lia.
  rewrite index_nonneg by lia.
  replace (Z.to_nat (i - PyList.len rs)) with (S (Z.to_nat (i - PyList.len rs - 1)))
    by lia.
  cbn [nth_error].
  destruct (nth_error above (Z.to_nat (i - PyList.len rs - 1))) as [r|] eqn:E.
  - apply nth_error_In in E. rewrite Forall_forall in Habove.
    unfold visible. cbn [name_given]. now rewrite (Habove r E).
  - apply nth_error_None in E. unfold PyList.len in *. lia.
Qed.

Lemma static_active_with_records (s : RuntimeStack.t)
  (rs : list ActivatationRecord.t) :
  static_active (RuntimeStack.with_records s rs) = static_active s.
Proof. reflexivity. Qed.

(** Outside the static search [get_value] and [set_value] go through
    all records from the top down. *)
Lemma get_value_top_down (s : RuntimeStack.t) (name : string) :
  static_active s = false ->
  RuntimeStack.get_value s name
  = RuntimeStack.get_loop s name None
      (PyList.range_down (PyList.len (RuntimeStack.records s) - 1) (-1)).
Proof.
  unfold static_active, RuntimeStack.get_value. now intros ->.
Qed.

Lemma set_value_top_down (s : RuntimeStack.t) (name : string) (value : value) :
  static_active s = false ->
  RuntimeStack.set_value s name value
  = RuntimeStack.set_loop s name value false None
      (PyList.range_down (PyList.len (RuntimeStack.records s) - 1) (-1)).
Proof.
  unfold static_active, RuntimeStack.set_value. now intros ->.
Qed.

Lemma obtain_unset (r : ActivatationRecord.t) (name : string) :
  Dict.get (ActivatationRecord.record r) name = Some VNone ->
  ActivatationRecord.get_value r name None = Ok (VNone, r).
Proof.
  intros H. unfold ActivatationRecord.get_value, Dict.mem. cbn [name_given].
  rewrite H. unfold ActivatationRecord.obtain. rewrite H.
  cbn [bind value_ne]. now rewrite andb_false_r.
Qed.

Lemma value_ne_same (v : value) : value_ne v v = false.
Proof.
  destruct v as [|z|t|f|b]; simpl; auto.
  - now rewrite Z.eqb_refl.
  - now rewrite String.eqb_refl.
  - now destruct b.
Qed.

(** A value that is no text is read as it is. *)
Lemma read_stored (r : ActivatationRecord.t) (name : string) (w : value) :
  Dict.get (ActivatationRecord.record r) name = Some w ->
  is_str w = false ->
  ActivatationRecord.get_value r name None = Ok (w, r).
Proof.
  intros Hget Hstr. unfold ActivatationRecord.get_value, Dict.mem.
  cbn [name_given]. rewrite Hget. unfold ActivatationRecord.obtain.
  rewrite Hget.
  destruct w; try discriminate Hstr; cbn [bind];
    rewrite value_ne_same, andb_false_r; reflexivity.
Qed.

Lemma unset_get (r : ActivatationRecord.t) (name : string) :
  unset_in r name = true ->
  ActivatationRecord.get_value r name None = Ok (VNone, r).
Proof.
  unfold unset_in. intros H.
  destruct (Dict.get (ActivatationRecord.record r) name) as [v|] eqn:E.
  - destruct v; try discriminate H. now apply obtain_unset.
  - apply hidden_get. unfold visible, Dict.mem. cbn [name_given].
    now rewrite E.
Qed.

(** The records a loop passes without finding a value. *)
Lemma get_loop_unset (name : string) (idxs rest : list Z) (s : RuntimeStack.t) :
  (forall i, In i idxs ->
     exists r, PyList.index (RuntimeStack.records s) i = Ok r
               /\ unset_in r name = true) ->
  RuntimeStack.get_loop s name None (idxs ++ rest)
  = RuntimeStack.get_loop s name None rest.
Proof.
  induction idxs as [|i idxs IH]; intros H; cbn [app]; [reflexivity|].
  cbn [RuntimeStack.get_loop].
  destruct (H i (or_introl eq_refl)) as (r & E & U).
  rewrite E. unfold bind at 1. rewrite (unset_get _ _ U).
  unfold bind at 1. cbn [is_not_None].
  rewrite (update_same _ _ _ E), with_records_same.
  apply IH. intros j Hj. apply H. now right.
Qed.

Lemma unset_records (l : list ActivatationRecord.t) (name : string) (i : Z) :
  Forall (fun r => unset_in r name = true) l ->
  0 <= i < PyList.len l ->
  exists r, PyList.index l i = Ok r /\ unset_in r name = true.
Proof.
  intros Hall Hi. rewrite index_nonneg by lia.
  destruct (nth_error l (Z.to_nat i)) as [r|] eqn:E.
  - exists r. split; [reflexivity|].
    rewrite Forall_forall in Hall. apply Hall. eapply nth_error_In; eauto.
  - apply nth_error_None in E. unfold PyList.len in Hi. lia.
Qed.

(** The search from the top down returns the first value it meets:
    the records above the one that holds it have no value for the
    name. *)
Lemma get_value_first_value (s : RuntimeStack.t)
  (lower upper : list ActivatationRecord.t) (older : ActivatationRecord.t)
  (name : string) (w : value) :
  static_active s = false ->
  RuntimeStack.records s = lower ++ older :: upper ->
  Forall (fun r => unset_in r name = true) upper ->
  Dict.get (ActivatationRecord.record older) name = Some w ->
  is_not_None w = true -> is_str w = false ->
  RuntimeStack.get_value s name = Ok (w, s).
Proof.
  intros Hdyn Hrec Hupper Hget Hnn Hstr.
  pose proof (len_nonneg lower) as Hl. pose proof (len_nonneg upper) as Hu.
  assert (Holder : PyList.index (RuntimeStack.records s) (PyList.len lower)
                   = Ok older).
  { rewrite Hrec. replace (PyList.len lower) with (PyList.len lower + 0) by lia.
    now rewrite index_app_right by lia. }
  rewrite get_value_top_down by assumption.
  rewrite (range_down_split (PyList.len (RuntimeStack.records s) - 1)
             (PyList.len lower) (-1))
    by (rewrite Hrec, len_app, len_cons; lia).
  rewrite get_loop_unset.
  - rewrite (range_down_step (PyList.len lower) (-1)) by lia.
    cbn [RuntimeStack.get_loop]. rewrite Holder. unfold bind at 1.
    rewrite (read_stored _ _ _ Hget Hstr). unfold bind at 1. rewrite Hnn.
    now rewrite (update_same _ _ _ Holder), with_records_same.
  - intros i Hi. apply range_down_bounds in Hi.
    rewrite Hrec in *. rewrite len_app, len_cons in Hi.
    replace i with (PyList.len lower + (i - PyList.len lower)) by lia.
    rewrite index_app_right by lia.
    destruct (unset_records upper name (i - PyList.len lower - 1) Hupper)
      as (r & E & U); [lia|].
    exists r. split; [|exact U].
    rewrite index_nonneg in * by lia.
    replace (Z.to_nat (i - PyList.len lower))
      with (S (Z.to_nat (i - PyList.len lower - 1))) by lia.
    exact E.
Qed.

Lemma get_value_all_unset (s : RuntimeStack.t) (name : string) :
  static_active s = false ->
  Forall (fun r => unset_in r name = true) (RuntimeStack.records s) ->
  RuntimeStack.get_value s name = Ok (VNone, s).
Proof.
  intros Hdyn Hall. rewrite get_value_top_down by assumption.
  rewrite <- (app_nil_r (PyList.range_down _ _)).
  rewrite get_loop_unset; [reflexivity|].
  intros i Hi. apply range_down_bounds in Hi.
  apply unset_records; [assumption|lia].
Qed.

(** C9. A binding that is declared and not yet assigned does not hide
    older bindings from a read.  Let [inner] be the innermost record
    that has the name (no record above it has it) and let it hold
    [None] for the name.  The read gives what the read of the stack made
    of the older records alone gives: the value of the nearest older
    record that holds one for the name ([older], whose value is not a
    text waiting to be evaluated, with the records between it and
    [inner] holding none), and [None] when no older record holds a
    value; the stack is as before.  The write stores in
    [inner].  This is the search from the top down, which [get_value]
    and [set_value] do under dynamic scoping and outside calls. *)
Theorem C9_unset_binding_read_write (s : RuntimeStack.t)
  (rs above : list ActivatationRecord.t) (inner : ActivatationRecord.t)
  (name : string) (value w : value) :
  static_active s = false ->
  RuntimeStack.records s = rs ++ inner :: above ->
  Forall (fun r => Dict.mem (ActivatationRecord.record r) name = false) above ->
  Dict.get (ActivatationRecord.record inner) name = Some VNone ->
  match value with VStr text => eval_no_stack text | _ => Ok value end = Ok w ->
  RuntimeStack.get_value s name
  = ('(v, s1) <- RuntimeStack.get_value (RuntimeStack.with_records s rs) name ;;
     Ok (v, RuntimeStack.with_records s1
              (RuntimeStack.records s1 ++ inner :: above)))
  /\ RuntimeStack.set_value s name value
     = Ok (true,
           RuntimeStack.with_records s
             (rs ++ ActivatationRecord.with_record inner
                      (Dict.set (ActivatationRecord.record inner) name w)
                 :: above))
  /\ (forall lower mid older found,
        rs = lower ++ older :: mid ->
        Forall (fun r => unset_in r name = true) mid ->
        Dict.get (ActivatationRecord.record older) name = Some found ->
        is_not_None found = true -> is_str found = false ->
        RuntimeStack.get_value s name = Ok (found, s))
  /\ (Forall (fun r => unset_in r name = true) rs ->
      RuntimeStack.get_value s name = Ok (VNone, s)).
Proof.
  intros Hdyn Hrec Habove Hget Hw.
  assert (Hupper : Forall (fun r => unset_in r name = true) (inner :: above)).
  { constructor.
    - unfold unset_in. now rewrite Hget.
    - eapply Forall_impl; [|exact Habove].
      intros r Hr. unfold unset_in. unfold Dict.mem in Hr.
      now destruct (Dict.get (ActivatationRecord.record r) name). }
  assert (Hfound : forall lower mid older found,
             rs = lower ++ older :: mid ->
             Forall (fun r => unset_in r name = true) mid ->
             Dict.get (ActivatationRecord.record older) name = Some found ->
             is_not_None found = true -> is_str found = false ->
             RuntimeStack.get_value s name = Ok (found, s)).
  { intros lower mid older found Hlow Hmid Hold Hnn Hstr.
    apply (get_value_first_value s lower (mid ++ inner :: above) older);
      try assumption.
    - rewrite Hrec, Hlow, <- app_assoc. reflexivity.
    - apply Forall_app. split; assumption. }
  assert (Hnone : Forall (fun r => unset_in r name = true) rs ->
                  RuntimeStack.get_value s name = Ok (VNone, s)).
  { intros Hall. apply get_value_all_unset; [assumption|].
    rewrite Hrec. apply Forall_app. split; assumption. }
  enough (Hrw : RuntimeStack.get_value s name
                = ('(v, s1) <- RuntimeStack.get_value
                                 (RuntimeStack.with_records s rs) name ;;
                   Ok (v, RuntimeStack.with_records s1
                            (RuntimeStack.records s1 ++ inner :: above)))
                /\ RuntimeStack.set_value s name value
                   = Ok (true,
                         RuntimeStack.with_records s
                           (rs ++ ActivatationRecord.with_record inner
                                    (Dict.set (ActivatationRecord.record inner)
                                       name w)
                               :: above)))
    by (destruct Hrw; repeat split; assumption).
  clear Hfound Hnone.
  assert (Hs : s = RuntimeStack.with_records s (rs ++ inner :: above)).
  { rewrite <- Hrec. symmetry. apply with_records_same. }
  pose proof (none_visible_above s name rs above inner Hrec Habove) as Hskip.
  pose proof (len_nonneg rs) as Hrs. pose proof (len_nonneg above) as Hab.
  assert (Hinner : PyList.index (RuntimeStack.records s) (PyList.len rs)
                   = Ok inner).
  { rewrite Hrec. replace (PyList.len rs) with (PyList.len rs + 0) by lia.
    now rewrite index_app_right by lia. }
  rewrite get_value_top_down, set_value_top_down by assumption.
  rewrite (get_value_top_down (RuntimeStack.with_records s rs))
    by (now rewrite static_active_with_records).
  cbn [RuntimeStack.records RuntimeStack.with_records].
  rewrite (range_down_split (PyList.len (RuntimeStack.records s) - 1)
             (PyList.len rs) (-1))
    by (rewrite Hrec, len_app, len_cons; lia).
  rewrite (range_down_step (PyList.len rs) (-1)) by lia.
  rewrite (get_loop_skip _ _ _ _ _ Hskip), (set_loop_skip _ _ _ _ _ _ Hskip).
  split.
  - cbn [RuntimeStack.get_loop]. rewrite Hinner.
    unfold bind at 1. rewrite (obtain_unset _ _ Hget).
    unfold bind at 1. cbn [is_not_None].
    rewrite (update_same _ _ inner Hinner), with_records_same.
    rewrite Hs at 1. apply get_loop_under.
    intros i Hi. apply range_down_bounds in Hi. lia.
  - cbn [RuntimeStack.set_loop]. rewrite Hinner.
    unfold bind at 1. unfold bind at 1.
    unfold ActivatationRecord.set_value, Dict.mem. cbn [name_given].
    rewrite Hget. unfold ActivatationRecord.assign. rewrite Hw.
    unfold bind. now rewrite Hrec, update_app_middle.
Qed.

(* ================================================================== *)
(** * Static scoping: the entries after the function's own *)

Lemma with_records_twice (s : RuntimeStack.t)
  (a b : list ActivatationRecord.t) :
  RuntimeStack.with_records (RuntimeStack.with_records s a) b
  = RuntimeStack.with_records s b.
Proof. reflexivity. Qed.

Lemma nth_error_map_nth_other {A : Type} (f : A -> A) (l : list A)
  (n m : nat) :
  m <> n -> nth_error (map_nth f l n) m = nth_error l m.
Proof.
  revert n m; induction l as [|x l IH]; intros [|n] [|m] H; simpl;
    try congruence; auto.
Qed.

Lemma nth_error_map_nth_same {A : Type} (f : A -> A) (l : list A) (n : nat) :
  nth_error (map_nth f l n) n = option_map f (nth_error l n).
Proof.
  revert n; induction l as [|x l IH]; intros [|n]; simpl; auto.
Qed.

Lemma set_nth_map_nth_other {A : Type} (f : A -> A) (l : list A)
  (n m : nat) (x : A) :
  m <> n ->
  PyList.set_nth (map_nth f l n) m x = map_nth f (PyList.set_nth l m x) n.
Proof.
  revert n m; induction l as [|y l IH]; intros [|n] [|m] H; simpl;
    try congruence; auto.
  rewrite IH; auto.
Qed.

Lemma set_nth_map_nth_same {A : Type} (f : A -> A) (l : list A)
  (n : nat) (x : A) :
  PyList.set_nth (map_nth f l n) n (f x) = map_nth f (PyList.set_nth l n x) n.
Proof.
  revert n; induction l as [|y l IH]; intros [|n]; simpl; auto.
  now rewrite IH.
Qed.

Lemma records_without_later (rindex : Z) (fname : string) (s : RuntimeStack.t) :
  RuntimeStack.records (without_later rindex fname s)
  = map_nth (forget_after fname) (RuntimeStack.records s) (Z.to_nat rindex).
Proof. reflexivity. Qed.

Lemma with_records_without_later (rindex : Z) (fname : string)
  (s : RuntimeStack.t) (rs : list ActivatationRecord.t) :
  RuntimeStack.with_records (without_later rindex fname s) rs
  = RuntimeStack.with_records s rs.
Proof. reflexivity. Qed.

Lemma without_later_with_records (rindex : Z) (fname : string)
  (s : RuntimeStack.t) (rs : list ActivatationRecord.t) :
  without_later rindex fname (RuntimeStack.with_records s rs)
  = RuntimeStack.with_records s
      (map_nth (forget_after fname) rs (Z.to_nat rindex)).
Proof. reflexivity. Qed.

Section LaterEntries.
Variables (name fname : string) (rindex : Z).
Hypothesis rindex_nonneg : 0 <= rindex.

(** A loop over records other than the one at [rindex] does the same
    with and without the later entries of that record. *)
Lemma get_loop_other_records (fn : option string) (idxs : list Z) :
  forall s : RuntimeStack.t,
    (forall i, In i idxs -> 0 <= i /\ i <> rindex) ->
    RuntimeStack.get_loop (without_later rindex fname s) name fn idxs
    = ('(v, s1) <- RuntimeStack.get_loop s name fn idxs ;;
       Ok (v, without_later rindex fname s1)).
Proof.
  induction idxs as [|i idxs IH]; intros s Hin.
  - reflexivity.
  - destruct (Hin i (or_introl eq_refl)) as [Hi Hne].
    assert (Hnat : Z.to_nat i <> Z.to_nat rindex) by lia.
    cbn [RuntimeStack.get_loop].
    rewrite records_without_later.
    rewrite !index_nonneg by assumption.
    rewrite nth_error_map_nth_other by assumption.
    destruct (nth_error (RuntimeStack.records s) (Z.to_nat i)) as [r|];
      [|reflexivity].
    cbn [bind].
    destruct (ActivatationRecord.get_value r name fn) as [[v r']| | |];
      try reflexivity.
    cbn [bind]. rewrite !update_nonneg by assumption.
    rewrite with_records_without_later.
    rewrite set_nth_map_nth_other by assumption.
    rewrite <- without_later_with_records.
    destruct (is_not_None v).
    + reflexivity.
    + apply (IH (RuntimeStack.with_records s
                   (PyList.set_nth (RuntimeStack.records s) (Z.to_nat i) r'))).
      intros j Hj. apply Hin. now right.
Qed.

Lemma get_before_seen (r : ActivatationRecord.t) (items : Dict.t value) :
  ActivatationRecord.get_before r name fname items
  = if seen_before name fname (Dict.keys items)
    then ActivatationRecord.obtain r name
    else Ok (VNone, r).
Proof.
  induction items as [|[k v] items IH]; simpl; auto.
  destruct (k =? fname)%string; auto.
  destruct (k =? name)%string; auto.
Qed.

Lemma seen_before_upto (d : Dict.t value) :
  seen_before name fname (Dict.keys (upto fname d))
  = seen_before name fname (Dict.keys d).
Proof.
  induction d as [|[k v] d IH]; simpl; auto.
  destruct (k =? fname)%string eqn:E; simpl; rewrite E; auto.
  destruct (k =? name)%string; auto.
Qed.

Lemma get_upto (d : Dict.t value) :
  seen_before name fname (Dict.keys d) = true ->
  Dict.get (upto fname d) name = Dict.get d name.
Proof.
  induction d as [|[k v] d IH]; simpl; auto.
  destruct (k =? fname)%string; [discriminate|].
  simpl. destruct (k =? name)%string; auto.
Qed.

Lemma set_upto (d : Dict.t value) (v : value) :
  seen_before name fname (Dict.keys d) = true ->
  Dict.set (upto fname d) name v = upto fname (Dict.set d name v).
Proof.
  induction d as [|[k x] d IH]; simpl; [discriminate|].
  destruct (k =? fname)%string eqn:E; [discriminate|].
  simpl. destruct (k =? name)%string; simpl; rewrite E; auto.
  intros H. now rewrite IH.
Qed.

Lemma obtain_forget_after (r : ActivatationRecord.t) :
  seen_before name fname (Dict.keys (ActivatationRecord.record r)) = true ->
  ActivatationRecord.obtain (forget_after fname r) name
  = ('(v, r1) <- ActivatationRecord.obtain r name ;;
     Ok (v, forget_after fname r1)).
Proof.
  intros H. unfold ActivatationRecord.obtain, forget_after.
  cbn [ActivatationRecord.record ActivatationRecord.with_record
       ActivatationRecord.calltype].
  rewrite (get_upto _ H).
  destruct (Dict.get (ActivatationRecord.record r) name) as [stored|];
    [|reflexivity].
  destruct (match stored with VStr text => eval_no_stack text | _ => Ok stored end)
    as [val| | |]; try reflexivity.
  cbn [bind].
  destruct (CallTypeEnum_eqb (ActivatationRecord.calltype r) CBNEED
            && value_ne val stored).
  - cbn [bind ActivatationRecord.record ActivatationRecord.with_record
         ActivatationRecord.calltype].
    now rewrite (set_upto _ _ H).
  - reflexivity.
Qed.

(** The scan of one record that stops at the entry for [fname]. *)
Lemma get_value_forget_after (r : ActivatationRecord.t) :
  fname <> "" ->
  ActivatationRecord.get_value (forget_after fname r) name (Some fname)
  = ('(v, r1) <- ActivatationRecord.get_value r name (Some fname) ;;
     Ok (v, forget_after fname r1)).
Proof.
  intros Hf. unfold ActivatationRecord.get_value. cbn [name_given].
  apply String.eqb_neq in Hf. rewrite Hf.
  rewrite !get_before_seen.
  cbn [forget_after ActivatationRecord.record ActivatationRecord.with_record].
  rewrite seen_before_upto.
  destruct (seen_before name fname (Dict.keys (ActivatationRecord.record r)))
    eqn:E.
  - now apply obtain_forget_after.
  - reflexivity.
Qed.

End LaterEntries.

Lemma map_nth_length {A : Type} (f : A -> A) (l : list A) (n : nat) :
  List.length (map_nth f l n) = List.length l.
Proof.
  revert n; induction l as [|x l IH]; intros [|n]; simpl; auto.
Qed.

(** The second phase of the static search: the record at [rindex] is
    scanned up to the entry for [fname], the records under it are
    scanned likewise. *)
Lemma get_loop_declaration_chain (name fname : string) (rindex : Z)
  (s : RuntimeStack.t) :
  0 <= rindex -> fname <> "" ->
  RuntimeStack.get_loop (without_later rindex fname s) name (Some fname)
    (PyList.range_down rindex (-1))
  = ('(v, s1) <- RuntimeStack.get_loop s name (Some fname)
                   (PyList.range_down rindex (-1)) ;;
     Ok (v, without_later rindex fname s1)).
Proof.
  intros Hr Hf.
  rewrite range_down_step by lia.
  cbn [RuntimeStack.get_loop].
  rewrite records_without_later, !index_nonneg by assumption.
  rewrite nth_error_map_nth_same.
  destruct (nth_error (RuntimeStack.records s) (Z.to_nat rindex)) as [r|];
    [|reflexivity].
  cbn [option_map bind].
  rewrite get_value_forget_after by assumption.
  destruct (ActivatationRecord.get_value r name (Some fname))
    as [[v r1]| | |]; try reflexivity.
  cbn [bind]. rewrite !update_nonneg by assumption.
  rewrite with_records_without_later.
  rewrite set_nth_map_nth_same, <- without_later_with_records.
  destruct (is_not_None v).
  - reflexivity.
  - apply get_loop_other_records; [assumption|].
    intros i Hi. apply range_down_bounds in Hi. lia.
Qed.

(** X25. Under static scoping, inside a call whose entry on the call
    stack holds the name [fname] and whose record of declaration lies
    under the records of the call, a read does not resolve to any
    entry that the record of declaration holds after its entry for
    [fname]: the read gives the value it gives on the stack where
    those entries are absent, whether or not they are bound by the
    time of the call. *)
Theorem static_read_ignores_later_entries (s : RuntimeStack.t)
  (name fname : string) (rindex sindex : Z) :
  RuntimeStack.typing s = false ->
  PyList.index (RuntimeStack.func_stack s) (-1)
  = Ok (RuntimeStack.RInt rindex, sindex, fname) ->
  fname <> "" ->
  0 <= rindex < sindex ->
  RuntimeStack.get_value (without_later rindex fname s) name
  = ('(v, s1) <- RuntimeStack.get_value s name ;;
     Ok (v, without_later rindex fname s1)).
Proof.
  intros Hty Hfs Hf Hri.
  unfold RuntimeStack.get_value.
  rewrite records_without_later.
  change (RuntimeStack.in_func (without_later rindex fname s))
    with (RuntimeStack.in_func s).
  change (RuntimeStack.typing (without_later rindex fname s))
    with (RuntimeStack.typing s).
  change (RuntimeStack.func_stack (without_later rindex fname s))
    with (RuntimeStack.func_stack s).
  assert (Hin : RuntimeStack.in_func s = true).
  { unfold RuntimeStack.in_func.
    destruct (RuntimeStack.func_stack s); [discriminate Hfs|reflexivity]. }
  rewrite Hin, Hty, Hfs. cbn [andb negb bind].
  unfold PyList.len. rewrite map_nth_length.
  rewrite get_loop_other_records.
  - destruct (RuntimeStack.get_loop s name None _) as [[v s1]| | |];
      try reflexivity.
    cbn [bind]. destruct (is_not_None v); [reflexivity|].
    now apply get_loop_declaration_chain.
  - lia.
  - intros i Hi. apply range_down_bounds in Hi. lia.
Qed.

(* ================================================================== *)
(** * Lines without a statement shape *)

Lemma recognized_false (line : string) :
  Parse.recognized line = false ->
  (line =? "{")%string = false /\ (line =? "}")%string = false
  /\ Re.re_match Parse.re_function line = None
  /\ Re.re_match Parse.re_return line = None
  /\ Re.re_match Parse.re_if line = None
  /\ Re.re_match Parse.re_declare_assign line = None
  /\ Re.re_match Parse.re_declare line = None
  /\ Re.re_match Parse.re_assign line = None.
Proof.
  unfold Parse.recognized. intros H.
  repeat (apply orb_false_elim in H as [H ?]).
  repeat match goal with
         | H : match ?m with Some _ => true | None => false end = false |- _ =>
             destruct m eqn:?; [discriminate H|clear H]
         end.
  auto 12.
Qed.

(** C5, as the code has it.  A line that the loop of [parse_input]
    stands at and that has none of the statement shapes is skipped
    without a report: the loop adds no command for it, records a line
    entry with the count 0, and goes on with the next line; a program
    of that one line parses to no command at all.  (A line taken into
    a block, or as the head of an else block, by
    [obtain_scoped_lines] is not one the loop stands at.) *)
Theorem C5_unrecognized_line_is_skipped (uuid4 : nat -> string) (n : nat)
  (input : list string) (type : bool) (calltype : CallTypeEnum)
  (lineno i : Z) (commands : list Command) (clines : list line_entry)
  (k : nat) (line : string) :
  0 <= i ->
  PyList.index input i = Ok line ->
  Parse.recognized line = false ->
  Parse.parse_loop uuid4 (S n) input type calltype lineno i commands clines k
  = Parse.parse_loop uuid4 n input type calltype lineno (i + 1) commands
      (clines ++ [(PyList.len commands - 1, 0, lineno + i)]) k
  /\ Parse.parse_input uuid4 [line] type calltype lineno k
     = Ok ([], [(-1, 0, lineno)], k).
Proof.
  intros Hi Hline Hno.
  destruct (recognized_false _ Hno)
    as (H1 & H2 & H3 & H4 & H5 & H6 & H7 & H8).
  assert (Hstep : forall m inp j cs cl,
             0 <= j -> PyList.index inp j = Ok line ->
             Parse.parse_loop uuid4 (S m) inp type calltype lineno j cs cl k
             = Parse.parse_loop uuid4 m inp type calltype lineno (j + 1) cs
                 (cl ++ [(PyList.len cs - 1, 0, lineno + j)]) k).
  { intros m inp j cs cl Hj Hidx.
    cbn [Parse.parse_loop].
    assert (Hlt : (j <? PyList.len inp) = true).
    { apply Z.ltb_lt. rewrite index_nonneg in Hidx by assumption.
      destruct (nth_error inp (Z.to_nat j)) eqn:E; [|discriminate].
      assert (Z.to_nat j < List.length inp)%nat
        by (apply nth_error_Some; congruence).
      unfold PyList.len. lia. }
    rewrite Hlt, Hidx. cbn [bind].
    rewrite H1, H2, H3, H4, H5, H6, H7, H8, Z.sub_diag. reflexivity. }
  split.
  - now apply Hstep.
  - unfold Parse.parse_input. cbn [List.length Nat.mul Nat.add].
    rewrite Hstep by (try lia; reflexivity).
    cbn. now rewrite Z.add_0_r.
Qed.

(* ================================================================== *)
(** * Reads keep the number of records *)

(** Induction on expressions, with the arguments of a call. *)
Lemma expr_nested_ind (P : PyEval.expr -> Prop) :
  (forall z, P (PyEval.ENum z)) ->
  (forall s, P (PyEval.EStr s)) ->
  (forall x, P (PyEval.EName x)) ->
  (forall e a, P e -> P (PyEval.EAttr e a)) ->
  (forall f args, P f -> Forall P args -> P (PyEval.ECall f args)) ->
  (forall e, P e -> P (PyEval.ENeg e)) ->
  (forall e, P e -> P (PyEval.EPos e)) ->
  (forall op a b, P a -> P b -> P (PyEval.EBin op a b)) ->
  (forall op a b, P a -> P b -> P (PyEval.ECmp op a b)) ->
  forall e, P e.
Proof.
  intros HNum HStr HName HAttr HCall HNeg HPos HBin HCmp.
  fix IH 1. intros [z|s|x|e a|f args|e|e|op a b|op a b].
  - apply HNum.
  - apply HStr.
  - apply HName.
  - apply HAttr, IH.
  - apply HCall; [apply IH|].
    revert args. fix IHargs 1. intros [|a args].
    + constructor.
    + constructor; [apply IH|apply IHargs].
  - apply HNeg, IH.
  - apply HPos, IH.
  - apply HBin; apply IH.
  - apply HCmp; apply IH.
Qed.

(** Take the steps of a computation that ended in [Ok] apart. *)
Ltac ok_steps :=
  repeat match goal with
         | H : Ok _ = Ok _ |- _ => inversion H; subst; clear H
         | H : bind ?m _ = Ok _ |- _ =>
             let E := fresh "E" in
             destruct m as [?| | |] eqn:E; cbn [bind] in H; try discriminate H
         | H : (let (_, _) := ?p in _) = Ok _ |- _ => destruct p
         | H : (if ?b then _ else _) = Ok _ |- _ =>
             let E := fresh "E" in destruct b eqn:E; try discriminate H
         | H : Raise _ = Ok _ |- _ => discriminate H
         | H : Unsupported = Ok _ |- _ => discriminate H
         | H : OutOfFuel = Ok _ |- _ => discriminate H
         end.

Lemma get_loop_count (name : string) (fname : option string) (idxs : list Z) :
  forall s v s',
    RuntimeStack.get_loop s name fname idxs = Ok (v, s') ->
    record_count s' = record_count s.
Proof.
  induction idxs as [|i idxs IH]; intros s v s' H; cbn [RuntimeStack.get_loop] in H.
  - now inversion H.
  - ok_steps.
    + unfold record_count. cbn. apply update_length.
    + apply IH in H. rewrite H. unfold record_count. cbn. apply update_length.
Qed.

Lemma get_value_count (s : RuntimeStack.t) (name : string) (v : value)
  (s' : RuntimeStack.t) :
  RuntimeStack.get_value s name = Ok (v, s') ->
  record_count s' = record_count s.
Proof.
  unfold RuntimeStack.get_value. intros H.
  destruct (RuntimeStack.in_func s && negb (RuntimeStack.typing s)).
  - ok_steps.
    + eauto using get_loop_count.
    + destruct f; [|discriminate].
      apply get_loop_count in H. apply get_loop_count in E0. congruence.
  - eauto using get_loop_count.
Qed.

Lemma eval_list_count (args : list PyEval.expr) :
  Forall (fun e => forall s v s',
              eval_expr Cmd.stack_scope e s = Ok (v, s') ->
              record_count s' = record_count s) args ->
  forall s vs s',
    eval_list (eval_expr Cmd.stack_scope) args s = Ok (vs, s') ->
    record_count s' = record_count s.
Proof.
  induction 1 as [|a args Ha _ IH]; intros s vs s' H; cbn [eval_list] in H.
  - now inversion H.
  - ok_steps. apply Ha in E. apply IH in E0. congruence.
Qed.

Lemma eval_expr_count (e : PyEval.expr) :
  forall s v s',
    eval_expr Cmd.stack_scope e s = Ok (v, s') ->
    record_count s' = record_count s.
Proof.
  induction e as [z|t|x|e a IH|f args IHf IHargs|e IH|e IH|op a b IHa IHb
                 |op a b IHa IHb] using expr_nested_ind;
    intros s v s' H; cbn [eval_expr] in H.
  - now inversion H.
  - now inversion H.
  - unfold Cmd.stack_scope in H. ok_steps; reflexivity.
  - ok_steps.
  - assert (Hgen : bind (eval_expr Cmd.stack_scope f s)
                     (fun p => let (_, s1) := p in
                        bind (eval_list (eval_expr Cmd.stack_scope) args s1)
                          (fun q => let (_, _) := q in Raise TypeError))
                   = Ok (v, s') -> record_count s' = record_count s)
      by (intros H'; ok_steps).
    destruct f as [| | |e' m| | | | |]; try (apply Hgen; exact H).
    destruct e' as [| |x| | | | | |]; try (apply Hgen; exact H).
    unfold Cmd.stack_scope in H. cbn [PyScope.get_value PyScope.func_ret] in H.
    ok_steps.
    destruct l as [|[| |a| |] [|? ?]]; try discriminate H.
    apply (eval_list_count _ IHargs) in E1.
    ok_steps.
    + apply get_value_count in H. congruence.
    + assumption.
  - ok_steps. eauto.
  - ok_steps. eauto.
  - ok_steps. apply IHa in E. apply IHb in E0. congruence.
  - ok_steps. apply IHa in E. apply IHb in E0. congruence.
Qed.

Lemma eval_count (text : string) (s : RuntimeStack.t) (v : value)
  (s' : RuntimeStack.t) :
  Cmd.eval text s = Ok (v, s') -> record_count s' = record_count s.
Proof.
  unfold Cmd.eval, py_eval. intros H. ok_steps.
  eauto using eval_expr_count.
Qed.

Lemma condition_count (s : RuntimeStack.t) (lhs cond rhs : string)
  (v : value) (s' : RuntimeStack.t) :
  Cmd.condition s lhs cond rhs = Ok (v, s') ->
  record_count s' = record_count s.
Proof.
  unfold Cmd.condition. intros H. ok_steps.
  eauto using eval_count.
Qed.

(* ================================================================== *)
(** * The loops of [execute_program] *)

Section RunLines.
Variable apply : Command -> RuntimeStack.t -> outcome RuntimeStack.t.

Lemma run_commands_index (commands : list Command) (count : nat) :
  forall i s i' s',
    Cmd.run_commands apply commands count i s = Ok (i', s') ->
    i' = (i + count)%nat.
Proof.
  induction count as [|count IH]; intros i s i' s' H; cbn [Cmd.run_commands] in H.
  - inversion H. lia.
  - ok_steps. apply IH in H. lia.
Qed.

(** Commands after the ones a loop runs do not matter to it. *)
Lemma run_commands_prefix (body extra : list Command) (count : nat) :
  forall i s,
    (i + count <= List.length body)%nat ->
    Cmd.run_commands apply (body ++ extra) count i s
    = Cmd.run_commands apply body count i s.
Proof.
  induction count as [|count IH]; intros i s Hle; cbn [Cmd.run_commands].
  - reflexivity.
  - rewrite !index_nonneg by lia.
    rewrite Nat2Z.id, nth_error_app1 by lia.
    destruct (nth_error body i); [|reflexivity].
    cbn [bind]. destruct (apply c s); try reflexivity.
    cbn [bind]. apply IH. lia.
Qed.

Lemma run_lines_prefix (body extra : list Command) (line_data : list line_entry) :
  forall i s,
    (i + commands_run line_data <= List.length body)%nat ->
    Cmd.run_lines apply (body ++ extra) line_data i s
    = Cmd.run_lines apply body line_data i s.
Proof.
  induction line_data as [|[[cline ccount] lineno] line_data IH];
    intros i s Hle; cbn [Cmd.run_lines commands_run fold_right] in *.
  - reflexivity.
  - fold (commands_run line_data) in Hle.
    rewrite run_commands_prefix by lia.
    destruct (Cmd.run_commands apply body (Z.to_nat ccount) i s)
      as [[i' s1]| | |] eqn:E; try reflexivity.
    cbn [bind]. apply run_commands_index in E. apply IH. lia.
Qed.

(** The lines run one after the other. *)
Lemma run_lines_app (commands : list Command) (ld1 ld2 : list line_entry) :
  forall i s,
    Cmd.run_lines apply commands (ld1 ++ ld2) i s
    = (s1 <- Cmd.run_lines apply commands ld1 i s ;;
       Cmd.run_lines apply commands ld2 (i + commands_run ld1) s1).
Proof.
  induction ld1 as [|[[cline ccount] lineno] ld1 IH]; intros i s;
    cbn [Cmd.run_lines commands_run fold_right app].
  - cbn [bind]. now rewrite Nat.add_0_r.
  - fold (commands_run ld1).
    destruct (Cmd.run_commands apply commands (Z.to_nat ccount) i s)
      as [[i' s1]| | |] eqn:E; try reflexivity.
    cbn [bind]. apply run_commands_index in E. subst i'.
    rewrite IH. now rewrite Nat.add_assoc.
Qed.

(** A body and, on a line of its own, one more command. *)
Lemma run_lines_body_then (body : list Command) (c : Command)
  (line_data : list line_entry) (cline lineno : Z) (s : RuntimeStack.t) :
  commands_run line_data = List.length body ->
  Cmd.run_lines apply (body ++ [c]) (line_data ++ [(cline, 1, lineno)]) 0 s
  = (s1 <- Cmd.run_lines apply body line_data 0 s ;; apply c s1).
Proof.
  intros Hrun. rewrite run_lines_app, run_lines_prefix by lia.
  destruct (Cmd.run_lines apply body line_data 0 s) as [s1| | |];
    try reflexivity.
  cbn [bind Cmd.run_lines]. change (Z.to_nat 1) with 1%nat.
  cbn [Cmd.run_commands Nat.add].
  rewrite Hrun, index_nonneg by lia.
  rewrite Nat2Z.id, nth_error_app2, Nat.sub_diag by lia.
  cbn [nth_error bind]. now destruct (apply c s1).
Qed.

End RunLines.

Lemma pop_last {A : Type} (l : list A) :
  l <> [] ->
  exists l' x, PyList.pop l = Ok (l', x)
               /\ List.length l = S (List.length l').
Proof.
  intros Hne. unfold PyList.pop.
  destruct (rev l) as [|x r] eqn:E.
  - destruct l; [contradiction|].
    apply (f_equal (@List.length A)) in E. rewrite length_rev in E.
    discriminate.
  - exists (rev r), x. split; [reflexivity|].
    apply (f_equal (@List.length A)) in E. rewrite length_rev in E.
    rewrite length_rev. exact E.
Qed.

(** A closing brace takes the top record off. *)
Lemma scope_del_count (n : nat) (calltype : CallTypeEnum) (s : RuntimeStack.t) :
  (0 < record_count s)%nat ->
  exists s', Cmd.apply (S n) calltype (SCOPE_DEL false) s = Ok s'
             /\ record_count s = S (record_count s').
Proof.
  intros Hpos. cbn [Cmd.apply]. unfold Cmd.del_scope. cbn [bind].
  unfold RuntimeStack.pop_record.
  destruct (pop_last (RuntimeStack.records s)) as (l' & x & Hpop & Hlen).
  - unfold record_count in Hpos. destruct (RuntimeStack.records s);
      [simpl in Hpos; lia|discriminate].
  - rewrite Hpop. cbn [bind]. eexists. split; [reflexivity|].
    unfold record_count. cbn. exact Hlen.
Qed.

Lemma set_loop_count (name : string) (value : value) (evaluate : bool)
  (fname : option string) (idxs : list Z) :
  forall s b s',
    RuntimeStack.set_loop s name value evaluate fname idxs = Ok (b, s') ->
    record_count s' = record_count s.
Proof.
  induction idxs as [|i idxs IH]; intros s b s' H; cbn [RuntimeStack.set_loop] in H.
  - now inversion H.
  - ok_steps; try (unfold record_count; cbn; apply update_length); eauto.
Qed.

Lemma set_value_count (s : RuntimeStack.t) (name : string) (value : value)
  (b : bool) (s' : RuntimeStack.t) :
  RuntimeStack.set_value s name value = Ok (b, s') ->
  record_count s' = record_count s.
Proof.
  unfold RuntimeStack.set_value. intros H.
  destruct (RuntimeStack.in_func s && negb (RuntimeStack.typing s)).
  - ok_steps.
    + eauto using set_loop_count.
    + destruct f; [|discriminate].
      apply set_loop_count in H. apply set_loop_count in E0. congruence.
  - eauto using set_loop_count.
Qed.

Lemma declare_value_count (s : RuntimeStack.t) (name : string)
  (s' : RuntimeStack.t) :
  RuntimeStack.declare_value s name = Ok s' ->
  record_count s' = record_count s.
Proof.
  unfold RuntimeStack.declare_value. intros H. ok_steps.
  unfold record_count. cbn. apply update_length.
Qed.

(** A statement without a call and without a block leaves the number
    of records as it is. *)
Lemma plain_count (n : nat) (calltype : CallTypeEnum) (c : Command)
  (s s' : RuntimeStack.t) :
  plain c = true ->
  Cmd.apply n calltype c s = Ok s' ->
  record_count s' = record_count s.
Proof.
  intros Hplain H. destruct n as [|n]; [discriminate H|].
  destruct c; try discriminate Hplain; cbn [Cmd.apply] in H.
  - now apply declare_value_count in H.
  - unfold Cmd.declare_function in H. ok_steps.
    apply declare_value_count in E. apply set_value_count in E0. congruence.
  - unfold Cmd.assign_variable in H. ok_steps.
    apply eval_count in E0. apply set_value_count in E1. congruence.
  - unfold Cmd.function_return in H. ok_steps.
    apply eval_count in E0. exact E0.
  - inversion H. reflexivity.
Qed.

Lemma run_commands_plain (n : nat) (calltype : CallTypeEnum)
  (commands : list Command) (count : nat) :
  forallb plain commands = true ->
  forall i s i' s',
    Cmd.run_commands (Cmd.apply n calltype) commands count i s = Ok (i', s') ->
    record_count s' = record_count s.
Proof.
  intros Hall. induction count as [|count IH]; intros i s i' s' H;
    cbn [Cmd.run_commands] in H.
  - now inversion H.
  - ok_steps. apply IH in H. rewrite H.
    rewrite index_nonneg in E by lia.
    destruct (nth_error commands (Z.to_nat (Z.of_nat i))) eqn:Hnth;
      [|discriminate].
    inversion E; subst. apply nth_error_In in Hnth.
    rewrite forallb_forall in Hall. eauto using plain_count.
Qed.

Lemma run_lines_plain (n : nat) (calltype : CallTypeEnum)
  (commands : list Command) (line_data : list line_entry) :
  forallb plain commands = true ->
  forall i s s',
    Cmd.run_lines (Cmd.apply n calltype) commands line_data i s = Ok s' ->
    record_count s' = record_count s.
Proof.
  intros Hall. induction line_data as [|[[cline ccount] lineno] ld IH];
    intros i s s' H; cbn [Cmd.run_lines] in H.
  - now inversion H.
  - ok_steps. apply IH in H. apply (run_commands_plain _ _ _ _ Hall) in E.
    congruence.
Qed.

(** C10, as the code has it.  A conditional whose comparison has a
    value pushes one fresh record and runs the chosen branch on it.  A
    branch as the parser makes it ends with the command of its closing
    brace on a line of its own; when the commands before it leave as
    many records as they found, that command takes the pushed record
    off and the number of records is what it was before the
    conditional.  When the comparison
    is false and there is no else clause, the branch is empty: the
    pushed record stays, and there is one record more.  Statements
    without a call and without a block are commands that leave as
    many records as they found. *)
Theorem C10_conditional_records (n : nat) (calltype : CallTypeEnum)
  (lhs cond rhs : string) (ifc elsec : command_data)
  (s s1 : RuntimeStack.t) (boolean : value) :
  Cmd.condition s lhs cond rhs = Ok (boolean, s1) ->
  let pushed := RuntimeStack.push_record s1 (ActivatationRecord.new calltype) in
  let chosen := if Cmd.truthy boolean then ifc else elsec in
  let c := CONDITIONAL lhs cond rhs ifc elsec in
  Cmd.apply (S (S n)) calltype c s
  = Cmd.run_lines (Cmd.apply (S n) calltype) (fst chosen) (snd chosen) 0 pushed
  /\ RuntimeStack.records pushed
     = RuntimeStack.records s1 ++ [ActivatationRecord.new calltype]
  /\ record_count pushed = S (record_count s)
  /\ (forall body line_data cline lineno s2,
         chosen = (body ++ [SCOPE_DEL false],
                   line_data ++ [(cline, 1, lineno)]) ->
         commands_run line_data = List.length body ->
         Cmd.run_lines (Cmd.apply (S n) calltype) body line_data 0 pushed
         = Ok s2 ->
         record_count s2 = record_count pushed ->
         exists s', Cmd.apply (S (S n)) calltype c s = Ok s'
                    /\ record_count s' = record_count s)
  /\ (forall body line_data cline lineno s',
         chosen = (body ++ [SCOPE_DEL false],
                   line_data ++ [(cline, 1, lineno)]) ->
         commands_run line_data = List.length body ->
         forallb plain body = true ->
         Cmd.apply (S (S n)) calltype c s = Ok s' ->
         record_count s' = record_count s)
  /\ (Cmd.truthy boolean = false -> elsec = ([], []) ->
      Cmd.apply (S (S n)) calltype c s = Ok pushed).
Proof.
  intros Hcond pushed chosen c.
  assert (Hrun : Cmd.apply (S (S n)) calltype c s
                 = Cmd.run_lines (Cmd.apply (S n) calltype)
                     (fst chosen) (snd chosen) 0 pushed).
  { unfold c, chosen, pushed. cbn [Cmd.apply]. unfold Cmd.conditional.
    rewrite Hcond. cbn [bind]. now destruct (Cmd.truthy boolean). }
  assert (Hcount : record_count pushed = S (record_count s)).
  { apply condition_count in Hcond. unfold pushed, record_count in *.
    cbn. rewrite length_app, Hcond. simpl. lia. }
  repeat split.
  - exact Hrun.
  - exact Hcount.
  - intros body line_data cline lineno s2 Hshape Hcover Hbody Hbal.
    rewrite Hrun, Hshape. cbn [fst snd].
    rewrite run_lines_body_then by assumption.
    rewrite Hbody. cbn [bind].
    destruct (scope_del_count n calltype s2) as (s' & Hdel & Hs'); [lia|].
    exists s'. split; [exact Hdel|lia].
  - intros body line_data cline lineno s' Hshape Hcover Hplain Hok.
    rewrite Hrun, Hshape in Hok. cbn [fst snd] in Hok.
    rewrite run_lines_body_then in Hok by assumption.
    destruct (Cmd.run_lines (Cmd.apply (S n) calltype) body line_data 0 pushed)
      as [s2| | |] eqn:Hbody; try discriminate Hok.
    cbn [bind] in Hok.
    apply (run_lines_plain _ _ _ _ Hplain) in Hbody.
    destruct (scope_del_count n calltype s2) as (s'' & Hdel & Hs''); [lia|].
    rewrite Hdel in Hok. inversion Hok; subst. lia.
  - intros Hfalse Helse. rewrite Hrun. unfold chosen.
    rewrite Hfalse, Helse. reflexivity.
Qed.

(* ================================================================== *)
(** * Instances and the remaining scenarios *)

(** C2.  The code fails the claim on the program [alias_lines] under
    static scoping: [f] is declared before [v] in the same block and is
    passed to [g], which calls it under the name [p].  [call_function]
    puts the name written at the call site on the call stack, not the
    name of the function, so the scan of the record of declaration does
    not stop at the entry of [f]: the read of [v] in the body of [f]
    resolves to the binding declared after [f], and [r] is 5.  Called
    under its own name the same function reads [None], as the claim
    says: [q] is [None]. *)
Lemma C2_read_through_alias :
  (s <- run_program sample_uuid4 8 alias_lines static CBV ;;
   r <- PyList.index (RuntimeStack.records s) 0 ;;
   Ok (Dict.keys (ActivatationRecord.record r)))
  = Ok ["f"; "v"; "g"; "r"; "q"]
  /\ resolve (run_program sample_uuid4 8 alias_lines static CBV) "r" = Ok (VInt 5)
  /\ resolve (run_program sample_uuid4 8 alias_lines static CBV) "q" = Ok VNone.
Proof. repeat split; run. Qed.

Lemma static_read_ignores_later_entries_sample :
  RuntimeStack.get_value (without_later 0 "f" inside_f) "v"
  = ('(v, s1) <- RuntimeStack.get_value inside_f "v" ;;
     Ok (v, without_later 0 "f" s1)).
Proof.
  apply (static_read_ignores_later_entries inside_f "v" "f" 0 1).
  - reflexivity.
  - reflexivity.
  - discriminate.
  - lia.
Defined.

(** C5, as stated, fails on the line [inc(a)]: it has none of the
    statement shapes, and the parse returns, with no command for it. *)
Lemma C5_call_statement_not_reported :
  Parse.recognized "inc(a)" = false
  /\ Parse.parse_input sample_uuid4 ["inc(a)"] static CBV 0 0
     = Ok ([], [(-1, 0, 0)], 0%nat).
Proof. split; run. Qed.

Lemma C5_instance_call_statement :
  Parse.parse_loop sample_uuid4 4 ["int a = 1"; "inc(a)"] static CBV 0 1
    [DECLARE_VAR "a"; ASSIGN_VAR "a" "1"] [(1, 2, 0)] 0
  = Parse.parse_loop sample_uuid4 3 ["int a = 1"; "inc(a)"] static CBV 0 (1 + 1)
      [DECLARE_VAR "a"; ASSIGN_VAR "a" "1"]
      ([(1, 2, 0)] ++ [(PyList.len [DECLARE_VAR "a"; ASSIGN_VAR "a" "1"] - 1,
                        0, 0 + 1)]) 0
  /\ Parse.parse_input sample_uuid4 ["inc(a)"] static CBV 0 0
     = Ok ([], [(-1, 0, 0)], 0%nat).
Proof.
  apply (C5_unrecognized_line_is_skipped sample_uuid4 3
           ["int a = 1"; "inc(a)"] static CBV 0 1
           [DECLARE_VAR "a"; ASSIGN_VAR "a" "1"] [(1, 2, 0)] 0%nat "inc(a)").
  - lia.
  - reflexivity.
  - vm_compute. reflexivity.
Defined.

(** C6, as stated, fails: the stack of a run starts without a record,
    and the first declaration of the three lines has no record to
    declare in. *)
Lemma C6_no_record_at_start :
  run_program sample_uuid4 8 sum_lines dynamic CBV = Raise IndexError
  /\ run_program sample_uuid4 8 sum_lines static CBV = Raise IndexError
  /\ RuntimeStack.records (RuntimeStack.new dynamic CBV) = [].
Proof. repeat split; run. Qed.

(** C6, as the code has it.  The three lines [int x = 3], [int y = 4],
    [int z = x + y] inside a block that is still open (after its
    opening brace, with no closing brace after them), run from the
    initial state under CBV with either scoping, end normally, and [z]
    then resolves to 7. *)
Theorem C6_sum_in_block (uuid4 : nat -> string) (depth : nat) (type : bool) :
  resolve (run_program uuid4 (S depth) ("{" :: sum_lines) type CBV) "z"
  = Ok (VInt 7).
Proof. destruct type; vm_compute; reflexivity. Qed.

(** C7.  The code fails the write half of the claim inside a call
    under static scoping.  In [inside_f] no record that the search
    goes through shows the name [zz], and the read returns [None]; but
    the write of the number 7 raises TypeError, as does the write of a
    [Function], and the write of the text [007] raises SyntaxError:
    [set_value] evaluates the value as a text before it looks at a
    record.  On the same records under dynamic scoping the write
    returns false and changes nothing, as the claim says. *)
Lemma C7_static_write_raises :
  unresolved inside_f "zz" = true
  /\ RuntimeStack.get_value inside_f "zz" = Ok (VNone, inside_f)
  /\ RuntimeStack.set_value inside_f "zz" (VInt 7) = Raise TypeError
  /\ RuntimeStack.set_value inside_f "zz" (VFunc sample_f) = Raise TypeError
  /\ RuntimeStack.set_value inside_f "zz" (VStr "007") = Raise SyntaxError
  /\ RuntimeStack.set_value
       (RuntimeStack.mk (RuntimeStack.records inside_f) dynamic CBV VNone
          (RuntimeStack.func_stack inside_f) [])
       "zz" (VInt 7)
     = Ok (false,
           RuntimeStack.mk (RuntimeStack.records inside_f) dynamic CBV VNone
             (RuntimeStack.func_stack inside_f) []).
Proof. repeat split; run. Qed.

Lemma unresolved_name_read_write_sample :
  unresolved inside_f "v" = true
  /\ RuntimeStack.get_value inside_f "v" = Ok (VNone, inside_f)
  /\ RuntimeStack.set_value inside_f "v" (VStr "7") = Ok (false, inside_f).
Proof.
  split; [reflexivity|].
  apply (unresolved_name_read_write inside_f "v" (VStr "7")).
  - reflexivity.
  - intros _. exists (VInt 7). reflexivity.
Defined.

Lemma C9_instance_shadowed :
  RuntimeStack.get_value shadowed "x" = Ok (VInt 1, shadowed)
  /\ RuntimeStack.set_value shadowed "x" (VStr "2")
     = Ok (true,
           RuntimeStack.with_records shadowed
             ([outer_x]
              ++ ActivatationRecord.with_record inner_x
                   (Dict.set (ActivatationRecord.record inner_x) "x" (VInt 2))
              :: [top_w])).
Proof.
  destruct (C9_unset_binding_read_write shadowed [outer_x] [top_w] inner_x
              "x" (VStr "2") (VInt 2) eq_refl eq_refl
              (Forall_cons top_w eq_refl (Forall_nil _)) eq_refl eq_refl)
    as (_ & Hwrite & Hfound & _).
  split; [|exact Hwrite].
  apply (Hfound [] [] outer_x (VInt 1)); try reflexivity.
  constructor.
Defined.

(** The read of [x] in [shadowed] gives the 1 of the outer record; the
    write of 2 goes to the inner one. *)
Example shadowed_read_and_write :
  RuntimeStack.get_value shadowed "x" = Ok (VInt 1, shadowed)
  /\ RuntimeStack.set_value shadowed "x" (VStr "2")
     = Ok (true,
           RuntimeStack.with_records shadowed
             [outer_x; ActivatationRecord.mk [("x", VInt 2)] CBV; top_w]).
Proof. split; run. Qed.

(** C10, as stated, fails on the program [nested_if_lines].  After its
    first three lines there is one record, with [x] 1 and [y] 2.  The
    conditional [if x < y] is true; its block holds the conditional
    [if x > y], which is false and has no else clause and so leaves
    the record it pushed.  The closing brace of the outer block takes
    that record off, not the one the outer conditional pushed: the
    program ends with two records. *)
Lemma C10_nested_if_leaves_a_record :
  run_program sample_uuid4 8 ["{"; "int x = 1"; "int y = 2"] dynamic CBV
  = Ok ordered
  /\ record_count ordered = 1%nat
  /\ Cmd.condition ordered "x" "<" "y" = Ok (VBool true, ordered)
  /\ (s <- run_program sample_uuid4 8 nested_if_lines dynamic CBV ;;
      Ok (record_count s))
     = Ok 2%nat.
Proof. repeat split; run. Qed.

Lemma C10_instance_ordered :
  (exists s', Cmd.apply 2 CBV (CONDITIONAL "x" "<" "y" declare_z ([], []))
                ordered = Ok s'
              /\ record_count s' = record_count ordered)
  /\ Cmd.apply 2 CBV (CONDITIONAL "x" ">" "y" declare_z ([], [])) ordered
     = Ok (RuntimeStack.push_record ordered (ActivatationRecord.new CBV)).
Proof.
  split.
  - destruct (C10_conditional_records 0 CBV "x" "<" "y" declare_z ([], [])
                ordered ordered (VBool true) eq_refl)
      as (_ & _ & _ & Hbalanced & _ & _).
    apply (Hbalanced [DECLARE_VAR "z"] [(0, 1, 1)] 1 2
             (RuntimeStack.mk
                [ActivatationRecord.mk [("x", VInt 1); ("y", VInt 2)] CBV;
                 ActivatationRecord.mk [("z", VNone)] CBV]
                dynamic CBV VNone [] [])); reflexivity.
  - destruct (C10_conditional_records 0 CBV "x" ">" "y" declare_z ([], [])
                ordered ordered (VBool false) eq_refl)
      as (_ & _ & _ & _ & _ & Hgrows).
    apply Hgrows; reflexivity.
Defined.

(* ================================================================== *)
(** * Call by need on an expression without names *)

Lemma get_set_same (d : Dict.t value) (k : string) (v : value) :
  Dict.get (Dict.set d k v) k = Some v.
Proof.
  induction d as [|[k' v'] d IH]; simpl.
  - now rewrite String.eqb_refl.
  - destruct (k' =? k)%string eqn:E; simpl; now rewrite E.
Qed.

(** X21. When the text of a deferred binding has a value in the scope of
    [obtain] (it mentions no variable and no call result), the first
    read under CBNEED stores the value in place of the text and the
    next read returns it as it stands. *)
Lemma cbneed_memoizes (r : ActivatationRecord.t) (name text : string)
  (v : value) :
  ActivatationRecord.calltype r = CBNEED ->
  Dict.get (ActivatationRecord.record r) name = Some (VStr text) ->
  eval_no_stack text = Ok v ->
  is_str v = false ->
  let r1 := ActivatationRecord.with_record r
              (Dict.set (ActivatationRecord.record r) name v) in
  ActivatationRecord.get_value r name None = Ok (v, r1)
  /\ ActivatationRecord.get_value r1 name None = Ok (v, r1).
Proof.
  intros Hct Hget Hev Hstr r1.
  unfold ActivatationRecord.get_value, Dict.mem. cbn [name_given].
  unfold r1; cbn [ActivatationRecord.record ActivatationRecord.with_record].
  rewrite Hget, get_set_same. unfold ActivatationRecord.obtain.
  cbn [ActivatationRecord.record ActivatationRecord.with_record
       ActivatationRecord.calltype].
  rewrite Hget, get_set_same, Hev, Hct. cbn [bind CallTypeEnum_eqb andb].
  split.
  - destruct v; try discriminate Hstr; reflexivity.
  - destruct v; try discriminate Hstr; cbn [bind];
      now rewrite value_ne_same.
Qed.

Example need_closed_argument :
  resolve (run_program sample_uuid4 8 need_closed_lines dynamic CBNEED) "r"
  = Ok (VInt 10).
Proof. run. Qed.

(* ================================================================== *)
(** * Conditionals in whole programs *)

(** The closing brace of a branch is the last command of the branch;
    without an else clause the other branch is empty. *)
Example parse_if_without_else :
  Parse.parse_input sample_uuid4 ["if x > y {"; "int z"; "}"; "int w = 3"]
    dynamic CBV 0 0
  = Ok ([CONDITIONAL "x" ">" "y"
           ([DECLARE_VAR "z"; SCOPE_DEL false], [(0, 1, 1); (1, 1, 2)])
           ([], []);
         DECLARE_VAR "w"; ASSIGN_VAR "w" "3"],
        [(0, 1, 0); (2, 2, 3)], 0%nat).
Proof. run. Qed.

(** With the comparison false and no else clause the record pushed for
    the conditional stays: [w] is declared in it.  With an else clause
    the records are as before, and [w] is declared in the block. *)
Example run_if_without_else :
  (s <- run_program sample_uuid4 8 if_without_else_lines dynamic CBV ;;
   Ok (map (fun r => Dict.keys (ActivatationRecord.record r))
         (RuntimeStack.records s)))
  = Ok [["x"; "y"]; ["w"]].
Proof. run. Qed.

Example run_if_else :
  (s <- run_program sample_uuid4 8 if_else_lines dynamic CBV ;;
   Ok (map ActivatationRecord.record (RuntimeStack.records s)))
  = Ok [[("x", VInt 5); ("y", VInt 2); ("w", VInt 3)]].
Proof. run. Qed.

(* ================================================================== *)
(** * The order of the calls of an expression *)

Lemma insert_call_sorted (c : Parse.call) (l : list Parse.call) :
  StronglySorted by_end l -> StronglySorted by_end (Parse.insert_call c l).
Proof.
  induction 1 as [|d l Hs IH Hd]; simpl.
  - repeat constructor.
  - destruct (Nat.ltb_spec (Parse.call_end c) (Parse.call_end d)).
    + constructor; [now constructor|].
      constructor; [unfold by_end; lia|].
      rewrite Forall_forall in *. intros x Hx.
      specialize (Hd x Hx). unfold by_end in *. lia.
    + constructor; [assumption|].
      rewrite Forall_forall in *. intros x Hx.
      assert (Hin : x = c \/ In x l).
      { clear - Hx. induction l as [|e l IHl]; simpl in Hx.
        - destruct Hx as [<-|[]]; now left.
        - destruct (Parse.call_end c <? Parse.call_end e)%nat; simpl in Hx.
          + destruct Hx as [<-|Hx]; [now left|now right].
          + destruct Hx as [<-|Hx]; [right; now left|].
            destruct (IHl Hx) as [->|Hl]; [now left|right; now right]. }
      destruct Hin as [->|Hin]; [unfold by_end; lia|now apply Hd].
Qed.

Lemma sort_calls_sorted (l : list Parse.call) :
  StronglySorted by_end (Parse.sort_calls l).
Proof.
  unfold Parse.sort_calls.
  assert (H : forall acc, StronglySorted by_end acc ->
                          StronglySorted by_end
                            (fold_left (fun acc c => Parse.insert_call c acc) l acc)).
  { induction l as [|c l IH]; simpl; auto using insert_call_sorted. }
  apply H. constructor.
Qed.

Lemma set_nth_places (l : list Parse.call) (i : nat) (c d : Parse.call) :
  nth_error l i = Some c -> call_place d = call_place c ->
  map call_place (PyList.set_nth l i d) = map call_place l.
Proof.
  revert i; induction l as [|x l IH]; intros [|i] H Hd; simpl in *;
    try discriminate.
  - inversion H; subst. now rewrite Hd.
  - f_equal. eauto.
Qed.

(** The second loop of [collect_func_calls] changes the texts of the
    calls only. *)
Lemma rewrite_calls_places (idxs : list nat) :
  forall value calls value' calls',
    Parse.rewrite_calls value calls idxs = Ok (value', calls') ->
    map call_place calls' = map call_place calls.
Proof.
  induction idxs as [|i idxs IH]; intros value calls value' calls' H;
    cbn [Parse.rewrite_calls] in H.
  - now inversion H.
  - destruct (PyList.index calls (Z.of_nat i)) as [[[[scall uuid] n] m]| | |]
      eqn:E; try discriminate H.
    cbn [bind] in H.
    rewrite index_nonneg, Nat2Z.id in E by lia.
    destruct (nth_error calls i) as [c|] eqn:Hnth; [|discriminate E].
    inversion E; subst c.
    destruct (negb (Parse.overlap calls m)).
    + apply IH in H. rewrite H. eapply set_nth_places; eauto.
    + eauto.
Qed.

Lemma sorted_places (l l' : list Parse.call) :
  map call_place l' = map call_place l ->
  StronglySorted by_end l -> StronglySorted by_end l'.
Proof.
  assert (Hend : forall c, Parse.call_end c = snd (call_place c))
    by (intros [[[? ?] ?] ?]; reflexivity).
  revert l'. induction l as [|c l IH]; intros [|c' l'] Hmap Hs;
    simpl in Hmap; try discriminate; [constructor|].
  inversion Hmap as [[Hc Hl]]. inversion Hs as [|? ? Hs' Hall]; subst.
  constructor; [now apply IH|].
  rewrite Forall_forall in *. intros x Hx.
  apply (in_map call_place) in Hx. rewrite Hl in Hx.
  apply in_map_iff in Hx as (y & Hy & Hin).
  specialize (Hall y Hin). unfold by_end in *.
  rewrite !Hend in *. rewrite Hc, <- Hy. exact Hall.
Qed.

(** X22. The calls that [collect_func_calls] returns are in ascending order
    of their end offsets. *)
Lemma collect_func_calls_sorted (uuid4 : nat -> string) (value : string)
  (k : nat) (value' : string) (calls : list Parse.call) (k' : nat) :
  Parse.collect_func_calls uuid4 value k = Ok (value', calls, k') ->
  StronglySorted by_end calls.
Proof.
  unfold Parse.collect_func_calls. intros H. ok_steps.
  apply rewrite_calls_places in E0.
  eapply sorted_places; eauto using sort_calls_sorted.
Qed.

(** X23. The commands of the calls store the results in the order of the
    calls, one store for each call, right after its [FUNC_CALL]. *)
Lemma gen_func_call_commands_stores (calls : list Parse.call) :
  forall commands,
    Parse.gen_func_call_commands calls = Ok commands ->
    stored_uuids commands = map call_uuid calls.
Proof.
  induction calls as [|[[[scall uuid] n] m] calls IH]; intros commands H;
    cbn [Parse.gen_func_call_commands] in H.
  - now inversion H.
  - ok_steps. unfold Parse.call_commands in E. ok_steps.
    unfold stored_uuids in *. rewrite flat_map_app.
    cbn [flat_map app map call_uuid]. f_equal. now apply IH.
Qed.

(* ================================================================== *)
(** * The tables and the two stacks of the runtime *)

Lemma get_set_other {V : Type} (d : Dict.t V) (k k' : string) (v : V) :
  k' <> k -> Dict.get (Dict.set d k v) k' = Dict.get d k'.
Proof.
  intros Hne. induction d as [|[a x] d IH]; simpl.
  - destruct (String.eqb_spec k k'); congruence.
  - destruct (String.eqb_spec a k) as [->|Ha]; simpl.
    + destruct (String.eqb_spec k k'); congruence.
    + destruct (a =? k')%string; auto.
Qed.

Lemma get_set_any {V : Type} (d : Dict.t V) (k : string) (v : V) :
  Dict.get (Dict.set d k v) k = Some v.
Proof.
  induction d as [|[a x] d IH]; simpl.
  - now rewrite String.eqb_refl.
  - destruct (a =? k)%string eqn:E; simpl; now rewrite E.
Qed.

Lemma keys_set {V : Type} (d : Dict.t V) (k : string) (v : V) :
  Dict.keys (Dict.set d k v)
  = if Dict.mem d k then Dict.keys d else Dict.keys d ++ [k].
Proof.
  unfold Dict.mem, Dict.keys. induction d as [|[a x] d IH]; simpl; auto.
  destruct (a =? k)%string; simpl; auto.
  rewrite IH. now destruct (Dict.get d k).
Qed.

(** X1. [store_func_returns] moves the pending return value under the uuid
    and empties the slot: [func_ret] of that uuid gives it back, the
    other uuids keep what they had, and no record changes. *)
Theorem store_then_func_ret (s : RuntimeStack.t) (uuid : string) :
  let s' := RuntimeStack.store_func_returns s uuid in
  RuntimeStack.func_ret s' uuid = Ok (RuntimeStack.ret s)
  /\ RuntimeStack.get_ret s' = VNone
  /\ (forall other, other <> uuid ->
        RuntimeStack.func_ret s' other = RuntimeStack.func_ret s other)
  /\ RuntimeStack.records s' = RuntimeStack.records s
  /\ RuntimeStack.func_stack s' = RuntimeStack.func_stack s.
Proof.
  cbn. unfold RuntimeStack.func_ret. cbn.
  rewrite get_set_any. repeat split; auto.
  intros other Hne. now rewrite get_set_other.
Qed.

Lemma store_then_func_ret_sample :
  RuntimeStack.func_ret (RuntimeStack.store_func_returns sample_stack "v") "u"
  = RuntimeStack.func_ret sample_stack "u".
Proof.
  apply (store_then_func_ret sample_stack "v"). discriminate.
Defined.

Lemma pop_app_last {A : Type} (l : list A) (x : A) :
  PyList.pop (l ++ [x]) = Ok (l, x).
Proof.
  unfold PyList.pop. rewrite rev_app_distr. simpl. now rewrite rev_involutive.
Qed.

(** X2. What is pushed is what is popped, and the stack is as before: for
    a record, for a call entry, for the two commands of a block, and
    for the record and the entry of a call taken off together.  With
    no record on the stack the pop raises IndexError. *)
Theorem push_then_pop (s : RuntimeStack.t) (r : ActivatationRecord.t)
  (rindex : RuntimeStack.frame_ref) (fname : string)
  (calltype : CallTypeEnum) :
  RuntimeStack.pop_record (RuntimeStack.push_record s r) = Ok s
  /\ RuntimeStack.pop_func (RuntimeStack.push_func s rindex fname)
     = Ok ((rindex, PyList.len (RuntimeStack.records s) - 1, fname), s)
  /\ Cmd.del_scope (Cmd.new_scope s calltype) false = Ok s
  /\ Cmd.del_scope
       (RuntimeStack.push_func (RuntimeStack.push_record s r) rindex fname)
       true = Ok s
  /\ RuntimeStack.pop_record (RuntimeStack.with_records s []) = Raise IndexError
  /\ Cmd.del_scope (RuntimeStack.with_func_stack s []) true = Raise IndexError.
Proof.
  unfold Cmd.del_scope, Cmd.new_scope, RuntimeStack.pop_record,
    RuntimeStack.pop_func, RuntimeStack.push_record, RuntimeStack.push_func.
  cbn [RuntimeStack.records RuntimeStack.func_stack RuntimeStack.with_records
       RuntimeStack.with_func_stack].
  rewrite !pop_app_last. cbn [bind].
  cbn [RuntimeStack.records RuntimeStack.func_stack RuntimeStack.with_records
       RuntimeStack.with_func_stack].
  rewrite !pop_app_last. destruct s; repeat split; reflexivity.
Qed.

(** X3. [declare_value] needs a record: on a stack without one it raises
    IndexError.  Otherwise it binds the name to [None] in the top
    record and in no other: a name the record has keeps its place in
    the order of the keys and loses its value, a new name comes last,
    and the other names of the record keep their values. *)
Theorem declare_value_top_record (s : RuntimeStack.t)
  (rs : list ActivatationRecord.t) (top : ActivatationRecord.t)
  (name : string) :
  (RuntimeStack.records s = [] ->
   RuntimeStack.declare_value s name = Raise IndexError)
  /\ (RuntimeStack.records s = rs ++ [top] ->
      exists top',
        RuntimeStack.declare_value s name
        = Ok (RuntimeStack.with_records s (rs ++ [top']))
        /\ Dict.get (ActivatationRecord.record top') name = Some VNone
        /\ (forall k, k <> name ->
              Dict.get (ActivatationRecord.record top') k
              = Dict.get (ActivatationRecord.record top) k)
        /\ Dict.keys (ActivatationRecord.record top')
           = (if Dict.mem (ActivatationRecord.record top) name
              then Dict.keys (ActivatationRecord.record top)
              else Dict.keys (ActivatationRecord.record top) ++ [name])
        /\ ActivatationRecord.calltype top' = ActivatationRecord.calltype top).
Proof.
  unfold RuntimeStack.declare_value. split; intros Hrec; rewrite Hrec.
  - reflexivity.
  - assert (Hidx : PyList.index (rs ++ [top]) (-1) = Ok top).
    { unfold PyList.index. rewrite length_app. cbn [List.length Nat.add].
      replace (-1 <? 0) with true by reflexivity.
      destruct (Z.leb_spec 0 (-1 + Z.of_nat (List.length rs + 1))); [|lia].
      destruct (Z.ltb_spec (-1 + Z.of_nat (List.length rs + 1))
                  (Z.of_nat (List.length rs + 1))); [|lia].
      cbn [andb].
      replace (Z.to_nat (-1 + Z.of_nat (List.length rs + 1)))
        with (List.length rs) by lia.
      now rewrite nth_error_app2, Nat.sub_diag by lia. }
    assert (Hupd : forall x, PyList.update (rs ++ [top]) (-1) x = rs ++ [x]).
    { intros x. unfold PyList.update. rewrite length_app.
      cbn [List.length Nat.add].
      replace (-1 <? 0) with true by reflexivity.
      destruct (Z.leb_spec 0 (-1 + Z.of_nat (List.length rs + 1))); [|lia].
      destruct (Z.ltb_spec (-1 + Z.of_nat (List.length rs + 1))
                  (Z.of_nat (List.length rs + 1))); [|lia].
      cbn [andb].
      replace (Z.to_nat (-1 + Z.of_nat (List.length rs + 1)))
        with (List.length rs) by lia.
      apply set_nth_app_middle. }
    rewrite Hidx. cbn [bind]. rewrite Hupd.
    eexists. split; [reflexivity|].
    cbn [ActivatationRecord.record ActivatationRecord.with_record
         ActivatationRecord.calltype].
    repeat split.
    + apply get_set_any.
    + intros k Hk. now apply get_set_other.
    + apply keys_set.
Qed.

Lemma declare_value_top_record_sample :
  RuntimeStack.declare_value (RuntimeStack.new dynamic CBV) "x"
  = Raise IndexError
  /\ exists top',
       RuntimeStack.declare_value sample_stack "y"
       = Ok (RuntimeStack.with_records sample_stack
               ([ActivatationRecord.mk [("x", VInt 1); ("y", VInt 2)] CBV]
                ++ [top']))
       /\ Dict.get (ActivatationRecord.record top') "y" = Some VNone.
Proof.
  split.
  - apply (declare_value_top_record (RuntimeStack.new dynamic CBV) [] outer_x "x").
    reflexivity.
  - destruct (proj2 (declare_value_top_record sample_stack
                       [ActivatationRecord.mk [("x", VInt 1); ("y", VInt 2)] CBV]
                       (ActivatationRecord.mk [("x", VInt 7)] CBV) "y")
                eq_refl) as (top' & Hd & Hget & _).
    exists top'. split; assumption.
Defined.

(* ================================================================== *)
(** * Reads that change nothing, writes that fail *)

Lemma index_in {A : Type} (l : list A) (i : Z) (x : A) :
  PyList.index l i = Ok x -> In x l.
Proof.
  unfold PyList.index. destruct (_ && _); [|discriminate].
  destruct (nth_error l _) eqn:E; [|discriminate].
  intros H; inversion H; subst. eapply nth_error_In; eauto.
Qed.

Lemma obtain_keeps (r : ActivatationRecord.t) (name : string) (v : value)
  (r' : ActivatationRecord.t) :
  CallTypeEnum_eqb (ActivatationRecord.calltype r) CBNEED = false ->
  ActivatationRecord.obtain r name = Ok (v, r') -> r' = r.
Proof.
  unfold ActivatationRecord.obtain. intros Hct H. rewrite Hct in H.
  cbn [andb] in H.
  destruct (Dict.get _ _); [|discriminate]. ok_steps. reflexivity.
Qed.

Lemma record_get_keeps (r : ActivatationRecord.t) (name : string)
  (fname : option string) (v : value) (r' : ActivatationRecord.t) :
  CallTypeEnum_eqb (ActivatationRecord.calltype r) CBNEED = false ->
  ActivatationRecord.get_value r name fname = Ok (v, r') -> r' = r.
Proof.
  unfold ActivatationRecord.get_value. intros Hct H.
  destruct (name_given fname) as [f|].
  - revert H. generalize (ActivatationRecord.record r) as items.
    induction items as [|[k x] items IH]; simpl; intros H.
    + now inversion H.
    + destruct (k =? f)%string; [now inversion H|].
      destruct (k =? name)%string; eauto using obtain_keeps.
  - destruct (Dict.mem _ _); [eauto using obtain_keeps|now inversion H].
Qed.

Lemma get_loop_keeps (name : string) (fname : option string) (idxs : list Z) :
  forall s v s',
    no_need_record s = true ->
    RuntimeStack.get_loop s name fname idxs = Ok (v, s') -> s' = s.
Proof.
  induction idxs as [|i idxs IH]; intros s v s' Hno H;
    cbn [RuntimeStack.get_loop] in H.
  - now inversion H.
  - destruct (PyList.index (RuntimeStack.records s) i) as [r| | |] eqn:E;
      try discriminate H.
    cbn [bind] in H.
    destruct (ActivatationRecord.get_value r name fname) as [[x r']| | |] eqn:G;
      try discriminate H.
    cbn [bind] in H.
    assert (r' = r).
    { eapply record_get_keeps; eauto.
      unfold no_need_record in Hno. rewrite forallb_forall in Hno.
      apply negb_true_iff, Hno. eapply index_in; eauto. }
    subst r'. rewrite (update_same _ _ _ E), with_records_same in H.
    destruct (is_not_None x); [now inversion H|eauto].
Qed.

Lemma get_value_keeps (s : RuntimeStack.t) (name : string) (v : value)
  (s' : RuntimeStack.t) :
  no_need_record s = true ->
  RuntimeStack.get_value s name = Ok (v, s') -> s' = s.
Proof.
  unfold RuntimeStack.get_value. intros Hno H.
  destruct (RuntimeStack.in_func s && negb (RuntimeStack.typing s)).
  - destruct (PyList.index (RuntimeStack.func_stack s) (-1))
      as [[[rindex sindex] fname]| | |]; try discriminate H.
    cbn [bind] in H.
    destruct (RuntimeStack.get_loop s name None _) as [[x s1]| | |] eqn:E;
      try discriminate H.
    cbn [bind] in H. apply get_loop_keeps in E; [subst s1|assumption].
    destruct (is_not_None x); [now inversion H|].
    destruct rindex; [|discriminate H]. eauto using get_loop_keeps.
  - eauto using get_loop_keeps.
Qed.

Lemma eval_list_keeps (args : list PyEval.expr) :
  Forall (fun e => forall s v s', no_need_record s = true ->
              eval_expr Cmd.stack_scope e s = Ok (v, s') -> s' = s) args ->
  forall s vs s', no_need_record s = true ->
    eval_list (eval_expr Cmd.stack_scope) args s = Ok (vs, s') -> s' = s.
Proof.
  induction 1 as [|a args Ha _ IH]; intros s vs s' Hno H; cbn [eval_list] in H.
  - now inversion H.
  - ok_steps. apply Ha in E; [subst|assumption]. eauto.
Qed.

Lemma eval_expr_keeps (e : PyEval.expr) :
  forall s v s', no_need_record s = true ->
    eval_expr Cmd.stack_scope e s = Ok (v, s') -> s' = s.
Proof.
  induction e as [z|t|x|e a IH|f args IHf IHargs|e IH|e IH|op a b IHa IHb
                 |op a b IHa IHb] using expr_nested_ind;
    intros s v s' Hno H; cbn [eval_expr] in H.
  - now inversion H.
  - now inversion H.
  - unfold Cmd.stack_scope in H. ok_steps; reflexivity.
  - ok_steps.
  - assert (Hgen : bind (eval_expr Cmd.stack_scope f s)
                     (fun p => let (_, s1) := p in
                        bind (eval_list (eval_expr Cmd.stack_scope) args s1)
                          (fun q => let (_, _) := q in Raise TypeError))
                   = Ok (v, s') -> s' = s)
      by (intros H'; ok_steps).
    destruct f as [| | |e' m| | | | |]; try (apply Hgen; exact H).
    destruct e' as [| |x| | | | | |]; try (apply Hgen; exact H).
    unfold Cmd.stack_scope in H. cbn [PyScope.get_value PyScope.func_ret] in H.
    ok_steps.
    destruct l as [|[| |a| |] [|? ?]]; try discriminate H.
    apply (eval_list_keeps _ IHargs) in E1; [subst|assumption].
    ok_steps.
    + eauto using get_value_keeps.
    + reflexivity.
  - ok_steps. eauto.
  - ok_steps. eauto.
  - ok_steps. apply IHa in E; [subst|assumption]. eauto.
  - ok_steps. apply IHa in E; [subst|assumption]. eauto.
Qed.

(** X4. Reading changes the stack under call by need only.  On a stack
    without a record made under CBNEED, a read of a name, the
    evaluation of an expression and the evaluation of the comparison
    of a conditional leave the stack exactly as it is. *)
Theorem reads_change_nothing (s : RuntimeStack.t) (v : value)
  (s' : RuntimeStack.t) :
  no_need_record s = true ->
  (forall name, RuntimeStack.get_value s name = Ok (v, s') -> s' = s)
  /\ (forall text, Cmd.eval text s = Ok (v, s') -> s' = s)
  /\ (forall lhs cond rhs, Cmd.condition s lhs cond rhs = Ok (v, s') -> s' = s).
Proof.
  intros Hno. repeat split.
  - intros name. now apply get_value_keeps.
  - intros text H. unfold Cmd.eval, py_eval in H. ok_steps.
    eauto using eval_expr_keeps.
  - intros lhs cond rhs H. unfold Cmd.condition in H. ok_steps.
    unfold Cmd.eval, py_eval in H. ok_steps. eauto using eval_expr_keeps.
Qed.

Lemma reads_change_nothing_sample :
  Cmd.eval "stack.get_value('x') + stack.get_value('y')" sample_stack
  = Ok (VInt 9, sample_stack)
  /\ sample_stack = sample_stack.
Proof.
  split; [vm_compute; reflexivity|].
  apply (proj1 (proj2 (reads_change_nothing sample_stack (VInt 9) sample_stack
                         eq_refl))
           "stack.get_value('x') + stack.get_value('y')").
  vm_compute. reflexivity.
Defined.

Lemma record_set_false (r : ActivatationRecord.t) (name : string)
  (v : value) (fname : option string) (r' : ActivatationRecord.t) :
  ActivatationRecord.set_value r name v fname = Ok (false, r') -> r' = r.
Proof.
  unfold ActivatationRecord.set_value.
  destruct (name_given fname) as [f|].
  - generalize (Dict.keys (ActivatationRecord.record r)) as keys.
    induction keys as [|k keys IH]; simpl; intros H.
    + now inversion H.
    + destruct (k =? f)%string; [now inversion H|].
      destruct (k =? name)%string; [ok_steps|auto].
  - destruct (Dict.mem _ _); intros H; [ok_steps|now inversion H].
Qed.

Lemma set_loop_false (name : string) (value : value) (evaluate : bool)
  (fname : option string) (idxs : list Z) :
  forall s s',
    RuntimeStack.set_loop s name value evaluate fname idxs = Ok (false, s') ->
    s' = s.
Proof.
  induction idxs as [|i idxs IH]; intros s s' H; cbn [RuntimeStack.set_loop] in H.
  - now inversion H.
  - ok_steps; eauto.
Qed.

(** X5. A write that reports false has changed nothing, whatever the
    scoping and whatever the value. *)
Theorem failed_write_changes_nothing (s : RuntimeStack.t) (name : string)
  (value : value) (s' : RuntimeStack.t) :
  RuntimeStack.set_value s name value = Ok (false, s') -> s' = s.
Proof.
  unfold RuntimeStack.set_value. intros H.
  destruct (RuntimeStack.in_func s && negb (RuntimeStack.typing s)).
  - ok_steps. destruct b; [discriminate|].
    apply set_loop_false in E0. subst.
    destruct f; [|discriminate]. eauto using set_loop_false.
  - eauto using set_loop_false.
Qed.

Lemma failed_write_changes_nothing_sample :
  RuntimeStack.set_value sample_stack "z" (VStr "5") = Ok (false, sample_stack)
  /\ sample_stack = sample_stack.
Proof.
  split; [reflexivity|].
  apply (failed_write_changes_nothing sample_stack "z" (VStr "5") sample_stack).
  reflexivity.
Defined.

(* ================================================================== *)
(** * A write and the read after it *)

Lemma nth_error_set_nth_same {A : Type} (l : list A) (n : nat) (x y : A) :
  nth_error l n = Some y -> nth_error (PyList.set_nth l n x) n = Some x.
Proof.
  revert n; induction l as [|z l IH]; intros [|n] H; simpl in *;
    try discriminate; auto.
Qed.

Lemma nth_error_set_nth_other {A : Type} (l : list A) (n m : nat) (x : A) :
  n <> m -> nth_error (PyList.set_nth l m x) n = nth_error l n.
Proof.
  revert n m; induction l as [|z l IH]; intros [|n] [|m] H; simpl;
    try congruence; auto.
Qed.

Lemma index_update_same {A : Type} (l : list A) (i : Z) (x y : A) :
  PyList.index l i = Ok y -> PyList.index (PyList.update l i x) i = Ok x.
Proof.
  unfold PyList.index, PyList.update.
  destruct (_ && _) eqn:E; [|discriminate].
  rewrite set_nth_length, E.
  destruct (nth_error l _) eqn:N; [|discriminate]. intros _.
  now rewrite (nth_error_set_nth_same _ _ _ _ N).
Qed.

Lemma index_update_other {A : Type} (l : list A) (i j : Z) (x : A) :
  0 <= i -> 0 <= j -> i <> j ->
  PyList.index (PyList.update l j x) i = PyList.index l i.
Proof.
  intros Hi Hj Hne. rewrite update_nonneg, !index_nonneg by assumption.
  rewrite nth_error_set_nth_other by lia. reflexivity.
Qed.

Lemma range_down_nodup (a b : Z) : NoDup (PyList.range_down a b).
Proof.
  unfold PyList.range_down. apply NoDup_map_NoDup_ForallPairs.
  - intros x y _ _ H. lia.
  - apply seq_NoDup.
Qed.

Lemma set_loop_true_at (name : string) (value : value) (evaluate : bool)
  (fname : option string) (idxs : list Z) :
  forall s s',
    RuntimeStack.set_loop s name value evaluate fname idxs = Ok (true, s') ->
    exists j x, In j idxs
                /\ s' = RuntimeStack.with_records s
                          (PyList.update (RuntimeStack.records s) j x).
Proof.
  induction idxs as [|i idxs IH]; intros s s' H; cbn [RuntimeStack.set_loop] in H.
  - discriminate.
  - ok_steps;
      try (exists i; eexists; split; [now left|reflexivity]);
      destruct (IH _ _ H) as (j & x & Hin & ->);
      exists j, x; (split; [now right|reflexivity]).
Qed.

Lemma write_then_read_loop (name : string) (value w : value) (idxs : list Z) :
  assigned value = Ok w -> is_not_None w = true -> is_str w = false ->
  forall s s',
    (forall i, In i idxs -> 0 <= i) -> NoDup idxs ->
    RuntimeStack.set_loop s name value false None idxs = Ok (true, s') ->
    RuntimeStack.get_loop s' name None idxs = Ok (w, s').
Proof.
  intros Hw Hnn Hstr.
  induction idxs as [|i idxs IH]; intros s s' Hpos Hnd H;
    cbn [RuntimeStack.set_loop] in H.
  - discriminate.
  - destruct (PyList.index (RuntimeStack.records s) i) as [r| | |] eqn:E;
      try discriminate H.
    cbn [bind] in H.
    unfold ActivatationRecord.set_value in H. cbn [name_given] in H.
    destruct (Dict.mem (ActivatationRecord.record r) name) eqn:Hmem.
    + unfold ActivatationRecord.assign in H. unfold assigned in Hw.
      rewrite Hw in H. cbn [bind] in H. inversion H; subst s'; clear H.
      cbn [RuntimeStack.get_loop RuntimeStack.records RuntimeStack.with_records].
      rewrite (index_update_same _ _ _ _ E). cbn [bind].
      rewrite (read_stored _ name w)
        by first [assumption | apply get_set_any].
      cbn [bind]. rewrite Hnn.
      rewrite (update_same (PyList.update (RuntimeStack.records s) i _) i)
        by (eapply index_update_same; eauto).
      reflexivity.
    + cbn [bind] in H.
      destruct (set_loop_true_at _ _ _ _ _ _ _ H) as (j & x & Hj & Hs').
      inversion Hnd as [|? ? Hni Hnd']; subst.
      assert (Hne : i <> j) by (intros ->; contradiction).
      cbn [RuntimeStack.get_loop RuntimeStack.records RuntimeStack.with_records].
      assert (Hi : 0 <= i) by (apply Hpos; now left).
      assert (Hj0 : 0 <= j) by (apply Hpos; now right).
      rewrite index_update_other by assumption. rewrite E.
      cbn [bind].
      rewrite hidden_get by (unfold visible; cbn [name_given]; exact Hmem).
      cbn [bind is_not_None].
      rewrite (update_same _ i r)
        by (rewrite index_update_other; assumption).
      rewrite with_records_twice.
      change (RuntimeStack.with_records s
                (PyList.update (RuntimeStack.records s) j x))
        with (RuntimeStack.with_records
                (RuntimeStack.with_records s
                   (PyList.update (RuntimeStack.records s) j x))
                (RuntimeStack.records
                   (RuntimeStack.with_records s
                      (PyList.update (RuntimeStack.records s) j x)))) at 1.
      rewrite with_records_same.
      apply (IH s); auto.
      intros k Hk. apply Hpos. now right.
Qed.

(** X6. Outside the static search, a write that succeeds is seen by the
    next read: when [set_value] reports true for a value that is
    neither [None] nor text once [assign] has evaluated it, [get_value]
    of the same name returns that value and changes nothing. *)
Theorem write_then_read (s : RuntimeStack.t) (name : string)
  (value w : value) (s' : RuntimeStack.t) :
  static_active s = false ->
  RuntimeStack.set_value s name value = Ok (true, s') ->
  assigned value = Ok w -> is_not_None w = true -> is_str w = false ->
  RuntimeStack.get_value s' name = Ok (w, s').
Proof.
  intros Hdyn Hset Hw Hnn Hstr.
  rewrite set_value_top_down in Hset by assumption.
  destruct (set_loop_true_at _ _ _ _ _ _ _ Hset) as (j & x & _ & Hs').
  rewrite get_value_top_down by (subst s'; exact Hdyn).
  replace (PyList.len (RuntimeStack.records s'))
    with (PyList.len (RuntimeStack.records s))
    by (subst s'; cbn; now rewrite len_update).
  eapply write_then_read_loop; eauto using range_down_nodup.
  intros i Hi. apply range_down_bounds in Hi. lia.
Qed.

Lemma write_then_read_sample :
  RuntimeStack.get_value
    (RuntimeStack.with_records sample_stack
       [ActivatationRecord.mk [("x", VInt 1); ("y", VInt 2)] CBV;
        ActivatationRecord.mk [("x", VInt 5)] CBV]) "x"
  = Ok (VInt 5,
        RuntimeStack.with_records sample_stack
          [ActivatationRecord.mk [("x", VInt 1); ("y", VInt 2)] CBV;
           ActivatationRecord.mk [("x", VInt 5)] CBV]).
Proof.
  apply (write_then_read sample_stack "x" (VStr "5") (VInt 5)); reflexivity.
Defined.

(* ================================================================== *)
(** * The step after a call under value-result *)

Lemma pop_inv {A : Type} (l rs : list A) (x : A) :
  PyList.pop l = Ok (rs, x) -> l = rs ++ [x].
Proof.
  unfold PyList.pop. destruct (rev l) as [|y r] eqn:E; [discriminate|].
  intros H; inversion H; subst.
  rewrite <- (rev_involutive l), E. reflexivity.
Qed.

Lemma value_result_loop_numeric (params args : list string) (idxs : list nat) :
  Cmd.value_result_loop params args idxs = Ok tt ->
  forall i, In i idxs ->
    exists arg, nth_error args i = Some arg /\ Str.isnumeric arg = true.
Proof.
  induction idxs as [|j idxs IH]; intros H i Hin; [contradiction|].
  cbn [Cmd.value_result_loop] in H.
  destruct (PyList.index params (Z.of_nat j)); try discriminate H.
  cbn [bind] in H.
  rewrite index_nonneg, Nat2Z.id in H by lia.
  destruct (nth_error args j) as [arg|] eqn:E; [|discriminate H].
  cbn [bind] in H.
  destruct (Str.isnumeric arg) eqn:N; [|discriminate H].
  destruct Hin as [<-|Hin]; [exists arg; auto|auto].
Qed.

(** X7. [value_result] copies nothing back.  When it returns, the name is
    bound to a function, the records are the ones of the stack after
    the name was read, and every argument at the position of a
    parameter is the text of a number: for any other argument the call
    of [get_value] on the record of the call, one argument short, has
    raised TypeError. *)
Theorem value_result_copies_nothing (stack : RuntimeStack.t) (name : string)
  (args : list string) (s' : RuntimeStack.t) :
  Cmd.value_result stack name args = Ok s' ->
  exists f s1,
    RuntimeStack.get_value stack name = Ok (VFunc f, s1)
    /\ RuntimeStack.records s' = RuntimeStack.records s1
    /\ forall i param,
         nth_error (Function.params f) i = Some param ->
         exists arg, nth_error args i = Some arg /\ Str.isnumeric arg = true.
Proof.
  unfold Cmd.value_result. intros H.
  destruct (RuntimeStack.get_value stack name) as [[func s1]| | |];
    try discriminate H.
  cbn [bind] in H. unfold RuntimeStack.pop_func in H.
  destruct (PyList.pop (RuntimeStack.func_stack s1)) as [[fs e]| | |];
    try discriminate H.
  cbn [bind RuntimeStack.records RuntimeStack.with_func_stack] in H.
  destruct (PyList.pop (RuntimeStack.records s1)) as [[rs func_record]| | |] eqn:P;
    try discriminate H.
  cbn [bind] in H.
  destruct func as [| | |f|]; try discriminate H.
  cbn [Cmd.as_function bind] in H.
  destruct (Cmd.value_result_loop (Function.params f) args _) as [[]| | |] eqn:L;
    try discriminate H.
  cbn [bind] in H. destruct e as [[r sindex] fname].
  inversion H; subst s'; clear H.
  exists f, s1. split; [reflexivity|]. split.
  - cbn. symmetry. now apply pop_inv.
  - intros i param Hi.
    apply (value_result_loop_numeric _ _ _ L).
    unfold PyList.range. apply in_seq.
    assert (i < List.length (Function.params f))%nat
      by (apply nth_error_Some; congruence).
    lia.
Qed.

Lemma value_result_copies_nothing_sample :
  exists f s1,
    RuntimeStack.get_value
      (RuntimeStack.mk (RuntimeStack.records inside_f) dynamic CBVR VNone
         (RuntimeStack.func_stack inside_f) []) "f"
    = Ok (VFunc f, s1)
    /\ RuntimeStack.records
         (RuntimeStack.mk (RuntimeStack.records inside_f) dynamic CBVR VNone
            [(RuntimeStack.RTuple (RuntimeStack.RInt 0) 1 "f", 1, "f")] [])
       = RuntimeStack.records s1
    /\ forall i param,
         nth_error (Function.params f) i = Some param ->
         exists arg, nth_error ["3"] i = Some arg /\ Str.isnumeric arg = true.
Proof.
  apply (value_result_copies_nothing
           (RuntimeStack.mk (RuntimeStack.records inside_f) dynamic CBVR VNone
              (RuntimeStack.func_stack inside_f) []) "f" ["3"]).
  reflexivity.
Defined.

(* ================================================================== *)
(** * Inside a call under static scoping *)

Lemma seen_before_itself (fname : string) (keys : list string) :
  seen_before fname fname keys = false.
Proof.
  induction keys as [|k keys IH]; simpl; [reflexivity|].
  destruct (k =? fname)%string; auto.
Qed.

Lemma none_visible_itself (s : RuntimeStack.t) (fname : string) (r : Z) :
  fname <> ""%string ->
  r < PyList.len (RuntimeStack.records s) ->
  none_visible s fname (Some fname) (PyList.range_down r (-1)) = true.
Proof.
  intros Hne Hr. unfold none_visible. apply forallb_forall. intros i Hi.
  apply range_down_bounds in Hi.
  rewrite index_nonneg by lia.
  destruct (nth_error (RuntimeStack.records s) (Z.to_nat i)) as [rec|] eqn:E.
  - unfold visible. cbn [name_given].
    destruct (fname =? "")%string eqn:F;
      [apply String.eqb_eq in F; contradiction|].
    now rewrite seen_before_itself.
  - apply nth_error_None in E. unfold PyList.len in Hr. lia.
Qed.

(** X8. Under static scoping a function cannot call itself.  In a call of
    [fname], when no record of the call binds the name [fname], the
    read of that name finds nothing: the scan of every record from the
    one of the declaration down stops at the key [fname] before it can
    match it.  The call then raises AttributeError on the parameters of
    [None]. *)
Theorem static_self_call_fails (s : RuntimeStack.t) (r sindex : Z)
  (fname : string)
  (execute_program : RuntimeStack.t -> command_data -> outcome RuntimeStack.t)
  (args : list string) (calltype : CallTypeEnum) :
  static_active s = true ->
  PyList.index (RuntimeStack.func_stack s) (-1)
  = Ok (RuntimeStack.RInt r, sindex, fname) ->
  fname <> ""%string ->
  r < PyList.len (RuntimeStack.records s) ->
  none_visible s fname None
    (PyList.range_down (PyList.len (RuntimeStack.records s) - 1) (sindex - 1))
  = true ->
  RuntimeStack.get_value s fname = Ok (VNone, s)
  /\ Cmd.call_function execute_program s fname args calltype
     = Raise AttributeError.
Proof.
  intros Hst Htop Hne Hr Hown.
  assert (Hget : RuntimeStack.get_value s fname = Ok (VNone, s)).
  { unfold RuntimeStack.get_value. unfold static_active in Hst.
    rewrite Hst, Htop. cbn [bind].
    rewrite (none_visible_get_loop _ _ _ _ Hown). cbn [bind is_not_None].
    apply none_visible_get_loop. now apply none_visible_itself. }
  split; [exact Hget|].
  unfold Cmd.call_function. rewrite Hget. reflexivity.
Qed.

Lemma static_self_call_fails_sample :
  RuntimeStack.get_value inside_f "f" = Ok (VNone, inside_f)
  /\ Cmd.call_function (fun s _ => Ok s) inside_f "f" ["1"] CBV
     = Raise AttributeError.
Proof.
  apply (static_self_call_fails inside_f 0 1 "f");
    solve [reflexivity | discriminate].
Defined.

(** X9. Under static scoping the step after a call under value-result
    fails for the same reason, when no record of the call shows the
    name of the function: [value_result] reads the name while the
    entry of the call is still on the call stack, finds nothing, and
    raises AttributeError on the parameters of [None] once it has
    popped the entry and the record. *)
Theorem static_value_result_fails (s : RuntimeStack.t) (r sindex : Z)
  (fname : string) (args : list string) :
  static_active s = true ->
  PyList.index (RuntimeStack.func_stack s) (-1)
  = Ok (RuntimeStack.RInt r, sindex, fname) ->
  fname <> ""%string ->
  0 <= r < PyList.len (RuntimeStack.records s) ->
  none_visible s fname None
    (PyList.range_down (PyList.len (RuntimeStack.records s) - 1) (sindex - 1))
  = true ->
  Cmd.value_result s fname args = Raise AttributeError.
Proof.
  intros Hst Htop Hne Hr Hown.
  unfold Cmd.value_result, RuntimeStack.get_value.
  unfold static_active in Hst. rewrite Hst, Htop. cbn [bind].
  rewrite (none_visible_get_loop _ _ _ _ Hown). cbn [bind is_not_None].
  rewrite none_visible_get_loop by (apply none_visible_itself; [assumption|lia]).
  cbn [bind]. unfold RuntimeStack.pop_func.
  destruct (PyList.pop (RuntimeStack.func_stack s)) as [[fs e]| | |] eqn:P.
  - cbn [bind RuntimeStack.records RuntimeStack.with_func_stack].
    destruct (pop_last (RuntimeStack.records s)) as (rs & x & -> & _).
    + intros E. rewrite E in Hr. unfold PyList.len in Hr. simpl in Hr. lia.
    + reflexivity.
  - unfold PyList.pop in P. unfold PyList.index in Htop.
    destruct (RuntimeStack.func_stack s) as [|e0 fs0]; [discriminate Htop|].
    destruct (rev (e0 :: fs0)) eqn:R; [|discriminate P].
    apply (f_equal (@List.length _)) in R. rewrite length_rev in R.
    discriminate R.
  - unfold PyList.pop in P. destruct (rev _); discriminate P.
  - unfold PyList.pop in P. destruct (rev _); discriminate P.
Qed.

Lemma static_value_result_fails_sample :
  Cmd.value_result inside_f "f" ["3"] = Raise AttributeError.
Proof.
  apply (static_value_result_fails inside_f 0 1 "f");
    solve [reflexivity | discriminate | unfold PyList.len; simpl; lia].
Defined.

Lemma index_last {A : Type} (l : list A) (x : A) :
  PyList.index (l ++ [x]) (-1) = Ok x.
Proof.
  unfold PyList.index. rewrite length_app. cbn [List.length Nat.add].
  replace (-1 <? 0) with true by reflexivity.
  destruct (Z.leb_spec 0 (-1 + Z.of_nat (List.length l + 1))); [|lia].
  destruct (Z.ltb_spec (-1 + Z.of_nat (List.length l + 1))
              (Z.of_nat (List.length l + 1))); [|lia].
  cbn [andb].
  replace (Z.to_nat (-1 + Z.of_nat (List.length l + 1)))
    with (List.length l) by lia.
  now rewrite nth_error_app2, Nat.sub_diag by lia.
Qed.

Lemma update_last {A : Type} (l : list A) (x y : A) :
  PyList.update (l ++ [x]) (-1) y = l ++ [y].
Proof.
  unfold PyList.update. rewrite length_app. cbn [List.length Nat.add].
  replace (-1 <? 0) with true by reflexivity.
  destruct (Z.leb_spec 0 (-1 + Z.of_nat (List.length l + 1))); [|lia].
  destruct (Z.ltb_spec (-1 + Z.of_nat (List.length l + 1))
              (Z.of_nat (List.length l + 1))); [|lia].
  cbn [andb].
  replace (Z.to_nat (-1 + Z.of_nat (List.length l + 1)))
    with (List.length l) by lia.
  apply set_nth_app_middle.
Qed.

Lemma len_snoc_pred {A : Type} (l : list A) (x : A) :
  PyList.len (l ++ [x]) - 1 = PyList.len l.
Proof. rewrite len_app. unfold PyList.len. simpl. lia. Qed.

Lemma index_snoc {A : Type} (l : list A) (x : A) :
  PyList.index (l ++ [x]) (PyList.len l) = Ok x.
Proof.
  rewrite index_nonneg by apply len_nonneg.
  unfold PyList.len. now rewrite Nat2Z.id, nth_error_app2, Nat.sub_diag by lia.
Qed.

(** X10. Under static scoping a function cannot be declared inside a call.
    [declare_function] hands the [Function] itself to [set_value],
    which inside a call evaluates the value as a text before it looks
    at a record: with a record of the call on the stack that is a
    TypeError. *)
Theorem nested_declaration_static_raises (s : RuntimeStack.t)
  (rindex : RuntimeStack.frame_ref) (sindex : Z) (fname name : string)
  (commands : command_data) (params : list string) :
  static_active s = true ->
  PyList.index (RuntimeStack.func_stack s) (-1) = Ok (rindex, sindex, fname) ->
  RuntimeStack.records s <> [] ->
  sindex < PyList.len (RuntimeStack.records s) ->
  Cmd.declare_function s name commands params = Raise TypeError.
Proof.
  intros Hst Htop Hne Hs.
  destruct (exists_last Hne) as (rs & top & Hrec).
  unfold Cmd.declare_function, RuntimeStack.declare_value.
  rewrite Hrec, index_last. cbn [bind]. rewrite update_last.
  unfold RuntimeStack.set_value.
  fold (static_active
          (RuntimeStack.with_records s
             (rs ++ [ActivatationRecord.with_record top
                       (Dict.set (ActivatationRecord.record top) name VNone)]))).
  rewrite static_active_with_records, Hst.
  cbn [RuntimeStack.func_stack RuntimeStack.with_records RuntimeStack.records].
  rewrite Htop. cbn [bind].
  rewrite Hrec, len_app in Hs. change (PyList.len [top]) with 1 in Hs.
  rewrite !len_snoc_pred.
  rewrite range_down_step by lia.
  cbn [RuntimeStack.set_loop RuntimeStack.records RuntimeStack.with_records].
  rewrite index_snoc. reflexivity.
Qed.

Lemma nested_declaration_static_raises_sample :
  Cmd.declare_function inside_f "g" ([], []) [] = Raise TypeError.
Proof.
  apply (nested_declaration_static_raises inside_f (RuntimeStack.RInt 0) 1 "f");
    solve [reflexivity | discriminate].
Defined.

(* ================================================================== *)
(** * The line data and the commands *)

Lemma in_turn_app (apply : Command -> RuntimeStack.t -> outcome RuntimeStack.t)
  (a b : list Command) (s : RuntimeStack.t) :
  in_turn apply (a ++ b) s = (s1 <- in_turn apply a s ;; in_turn apply b s1).
Proof.
  revert s; induction a as [|c a IH]; intros s; cbn [in_turn app bind].
  - reflexivity.
  - destruct (apply c s); cbn [bind]; auto.
Qed.

Lemma firstn_plus {A : Type} (a b : nat) (l : list A) :
  firstn (a + b) l = firstn a l ++ firstn b (skipn a l).
Proof.
  revert l; induction a as [|a IH]; intros [|x l]; simpl;
    rewrite ?firstn_nil; try reflexivity.
  now rewrite IH.
Qed.

Lemma skipn_plus {A : Type} (a b : nat) (l : list A) :
  skipn (a + b) l = skipn b (skipn a l).
Proof.
  revert l; induction a as [|a IH]; intros [|x l]; simpl;
    rewrite ?skipn_nil; auto.
Qed.

Lemma skipn_nth {A : Type} (l : list A) (i : nat) (x : A) :
  nth_error l i = Some x -> skipn i l = x :: skipn (S i) l.
Proof.
  revert i; induction l as [|y l IH]; intros [|i] H; simpl in *;
    try discriminate.
  - now inversion H.
  - now apply IH.
Qed.

Lemma run_commands_in_turn
  (apply : Command -> RuntimeStack.t -> outcome RuntimeStack.t)
  (commands : list Command) (count : nat) :
  forall i s,
    (i + count <= List.length commands)%nat ->
    Cmd.run_commands apply commands count i s
    = (s' <- in_turn apply (firstn count (skipn i commands)) s ;;
       Ok ((i + count)%nat, s')).
Proof.
  induction count as [|count IH]; intros i s Hle;
    cbn [Cmd.run_commands firstn in_turn bind].
  - now rewrite Nat.add_0_r.
  - rewrite index_nonneg, Nat2Z.id by lia.
    destruct (nth_error commands i) as [c|] eqn:E.
    + rewrite (skipn_nth _ _ _ E). cbn [bind firstn in_turn].
      destruct (apply c s); cbn [bind]; try reflexivity.
      rewrite IH by lia. now rewrite Nat.add_succ_r.
    + apply nth_error_None in E. lia.
Qed.

Lemma run_lines_in_turn
  (apply : Command -> RuntimeStack.t -> outcome RuntimeStack.t)
  (commands : list Command) (line_data : list line_entry) :
  forall i s,
    (i + commands_run line_data <= List.length commands)%nat ->
    Cmd.run_lines apply commands line_data i s
    = in_turn apply (firstn (commands_run line_data) (skipn i commands)) s.
Proof.
  induction line_data as [|[[cline ccount] lineno] line_data IH];
    intros i s Hle; cbn [Cmd.run_lines commands_run fold_right] in *.
  - reflexivity.
  - fold (commands_run line_data) in *.
    rewrite run_commands_in_turn by lia.
    rewrite firstn_plus, in_turn_app.
    destruct (in_turn apply (firstn (Z.to_nat ccount) (skipn i commands)) s);
      cbn [bind]; try reflexivity.
    rewrite IH by lia. now rewrite skipn_plus.
Qed.

(** X11. When the counts of the line data add up to the number of commands,
    [execute_program] applies every command once, in the order of the
    list, and stops at the first that fails: the grouping by lines is
    for the lines it prints only, and no index is out of range. *)
Theorem execute_program_in_turn (n : nat) (s : RuntimeStack.t)
  (calltype : CallTypeEnum) (commands : list Command)
  (line_data : list line_entry) :
  commands_run line_data = List.length commands ->
  Cmd.execute_program n s calltype commands line_data
  = in_turn (Cmd.apply n calltype) commands s.
Proof.
  intros H. unfold Cmd.execute_program.
  rewrite run_lines_in_turn by (cbn; lia).
  cbn [skipn]. now rewrite H, firstn_all.
Qed.

Lemma execute_program_in_turn_sample :
  Cmd.execute_program 1 sample_stack CBV (fst declare_z) (snd declare_z)
  = in_turn (Cmd.apply 1 CBV) (fst declare_z) sample_stack.
Proof.
  apply (execute_program_in_turn 1 sample_stack CBV (fst declare_z)
           (snd declare_z)).
  reflexivity.
Defined.

Lemma commands_run_app (a b : list line_entry) :
  commands_run (a ++ b) = (commands_run a + commands_run b)%nat.
Proof.
  induction a as [|[[cline ccount] lineno] a IH]; cbn [commands_run fold_right app].
  - reflexivity.
  - fold (commands_run (a ++ b)). fold (commands_run a). rewrite IH. lia.
Qed.

Lemma commands_run_next (commands extra : list Command)
  (clines : list line_entry) (lineno : Z) :
  commands_run clines = List.length commands ->
  commands_run
    (clines ++ [(PyList.len (commands ++ extra) - 1,
                 PyList.len (commands ++ extra) - PyList.len commands,
                 lineno)])
  = List.length (commands ++ extra).
Proof.
  intros H. rewrite commands_run_app, H. cbn [commands_run fold_right].
  unfold PyList.len. rewrite !length_app. lia.
Qed.

Lemma commands_run_same (commands : list Command)
  (clines : list line_entry) (lineno : Z) :
  commands_run clines = List.length commands ->
  commands_run
    (clines ++ [(PyList.len commands - 1,
                 PyList.len commands - PyList.len commands,
                 lineno)])
  = List.length commands.
Proof.
  intros H. rewrite commands_run_app, H. cbn [commands_run fold_right]. lia.
Qed.

Lemma parse_loop_line_data (uuid4 : nat -> string) (type : bool)
  (calltype : CallTypeEnum) (n : nat) :
  forall input lineno i commands clines k commands' clines' k',
    Parse.parse_loop uuid4 n input type calltype lineno i commands clines k
    = Ok (commands', clines', k') ->
    commands_run clines = List.length commands ->
    commands_run clines' = List.length commands'.
Proof.
  induction n as [|n IH];
    intros input lineno i commands clines k commands' clines' k' H Hinv;
    [discriminate H|].
  cbn [Parse.parse_loop] in H.
  destruct (i <? PyList.len input); [|inversion H; subst; exact Hinv].
  repeat (ok_steps;
          try match goal with
              | H : match ?m with Some _ => _ | None => _ end = Ok _ |- _ =>
                  destruct m eqn:?
              end);
    match goal with
    | H : Parse.parse_loop _ _ _ _ _ _ _ _ (_ ++ _) _ = Ok _ |- _ =>
        apply IH in H; [exact H|];
        first [apply commands_run_next; exact Hinv
              | apply commands_run_same; exact Hinv]
    end.
Qed.

(** X12. The parser accounts for every command: the counts in the line data
    that [parse_input] returns add up to the number of commands it
    returns.  So [execute_program] runs the commands of a parsed text
    one after the other, each once. *)
Theorem parse_input_line_data (uuid4 : nat -> string) (input : list string)
  (type : bool) (calltype : CallTypeEnum) (lineno : Z) (k : nat)
  (commands : list Command) (clines : list line_entry) (k' : nat) :
  Parse.parse_input uuid4 input type calltype lineno k
  = Ok (commands, clines, k') ->
  commands_run clines = List.length commands
  /\ forall n s,
       Cmd.execute_program n s calltype commands clines
       = in_turn (Cmd.apply n calltype) commands s.
Proof.
  unfold Parse.parse_input. intros H.
  apply parse_loop_line_data in H; [|reflexivity].
  split; [exact H|].
  intros n s. unfold Cmd.execute_program.
  rewrite run_lines_in_turn by (cbn; lia).
  cbn [skipn]. now rewrite H, firstn_all.
Qed.

Lemma parse_input_line_data_sample :
  commands_run [(0, 1, 0); (2, 2, 1); (3, 1, 2)]
  = List.length [SCOPE_NEW; DECLARE_VAR "x"; ASSIGN_VAR "x" "1"; SCOPE_DEL false]
  /\ forall n s,
       Cmd.execute_program n s CBV
         [SCOPE_NEW; DECLARE_VAR "x"; ASSIGN_VAR "x" "1"; SCOPE_DEL false]
         [(0, 1, 0); (2, 2, 1); (3, 1, 2)]
       = in_turn (Cmd.apply n CBV)
           [SCOPE_NEW; DECLARE_VAR "x"; ASSIGN_VAR "x" "1"; SCOPE_DEL false] s.
Proof.
  apply (parse_input_line_data sample_uuid4 ["{"; "int x = 1"; "}"] static CBV
           0 0 _ _ 0%nat).
  vm_compute. reflexivity.
Defined.

(* ================================================================== *)
(** * The lines of a block *)

Lemma index_in_bounds {A : Type} (l : list A) (i : Z) (x : A) :
  0 <= i -> PyList.index l i = Ok x ->
  i < PyList.len l /\ nth_error l (Z.to_nat i) = Some x.
Proof.
  intros Hi H. rewrite index_nonneg in H by assumption.
  destruct (nth_error l (Z.to_nat i)) as [y|] eqn:E; [|discriminate H].
  inversion H; subst. split; [|reflexivity].
  assert (Z.to_nat i < List.length l)%nat by (apply nth_error_Some; congruence).
  unfold PyList.len. lia.
Qed.

Lemma index_raises {A : Type} (l : list A) (i : Z) :
  match PyList.index l i with
  | Ok _ => True
  | Raise e => e = IndexError
  | _ => False
  end.
Proof.
  unfold PyList.index. destruct (_ && _); [|reflexivity].
  now destruct (nth_error l _).
Qed.

Lemma obtain_scoped_lines_loop_lines (input : list string) (n : nat) :
  forall i scope_count lines i' lines',
    -1 <= i ->
    Parse.obtain_scoped_lines_loop n i input scope_count lines = Ok (i', lines') ->
    (scope_count <= 0 -> i' = i /\ lines' = lines)
    /\ (0 < scope_count ->
        i < i' < PyList.len input
        /\ lines' = lines ++ firstn (Z.to_nat (i' - i))
                               (skipn (Z.to_nat (i + 1)) input)
        /\ exists body last,
             lines' = body ++ [last] /\ Str.endswith last "}" = true).
Proof.
  induction n as [|n IH]; intros i scope_count lines i' lines' Hi H;
    [discriminate H|].
  cbn [Parse.obtain_scoped_lines_loop] in H.
  destruct (Z.ltb_spec 0 scope_count) as [Hpos|Hneg].
  - split; [lia|]. intros _.
    destruct (PyList.index input (i + 1)) as [l| | |] eqn:E; try discriminate H.
    cbn [bind] in H.
    destruct (index_in_bounds input (i + 1) l ltac:(lia) E) as [Hlt Hnth].
    apply (IH (i + 1) _ _ i' lines' ltac:(lia)) in H.
    destruct H as [Hstop Hgo].
    destruct (Str.endswith l "{") eqn:Eopen.
    + destruct Hgo as (Hi' & Hlines & Hlast); [lia|].
      split; [lia|]. split; [|exact Hlast].
      rewrite Hlines, <- app_assoc. f_equal.
      rewrite (skipn_nth _ _ _ Hnth).
      replace (Z.to_nat (i' - i)) with (S (Z.to_nat (i' - (i + 1)))) by lia.
      cbn [firstn app]. do 2 f_equal. f_equal. lia.
    + destruct (Str.endswith l "}") eqn:Eclose.
      * destruct (Z.ltb_spec 0 (scope_count - 1)) as [Hmore|Hdone].
        -- destruct Hgo as (Hi' & Hlines & Hlast); [lia|].
           split; [lia|]. split; [|exact Hlast].
           rewrite Hlines, <- app_assoc. f_equal.
           rewrite (skipn_nth _ _ _ Hnth).
           replace (Z.to_nat (i' - i)) with (S (Z.to_nat (i' - (i + 1)))) by lia.
           cbn [firstn app]. do 2 f_equal. f_equal. lia.
        -- destruct Hstop as [-> ->]; [lia|].
           split; [lia|]. split.
           ++ f_equal. rewrite (skipn_nth _ _ _ Hnth).
              replace (Z.to_nat (i + 1 - i)) with 1%nat by lia.
              reflexivity.
           ++ exists lines, l. auto.
      * destruct Hgo as (Hi' & Hlines & Hlast); [lia|].
        split; [lia|]. split; [|exact Hlast].
        rewrite Hlines, <- app_assoc. f_equal.
        rewrite (skipn_nth _ _ _ Hnth).
        replace (Z.to_nat (i' - i)) with (S (Z.to_nat (i' - (i + 1)))) by lia.
        cbn [firstn app]. do 2 f_equal. f_equal. lia.
  - inversion H; subst. split; [auto|lia].
Qed.

Lemma obtain_scoped_lines_loop_ends (input : list string) (n : nat) :
  forall i scope_count lines,
    -1 <= i ->
    PyList.len input - (i + 1) < Z.of_nat n -> (0 < n)%nat ->
    match Parse.obtain_scoped_lines_loop n i input scope_count lines with
    | Ok _ => True
    | Raise e => e = IndexError
    | _ => False
    end.
Proof.
  induction n as [|n IH]; intros i scope_count lines Hi Hn Hpos; [lia|].
  cbn [Parse.obtain_scoped_lines_loop].
  destruct (0 <? scope_count); [|exact I].
  pose proof (index_raises input (i + 1)) as Hidx.
  destruct (PyList.index input (i + 1)) as [l| | |] eqn:E; cbn [bind];
    try assumption.
  destruct (index_in_bounds input (i + 1) l ltac:(lia) E) as [Hlt _].
  apply IH; lia.
Qed.

(** X13. [obtain_scoped_lines] called at a line that opens a block returns
    the index of the line that closes the block and the lines after
    the opening up to that one, which ends with a closing brace.  It
    fails in one way only: when the block is not closed before the
    input ends, the read past the last line raises IndexError. *)
Theorem obtain_scoped_lines_block (i : Z) (input : list string) :
  -1 <= i ->
  match Parse.obtain_scoped_lines i input with
  | Ok (i', lines) =>
      i < i' < PyList.len input
      /\ lines = firstn (Z.to_nat (i' - i)) (skipn (Z.to_nat (i + 1)) input)
      /\ exists body last,
           lines = body ++ [last] /\ Str.endswith last "}" = true
  | Raise e => e = IndexError
  | _ => False
  end.
Proof.
  intros Hi. unfold Parse.obtain_scoped_lines.
  pose proof (obtain_scoped_lines_loop_ends input (S (List.length input))
                i 1 [] Hi) as Hends.
  pose proof (obtain_scoped_lines_loop_lines input (S (List.length input))
                i 1 []) as Hlines.
  destruct (Parse.obtain_scoped_lines_loop (S (List.length input)) i input 1 [])
    as [[i' lines]| | |].
  - destruct (Hlines i' lines Hi eq_refl) as [_ H]. apply H. lia.
  - apply Hends; unfold PyList.len; lia.
  - apply Hends; unfold PyList.len; lia.
  - apply Hends; unfold PyList.len; lia.
Qed.

Lemma obtain_scoped_lines_block_sample :
  match Parse.obtain_scoped_lines 3 if_else_lines with
  | Ok (i', lines) =>
      3 < i' < PyList.len if_else_lines
      /\ lines = firstn (Z.to_nat (i' - 3)) (skipn (Z.to_nat (3 + 1)) if_else_lines)
      /\ exists body last,
           lines = body ++ [last] /\ Str.endswith last "}" = true
  | Raise e => e = IndexError
  | _ => False
  end.
Proof. apply (obtain_scoped_lines_block 3 if_else_lines). lia. Defined.

(* ================================================================== *)
(** * The arguments of a call *)

Lemma apply_func_params_loop_deferred (params arguments : list string)
  (calltype : CallTypeEnum) :
  Cmd.is_deferred calltype = true ->
  forall idxs stack record record' stack',
    Cmd.apply_func_params_loop stack record params arguments calltype idxs
    = Ok (record', stack') ->
    stack' = stack
    /\ (forall p, (forall i, In i idxs -> nth_error params i <> Some p) ->
          Dict.get (ActivatationRecord.record record') p
          = Dict.get (ActivatationRecord.record record) p)
    /\ (NoDup idxs -> NoDup params ->
        forall i p, In i idxs -> nth_error params i = Some p ->
          exists arg text,
            nth_error arguments i = Some arg
            /\ Cmd.translate_vars arg = Ok text
            /\ Dict.get (ActivatationRecord.record record') p
               = Some (VStr text)).
Proof.
  intros Hdef.
  induction idxs as [|j idxs IH]; intros stack record record' stack' H;
    cbn [Cmd.apply_func_params_loop] in H.
  - inversion H; subst. repeat split; auto. intros _ _ i p [].
  - rewrite Hdef in H.
    rewrite index_nonneg, Nat2Z.id in H by lia.
    destruct (nth_error arguments j) as [arg|] eqn:Earg; [|discriminate H].
    cbn [bind] in H.
    destruct (Cmd.translate_vars arg) as [text| | |] eqn:Etext;
      try discriminate H.
    cbn [bind] in H.
    rewrite index_nonneg, Nat2Z.id in H by lia.
    destruct (nth_error params j) as [param|] eqn:Eparam; [|discriminate H].
    cbn [bind] in H.
    apply IH in H. destruct H as (Hstack & Hother & Hbound).
    cbn [ActivatationRecord.record ActivatationRecord.with_record] in *.
    split; [exact Hstack|]. split.
    + intros p Hp. rewrite Hother by (intros i Hi; apply Hp; now right).
      apply get_set_other. intros ->. apply (Hp j); [now left|exact Eparam].
    + intros Hnd Hndp i p Hin Hp.
      inversion Hnd as [|? ? Hnotin Hnd']; subst.
      destruct Hin as [<-|Hin].
      * exists arg, text. repeat split; auto.
        rewrite Hp in Eparam. inversion Eparam; subst param.
        rewrite Hother; [apply get_set_any|].
        intros i Hi Hpi.
        assert (i = j); [|congruence].
        apply (proj1 (NoDup_nth_error params) Hndp).
        -- apply nth_error_Some. congruence.
        -- congruence.
      * now apply Hbound.
Qed.

(** X14. Under the conventions by name, by need and by reference
    [apply_func_params] evaluates nothing: the stack is as before, and
    the record of the call binds each parameter to the text that
    [translate_vars] makes of its argument.  The parameters are taken
    to have different names. *)
Theorem deferred_arguments_are_texts (stack : RuntimeStack.t)
  (record : ActivatationRecord.t) (params arguments : list string)
  (calltype : CallTypeEnum) (record' : ActivatationRecord.t)
  (stack' : RuntimeStack.t) :
  Cmd.is_deferred calltype = true ->
  NoDup params ->
  Cmd.apply_func_params stack record params arguments calltype
  = Ok (record', stack') ->
  stack' = stack
  /\ (forall i p, nth_error params i = Some p ->
        exists arg text,
          nth_error arguments i = Some arg
          /\ Cmd.translate_vars arg = Ok text
          /\ Dict.get (ActivatationRecord.record record') p = Some (VStr text))
  /\ (forall p, ~ In p params ->
        Dict.get (ActivatationRecord.record record') p
        = Dict.get (ActivatationRecord.record record) p).
Proof.
  intros Hdef Hnd H. unfold Cmd.apply_func_params in H.
  destruct (apply_func_params_loop_deferred _ _ _ Hdef _ _ _ _ _ H)
    as (Hstack & Hother & Hbound).
  split; [exact Hstack|]. split.
  - intros i p Hp. apply Hbound; auto.
    + apply seq_NoDup.
    + unfold PyList.range. apply in_seq.
      assert (i < List.length params)%nat by (apply nth_error_Some; congruence).
      lia.
  - intros p Hp. apply Hother. intros i _ Hi.
    apply Hp. eapply nth_error_In; eauto.
Qed.

Lemma deferred_arguments_are_texts_sample :
  sample_stack = sample_stack
  /\ (forall i p, nth_error ["a"; "b"] i = Some p ->
        exists arg text,
          nth_error ["x + 1"; "2"] i = Some arg
          /\ Cmd.translate_vars arg = Ok text
          /\ Dict.get
               (ActivatationRecord.record
                  (ActivatationRecord.mk
                     [("a", VStr "stack.get_value('x') + 1"); ("b", VStr "2")]
                     CBNAME)) p
             = Some (VStr text))
  /\ (forall p, ~ In p ["a"; "b"] ->
        Dict.get
          (ActivatationRecord.record
             (ActivatationRecord.mk
                [("a", VStr "stack.get_value('x') + 1"); ("b", VStr "2")]
                CBNAME)) p
        = Dict.get (ActivatationRecord.record (ActivatationRecord.new CBNAME)) p).
Proof.
  apply (deferred_arguments_are_texts sample_stack
           (ActivatationRecord.new CBNAME) ["a"; "b"] ["x + 1"; "2"] CBNAME).
  - reflexivity.
  - repeat constructor; simpl; intuition discriminate.
  - vm_compute. reflexivity.
Defined.

(* ================================================================== *)
(** * A name in an expression *)

Local Open Scope string_scope.

Ltac each_char c H :=
  destruct c as [[] [] [] [] [] [] [] []]; intros H; vm_compute in H;
  try discriminate H; reflexivity.

Lemma elem_pattern_name_head (c : ascii) (s : string) :
  Re.is_name c = true -> Re.match_len Cmd.elem_pattern (String c s) = None.
Proof. each_char c H. Qed.

Lemma is_operator_name_head (c : ascii) (s : string) :
  Re.is_name c = true -> Cmd.is_operator (String c s) = false.
Proof. each_char c H. Qed.

Lemma lstrip_name_head (c : ascii) (s : string) :
  Re.is_name c = true -> Str.lstrip (String c s) = String c s.
Proof. each_char c H. Qed.

Lemma dquote_name_head (c : ascii) (s : string) :
  Re.is_name c = true ->
  PyEval.head_is (Ascii.eqb Str.dquote) (String c s) = false.
Proof. each_char c H. Qed.

Lemma squote_name_head (c : ascii) (s : string) :
  Re.is_name c = true ->
  PyEval.head_is (Ascii.eqb Str.squote) (String c s) = false.
Proof. each_char c H. Qed.

Lemma lex_string_name_head (c : ascii) (s : string) :
  Re.is_name c = true ->
  PyEval.lex_string Str.squote (String c s)
  = ('(a, b) <- PyEval.lex_string Str.squote s ;; Ok (String c a, b)).
Proof. each_char c H. Qed.

Lemma lex_string_names (x rest : string) :
  Str.forallb Re.is_name x = true ->
  PyEval.lex_string Str.squote (x ++ String Str.squote rest) = Ok (x, rest).
Proof.
  induction x as [|c x IH]; cbn [Str.forallb append]; intros H.
  - reflexivity.
  - apply andb_prop in H as [Hc Hx].
    rewrite lex_string_name_head, IH by assumption. reflexivity.
Qed.

Lemma search_names (r : Re.regex) (x : string) :
  (forall c s, Re.is_name c = true -> Re.match_len r (String c s) = None) ->
  Re.match_len r "" = None ->
  Str.forallb Re.is_name x = true ->
  Re.search r x = None.
Proof.
  intros Hhead Hempty.
  induction x as [|c x IH]; cbn [Str.forallb Re.search]; intros H.
  - now rewrite Hempty.
  - apply andb_prop in H as [Hc Hx].
    now rewrite Hhead, IH.
Qed.

Lemma rev_onto_forallb (p : ascii -> bool) (s acc : string) :
  Str.forallb p s = true -> Str.forallb p acc = true ->
  Str.forallb p (Str.rev_onto s acc) = true.
Proof.
  revert acc; induction s as [|c s IH]; cbn [Str.forallb Str.rev_onto];
    intros acc Hs Hacc; [assumption|].
  apply andb_prop in Hs as [Hc Hs]. apply IH; [assumption|].
  cbn [Str.forallb]. now rewrite Hc, Hacc.
Qed.

Lemma rev_onto_rev_onto (s acc acc' : string) :
  Str.rev_onto (Str.rev_onto s acc) acc' = Str.rev_onto acc (s ++ acc').
Proof.
  revert acc acc'; induction s as [|c s IH]; intros acc acc';
    cbn [Str.rev_onto append]; [reflexivity|].
  rewrite IH. reflexivity.
Qed.

Lemma string_app_empty (s : string) : s ++ "" = s.
Proof. induction s as [|c s IH]; cbn [append]; congruence. Qed.

Lemma strip_names (x : string) :
  Str.forallb Re.is_name x = true -> Str.strip x = x.
Proof.
  intros H. unfold Str.strip, Str.rstrip, Str.rev.
  assert (Hl : forall y, Str.forallb Re.is_name y = true -> Str.lstrip y = y).
  { intros [|c y] Hy; [reflexivity|].
    cbn [Str.forallb] in Hy. apply andb_prop in Hy as [Hc _].
    now apply lstrip_name_head. }
  rewrite (Hl x H), Hl by (now apply rev_onto_forallb).
  rewrite rev_onto_rev_onto. cbn [Str.rev_onto]. apply string_app_empty.
Qed.

Lemma length_append (a b : string) :
  String.length (a ++ b) = (String.length a + String.length b)%nat.
Proof. induction a as [|c a IH]; cbn [append String.length Nat.add]; congruence. Qed.

(** What [translate_vars] makes of a name. *)
Lemma translate_vars_name (x : string) :
  x <> "" -> Str.forallb Re.is_name x = true -> Str.isnumeric x = false ->
  Cmd.translate_vars x = Ok ("stack.get_value('" ++ x ++ "')").
Proof.
  intros Hne Hname Hnum.
  unfold Cmd.translate_vars, Re.re_split_keep. cbn [Re.split_fuel].
  rewrite search_names;
    [|intros; now apply elem_pattern_name_head|reflexivity|assumption].
  cbn [bind filter].
  destruct (String.eqb_spec x "") as [->|_]; [contradiction|].
  cbn [negb map String.concat]. unfold Cmd.translate_elem.
  rewrite strip_names, Hnum by assumption.
  destruct x as [|c x]; [contradiction|].
  cbn [Str.forallb] in Hname. apply andb_prop in Hname as [Hc Hx].
  now rewrite is_operator_name_head, dquote_name_head.
Qed.

Lemma lex_call_head (n : nat) (rest : string) :
  PyEval.lex (S (S (S (S n)))) ("stack.get_value(" ++ rest)
  = (ts <- PyEval.lex n rest ;;
     Ok (PyEval.TName "stack" :: PyEval.TDot :: PyEval.TName "get_value"
           :: PyEval.TLPar :: ts)%list).
Proof.
  transitivity
    (ts1 <- (ts2 <- (ts3 <- (ts4 <- PyEval.lex n rest ;;
                             Ok (PyEval.TLPar :: ts4)%list) ;;
                     Ok (PyEval.TName "get_value" :: ts3)%list) ;;
             Ok (PyEval.TDot :: ts2)%list) ;;
     Ok (PyEval.TName "stack" :: ts1)%list).
  - reflexivity.
  - destruct (PyEval.lex n rest); reflexivity.
Qed.

Lemma lex_quoted_name_head (n : nat) (c : ascii) (rest : string) :
  Re.is_name c = true ->
  PyEval.lex (S n) (String Str.squote (String c rest))
  = ('(lit, r) <- PyEval.lex_string Str.squote (String c rest) ;;
     ts <- PyEval.lex n r ;; Ok (PyEval.TStr lit :: ts)%list).
Proof. each_char c H. Qed.

Lemma lex_call_end (n : nat) :
  PyEval.lex (S (S n)) ")" = Ok [PyEval.TRPar]%list.
Proof. reflexivity. Qed.

(** The text of a call of [get_value] with a name in single quotes is
    evaluated by that call. *)
Lemma eval_get_value (x : string) (s : RuntimeStack.t) :
  x <> "" -> Str.forallb Re.is_name x = true ->
  Cmd.eval ("stack.get_value('" ++ x ++ "')") s = RuntimeStack.get_value s x.
Proof.
  intros Hne Hname.
  assert (Hlex : PyEval.lex
                   (S (String.length ("stack.get_value('" ++ x ++ "')")))
                   ("stack.get_value('" ++ x ++ "')")
                 = Ok [PyEval.TName "stack"; PyEval.TDot;
                       PyEval.TName "get_value"; PyEval.TLPar;
                       PyEval.TStr x; PyEval.TRPar]%list).
  { rewrite length_append, length_append. cbn [String.length Nat.add].
    rewrite Nat.add_succ_r, Nat.add_succ_r.
    change ("stack.get_value('" ++ x ++ "')")
      with ("stack.get_value(" ++ String Str.squote (x ++ String Str.squote ")")).
    rewrite lex_call_head.
    destruct x as [|c x]; [contradiction|].
    pose proof Hname as Hall.
    cbn [Str.forallb] in Hname. apply andb_prop in Hname as [Hc Hx].
    cbn [append]. rewrite lex_quoted_name_head by assumption.
    change (String c (x ++ String Str.squote ")"))
      with (String c x ++ String Str.squote ")").
    rewrite lex_string_names by assumption.
    cbn [bind]. rewrite lex_call_end. reflexivity. }
  unfold Cmd.eval, py_eval, PyEval.parse. rewrite Hlex.
  reflexivity.
Qed.

(** X15. A name in an expression is read from the stack.  For a text that
    is one name (letters, digits and underscores, not all digits)
    [translate_vars] gives the text of a call of [get_value] with the
    name in quotes, and [eval] of that text returns what
    [RuntimeStack.get_value] returns for the name: its value and the
    stack after the read, or the error it raises. *)
Theorem name_is_read_from_stack (x : string) (s : RuntimeStack.t) :
  x <> "" -> Str.forallb Re.is_name x = true -> Str.isnumeric x = false ->
  Cmd.translate_vars x = Ok ("stack.get_value('" ++ x ++ "')")
  /\ Cmd.eval ("stack.get_value('" ++ x ++ "')") s
     = RuntimeStack.get_value s x.
Proof.
  intros Hne Hname Hnum. split.
  - now apply translate_vars_name.
  - now apply eval_get_value.
Qed.

Lemma name_is_read_from_stack_sample :
  Cmd.translate_vars "x" = Ok ("stack.get_value('" ++ "x" ++ "')")
  /\ Cmd.eval ("stack.get_value('" ++ "x" ++ "')") sample_stack
     = RuntimeStack.get_value sample_stack "x".
Proof.
  apply (name_is_read_from_stack "x" sample_stack);
    solve [discriminate | reflexivity].
Defined.

(* ================================================================== *)
(** * The text of an integer and its value *)

Lemma uint_digits (d : Decimal.uint) :
  Str.forallb Str.is_digit (NilEmpty.string_of_uint d) = true.
Proof.
  induction d; cbn [NilEmpty.string_of_uint Str.forallb]; rewrite ?IHd;
    reflexivity.
Qed.

Lemma digits_val_acc (d : Decimal.uint) :
  forall acc,
    PyEval.digits_val (Z.pos acc) (NilEmpty.string_of_uint d)
    = Z.pos (Pos.of_uint_acc d acc).
Proof.
  induction d; intros acc;
    cbn [NilEmpty.string_of_uint PyEval.digits_val Pos.of_uint_acc];
    try reflexivity; rewrite <- IHd; f_equal;
    match goal with
    | |- context [PyEval.digit_val ?c] =>
        let v := eval vm_compute in (PyEval.digit_val c) in
        change (PyEval.digit_val c) with v
    end; lia.
Qed.

Lemma digits_val_uint (d : Decimal.uint) :
  PyEval.digits_val 0 (NilEmpty.string_of_uint d) = Z.of_N (Pos.of_uint d).
Proof.
  induction d; cbn [NilEmpty.string_of_uint PyEval.digits_val Pos.of_uint];
    try reflexivity;
    match goal with
    | |- context [PyEval.digit_val ?c] =>
        let v := eval vm_compute in (PyEval.digit_val c) in
        change (PyEval.digit_val c) with v
    end; cbn [Z.mul Z.add]; try assumption; apply digits_val_acc.
Qed.

Lemma to_uint_head (p : positive) :
  exists c s,
    NilEmpty.string_of_uint (Pos.to_uint p) = String c s
    /\ Str.is_digit c = true /\ Ascii.eqb "0" c = false.
Proof.
  pose proof (DecimalPos.Unsigned.to_uint_nonnil p) as Hnil.
  pose proof (DecimalPos.Unsigned.to_uint_nonzero p) as Hzero.
  pose proof (DecimalPos.Unsigned.to_of (Pos.to_uint p)) as Hnorm.
  rewrite DecimalPos.Unsigned.of_to in Hnorm. cbn [N.to_uint] in Hnorm.
  destruct (Pos.to_uint p) as [|u|u|u|u|u|u|u|u|u|u] eqn:E;
    try contradiction;
    try (cbn [NilEmpty.string_of_uint]; do 2 eexists; repeat split; reflexivity).
  exfalso. rewrite DecimalFacts.unorm_D0 in Hnorm.
  destruct u as [|u|u|u|u|u|u|u|u|u|u];
    try (apply Hzero; reflexivity);
    match type of Hnorm with
    | Decimal.D0 ?v = _ =>
        assert (Hlen : (Decimal.nb_digits (Decimal.unorm v)
                        <= Decimal.nb_digits v)%nat)
          by (apply DecimalFacts.nb_digits_unorm; discriminate);
        rewrite <- Hnorm in Hlen; cbn [Decimal.nb_digits] in Hlen; lia
    end.
Qed.

Lemma span_digits (s : string) :
  Str.forallb Str.is_digit s = true -> PyEval.span Str.is_digit s = (s, "").
Proof.
  induction s as [|c s IH]; cbn [Str.forallb PyEval.span]; intros H.
  - reflexivity.
  - apply andb_prop in H as [Hc Hs]. now rewrite Hc, IH.
Qed.

Lemma lex_digit_head (n : nat) (c : ascii) (s : string) :
  Str.is_digit c = true ->
  PyEval.lex (S n) (String c s)
  = (let (d, r) := PyEval.span Str.is_digit (String c s) in
     if PyEval.head_is (fun x => Re.is_name x || Ascii.eqb x ".") r
     then Unsupported
     else ts <- PyEval.lex n r ;; Ok (PyEval.TNum d :: ts)%list).
Proof. each_char c H. Qed.

Lemma lex_minus_digit (n : nat) (c : ascii) (s : string) :
  Str.is_digit c = true ->
  PyEval.lex (S n) (String "-" (String c s))
  = (ts <- PyEval.lex n (String c s) ;;
     Ok (PyEval.TOp PyEval.OMinus :: ts)%list).
Proof. each_char c H. Qed.

Lemma lex_digits (n : nat) (c : ascii) (s : string) :
  Str.forallb Str.is_digit (String c s) = true ->
  PyEval.lex (S (S n)) (String c s) = Ok [PyEval.TNum (String c s)]%list.
Proof.
  intros H. pose proof H as Hall.
  cbn [Str.forallb] in H. apply andb_prop in H as [Hc _].
  rewrite lex_digit_head, span_digits by assumption. reflexivity.
Qed.

Lemma p_sign_number (n : nat) (d : string) (e : PyEval.expr) :
  PyEval.number d = Ok e ->
  PyEval.p_sign (S (S (S n))) [PyEval.TNum d]%list = Ok (e, []%list).
Proof.
  intros H.
  change (PyEval.p_sign (S (S (S n))) [PyEval.TNum d]%list)
    with ('(a, r) <- (x <- PyEval.number d ;; Ok (x, @nil PyEval.token)) ;;
          PyEval.p_trailers (S (S n)) a r).
  rewrite H. reflexivity.
Qed.

Lemma p_sign_minus (n : nat) (ts : list PyEval.token) (e : PyEval.expr) :
  PyEval.p_sign n ts = Ok (e, []%list) ->
  PyEval.p_sign (S n) (PyEval.TOp PyEval.OMinus :: ts)%list
  = Ok (PyEval.ENeg e, []%list).
Proof.
  intros H.
  change (PyEval.p_sign (S n) (PyEval.TOp PyEval.OMinus :: ts)%list)
    with ('(x, r) <- PyEval.p_sign n ts ;; Ok (PyEval.ENeg x, r)).
  rewrite H. reflexivity.
Qed.

Lemma p_cmp_of_sign (n : nat) (ts : list PyEval.token) (e : PyEval.expr) :
  PyEval.p_sign (S n) ts = Ok (e, []%list) ->
  PyEval.p_cmp (S (S (S (S n)))) ts = Ok (e, []%list).
Proof.
  intros H.
  assert (Hprod : PyEval.p_prod (S (S n)) ts = Ok (e, []%list)).
  { change (PyEval.p_prod (S (S n)) ts)
      with ('(a, r) <- PyEval.p_sign (S n) ts ;; PyEval.p_prod_loop (S n) a r).
    rewrite H. reflexivity. }
  assert (Hsum : PyEval.p_sum (S (S (S n))) ts = Ok (e, []%list)).
  { change (PyEval.p_sum (S (S (S n))) ts)
      with ('(a, r) <- PyEval.p_prod (S (S n)) ts ;;
            PyEval.p_sum_loop (S (S n)) a r).
    rewrite Hprod. reflexivity. }
  remember (S (S (S n))) as m eqn:Em.
  cbn [PyEval.p_cmp]. rewrite Hsum. reflexivity.
Qed.

Lemma number_of_positive (p : positive) :
  PyEval.number (NilEmpty.string_of_uint (Pos.to_uint p))
  = Ok (PyEval.ENum (Z.pos p)).
Proof.
  unfold PyEval.number. rewrite digits_val_uint, DecimalPos.Unsigned.of_to.
  destruct (to_uint_head p) as (c & s & -> & _ & Hzero).
  cbn [PyEval.head_is]. rewrite Hzero. reflexivity.
Qed.

Lemma text_of_positive (p : positive) :
  NilZero.string_of_uint (Pos.to_uint p)
  = NilEmpty.string_of_uint (Pos.to_uint p).
Proof.
  pose proof (DecimalPos.Unsigned.to_uint_nonnil p) as Hnil.
  unfold NilZero.string_of_uint. now destruct (Pos.to_uint p).
Qed.

(** [eval(str(z))] is [z] for every integer [z]. *)
Lemma int_text_value (z : Z) :
  eval_no_stack (PyValue.str (VInt z)) = Ok (VInt z).
Proof.
  destruct z as [|p|p]; [reflexivity| |];
    unfold eval_no_stack, py_eval, PyEval.parse, PyValue.str, Z.to_int,
      NilZero.string_of_int;
    rewrite text_of_positive;
    pose proof (uint_digits (Pos.to_uint p)) as Hall;
    pose proof (number_of_positive p) as Hnum;
    destruct (to_uint_head p) as (c & s & E & Hc & _);
    rewrite E in *.
  - cbn [String.length]. rewrite lex_digits by assumption. cbn [bind].
    change (8 * List.length [PyEval.TNum (String c s)] + 8)%nat
      with (S (S (S (S (S (S (S (S 8))))))))%nat.
    rewrite (p_cmp_of_sign _ _ _ (p_sign_number _ _ _ Hnum)).
    reflexivity.
  - cbn [String.length]. rewrite lex_minus_digit by assumption.
    rewrite lex_digits by assumption. cbn [bind].
    change (8 * List.length
                  [PyEval.TOp PyEval.OMinus; PyEval.TNum (String c s)] + 8)%nat
      with (S (S (S (S (S (S (S (S 16))))))))%nat.
    rewrite (p_cmp_of_sign _ _ _
               (p_sign_minus _ _ _ (p_sign_number _ _ _ Hnum))).
    reflexivity.
Qed.

Lemma set_loop_found (name : string) (value w : value) (idxs : list Z) :
  assigned value = Ok w ->
  forall s,
    (forall i, In i idxs -> 0 <= i < PyList.len (RuntimeStack.records s)) ->
    none_visible s name None idxs = false ->
    exists s', RuntimeStack.set_loop s name value false None idxs = Ok (true, s').
Proof.
  intros Hw. induction idxs as [|i idxs IH]; intros s Hin Hvis.
  - discriminate Hvis.
  - cbn [none_visible forallb] in Hvis. cbn [RuntimeStack.set_loop].
    destruct (Hin i (or_introl eq_refl)) as [Hlo Hhi].
    rewrite index_nonneg in * by assumption.
    destruct (nth_error (RuntimeStack.records s) (Z.to_nat i)) as [r|] eqn:E.
    + cbn [bind]. unfold ActivatationRecord.set_value. cbn [name_given].
      unfold visible in Hvis. cbn [name_given] in Hvis.
      destruct (Dict.mem (ActivatationRecord.record r) name).
      * unfold ActivatationRecord.assign. unfold assigned in Hw.
        rewrite Hw. cbn [bind]. eauto.
      * cbn [bind]. cbn [negb andb] in Hvis.
        apply IH; [|exact Hvis]. intros j Hj. apply Hin. now right.
    + apply nth_error_None in E. unfold PyList.len in Hhi. lia.
Qed.

(** X16. An assignment of an integer is read back.  Outside a call under
    static scoping, when the expression of an assignment has the
    integer [z] for its value and some record binds the name,
    [assign_variable] succeeds and the name then reads as [z]: the
    text that [str] makes of [z] on the way is evaluated back to [z]
    when the record is written.  The integers of the model have no
    bound; the interpreter refuses to convert one of more than 4300
    digits to or from text, so [z] is taken below that. *)
Theorem assign_variable_stores_int (s : RuntimeStack.t) (name value expr : string)
  (z : Z) (s1 : RuntimeStack.t) :
  Z.abs z < 10 ^ 4300 ->
  Cmd.translate_vars value = Ok expr ->
  Cmd.eval expr s = Ok (VInt z, s1) ->
  static_active s1 = false ->
  unresolved s1 name = false ->
  exists s2,
    Cmd.assign_variable s name value = Ok s2
    /\ RuntimeStack.get_value s2 name = Ok (VInt z, s2).
Proof.
  intros _ Htext Hval Hdyn Hvis.
  unfold unresolved in Hvis. rewrite Hdyn in Hvis.
  pose proof (int_text_value z) as Hback.
  assert (Hin : forall i,
             In i (PyList.range_down
                     (PyList.len (RuntimeStack.records s1) - 1) (-1)) ->
             0 <= i < PyList.len (RuntimeStack.records s1))
    by (intros i Hi; apply range_down_bounds in Hi; lia).
  destruct (set_loop_found name (VStr (PyValue.str (VInt z))) (VInt z) _
              Hback s1 Hin Hvis) as [s2 Hset].
  exists s2. split.
  - unfold Cmd.assign_variable. rewrite Htext. cbn [bind].
    rewrite Hval. cbn [bind].
    rewrite set_value_top_down by assumption. rewrite Hset. reflexivity.
  - destruct (set_loop_true_at _ _ _ _ _ _ _ Hset) as (j & x & _ & Hs2).
    rewrite get_value_top_down by (subst s2; exact Hdyn).
    replace (PyList.len (RuntimeStack.records s2))
      with (PyList.len (RuntimeStack.records s1))
      by (subst s2; cbn; now rewrite len_update).
    apply (write_then_read_loop name (VStr (PyValue.str (VInt z))) (VInt z) _
             Hback eq_refl eq_refl s1);
      [intros i Hi; apply Hin; exact Hi|apply range_down_nodup|exact Hset].
Qed.

Lemma assign_variable_stores_int_sample :
  exists s2,
    Cmd.assign_variable sample_stack "x" "y + 3" = Ok s2
    /\ RuntimeStack.get_value s2 "x" = Ok (VInt 5, s2).
Proof.
  apply (assign_variable_stores_int sample_stack "x" "y + 3"
           "stack.get_value('y') + 3" 5 sample_stack);
    vm_compute; reflexivity.
Defined.

(* ================================================================== *)
(** * A number in an expression *)

Lemma digit_is_name (c : ascii) : Str.is_digit c = true -> Re.is_name c = true.
Proof. revert c. intros c. each_char c H. Qed.

Lemma digit_is_numeric (c : ascii) :
  Str.is_digit c = true -> Str.is_numeric_char c = true.
Proof. unfold Str.is_numeric_char. now intros ->. Qed.

Lemma forallb_weaken (p q : ascii -> bool) (s : string) :
  (forall c, p c = true -> q c = true) ->
  Str.forallb p s = true -> Str.forallb q s = true.
Proof.
  intros Hpq. induction s as [|c s IH]; cbn [Str.forallb]; intros H.
  - reflexivity.
  - apply andb_prop in H as [Hc Hs]. now rewrite (Hpq c Hc), IH.
Qed.

Lemma translate_vars_digits (d : string) :
  d <> "" -> Str.forallb Str.is_digit d = true -> Cmd.translate_vars d = Ok d.
Proof.
  intros Hne Hdig.
  unfold Cmd.translate_vars, Re.re_split_keep. cbn [Re.split_fuel].
  rewrite search_names;
    [|intros; now apply elem_pattern_name_head|reflexivity
     |now apply (forallb_weaken Str.is_digit); [apply digit_is_name|]].
  cbn [bind filter].
  destruct (String.eqb_spec d "") as [->|_]; [contradiction|].
  cbn [negb map String.concat]. unfold Cmd.translate_elem, Str.isnumeric.
  destruct (String.eqb_spec d "") as [->|_]; [contradiction|].
  rewrite (forallb_weaken Str.is_digit Str.is_numeric_char d digit_is_numeric Hdig).
  now rewrite orb_true_r.
Qed.

Lemma p_sign_number_raises (n : nat) (d : string) (e : exn) :
  PyEval.number d = Raise e ->
  PyEval.p_sign (S (S (S n))) [PyEval.TNum d]%list = Raise e.
Proof.
  intros H.
  change (PyEval.p_sign (S (S (S n))) [PyEval.TNum d]%list)
    with ('(a, r) <- (x <- PyEval.number d ;; Ok (x, @nil PyEval.token)) ;;
          PyEval.p_trailers (S (S n)) a r).
  rewrite H. reflexivity.
Qed.

Lemma p_cmp_of_sign_raises (n : nat) (ts : list PyEval.token) (e : exn) :
  PyEval.p_sign (S n) ts = Raise e ->
  PyEval.p_cmp (S (S (S (S n)))) ts = Raise e.
Proof.
  intros H.
  assert (Hprod : PyEval.p_prod (S (S n)) ts = Raise e).
  { change (PyEval.p_prod (S (S n)) ts)
      with ('(a, r) <- PyEval.p_sign (S n) ts ;; PyEval.p_prod_loop (S n) a r).
    rewrite H. reflexivity. }
  assert (Hsum : PyEval.p_sum (S (S (S n))) ts = Raise e).
  { change (PyEval.p_sum (S (S (S n))) ts)
      with ('(a, r) <- PyEval.p_prod (S (S n)) ts ;;
            PyEval.p_sum_loop (S (S n)) a r).
    rewrite Hprod. reflexivity. }
  remember (S (S (S n))) as m eqn:Em.
  cbn [PyEval.p_cmp]. rewrite Hsum. reflexivity.
Qed.

(** X17. A number in an expression is a decimal literal of Python.  For a
    text of decimal digits [translate_vars] returns the text itself.
    Its [eval] is the number the digits denote and changes nothing;
    but a text that starts with 0 and has another digit than 0 is not
    a literal of Python 3, and its [eval] raises SyntaxError.  The
    text has at most the 4300 digits the interpreter converts. *)
Theorem number_is_a_literal (d : string) (s : RuntimeStack.t) :
  d <> "" -> Str.forallb Str.is_digit d = true ->
  (String.length d <= 4300)%nat ->
  Cmd.translate_vars d = Ok d
  /\ Cmd.eval d s
     = if PyEval.head_is (Ascii.eqb "0") d
          && negb (Str.forallb (Ascii.eqb "0") d)
       then Raise SyntaxError
       else Ok (VInt (PyEval.digits_val 0 d), s).
Proof.
  intros Hne Hdig _. split; [now apply translate_vars_digits|].
  unfold Cmd.eval, py_eval, PyEval.parse.
  destruct d as [|c d]; [contradiction|].
  cbn [String.length]. rewrite lex_digits by assumption. cbn [bind].
  change (8 * List.length [PyEval.TNum (String c d)] + 8)%nat
    with (S (S (S (S (S (S (S (S 8))))))))%nat.
  destruct (PyEval.head_is (Ascii.eqb "0") (String c d)
            && negb (Str.forallb (Ascii.eqb "0") (String c d))) eqn:E.
  - rewrite (p_cmp_of_sign_raises _ _ SyntaxError); [reflexivity|].
    apply p_sign_number_raises. unfold PyEval.number. now rewrite E.
  - rewrite (p_cmp_of_sign _ _ (PyEval.ENum (PyEval.digits_val 0 (String c d))));
      [reflexivity|].
    apply p_sign_number. unfold PyEval.number. now rewrite E.
Qed.

Lemma number_is_a_literal_sample :
  Cmd.translate_vars "007" = Ok "007"
  /\ Cmd.eval "007" sample_stack
     = if PyEval.head_is (Ascii.eqb "0") "007"
          && negb (Str.forallb (Ascii.eqb "0") "007")
       then Raise SyntaxError
       else Ok (VInt (PyEval.digits_val 0 "007"), sample_stack).
Proof.
  apply (number_is_a_literal "007" sample_stack);
    solve [discriminate | reflexivity | simpl; lia].
Defined.

(* ================================================================== *)
(** * An expression without a call *)

Lemma append_assoc (a b c : string) : (a ++ b) ++ c = a ++ b ++ c.
Proof. induction a as [|x a IH]; cbn [append]; congruence. Qed.

(** What a match hands to its continuation is what is left of the text
    after a prefix. *)
Lemma rmatch_rest {A : Type} (r : Re.regex) :
  forall (s : string) (k : string -> option A) (x : A),
    Re.rmatch r s k = Some x ->
    exists pre rest, s = pre ++ rest /\ k rest = Some x.
Proof.
  induction r as [|p|a IHa b IHb|a IHa b IHb|a IHa]; intros s k x H;
    cbn [Re.rmatch] in H.
  - exists "", s. auto.
  - destruct s as [|c s]; [discriminate H|].
    destruct (p c); [|discriminate H].
    exists (String c ""), s. auto.
  - apply IHa in H. destruct H as (pre1 & s1 & -> & H).
    apply IHb in H. destruct H as (pre2 & rest & -> & H).
    exists (pre1 ++ pre2), rest. split; [now rewrite append_assoc|exact H].
  - destruct (Re.rmatch a s k) eqn:E.
    + inversion H; subst. now apply IHa in E.
    + now apply IHb in H.
  - remember (String.length s) as n eqn:En in H. clear En.
    revert s H. induction n as [|n IHn]; intros s H.
    + exists "", s. auto.
    + match type of H with
      | match ?m with Some _ => _ | None => _ end = _ => destruct m eqn:E
      end.
      * inversion H; subst. apply IHa in E.
        destruct E as (pre1 & s1 & -> & E).
        destruct (String.length s1 <? String.length (pre1 ++ s1))%nat;
          [|discriminate E].
        apply IHn in E. destruct E as (pre2 & rest & -> & E).
        exists (pre1 ++ pre2), rest.
        split; [now rewrite append_assoc|exact E].
      * exists "", s. auto.
Qed.

Lemma no_paren_app (a b : string) :
  no_paren (a ++ b) = no_paren a && no_paren b.
Proof.
  unfold no_paren. induction a as [|c a IH]; cbn [append Str.forallb].
  - reflexivity.
  - now rewrite IH, andb_assoc.
Qed.

Lemma no_paren_drop (n : nat) (s : string) :
  no_paren s = true -> no_paren (Str.drop n s) = true.
Proof.
  unfold no_paren. revert s; induction n as [|n IH]; intros [|c s] H;
    cbn [Str.drop]; auto.
  cbn [Str.forallb] in H. apply andb_prop in H as [_ H]. auto.
Qed.

Lemma call_head_needs_paren (s : string) :
  no_paren s = true -> Re.match_len Parse.call_head s = None.
Proof.
  intros Hno. unfold Re.match_len.
  destruct (Re.rmatch Parse.call_head s _) as [n|] eqn:E; [|reflexivity].
  exfalso.
  change Parse.call_head
    with (Re.Cat (Re.Plus Re.name) (Re.Cat (Re.Star Re.ws) (Re.Chr "(")))
    in E.
  change (Re.rmatch (Re.Cat ?a ?b) s ?k)
    with (Re.rmatch a s (fun s1 => Re.rmatch b s1 k)) in E.
  apply rmatch_rest in E. destruct E as (pre1 & s1 & -> & E).
  change (Re.rmatch (Re.Cat ?a ?b) s1 ?k)
    with (Re.rmatch a s1 (fun s2 => Re.rmatch b s2 k)) in E.
  apply rmatch_rest in E. destruct E as (pre2 & s2 & -> & E).
  rewrite !no_paren_app in Hno.
  apply andb_prop in Hno as [_ Hno]. apply andb_prop in Hno as [_ Hno].
  cbn [Re.rmatch Re.Chr] in E.
  destruct s2 as [|c s2]; [discriminate E|].
  unfold no_paren in Hno. cbn [Str.forallb] in Hno.
  apply andb_prop in Hno as [Hc _].
  rewrite Ascii.eqb_sym in Hc.
  destruct (Ascii.eqb "(" c); discriminate.
Qed.

Lemma scan_calls_no_paren (uuid4 : nat -> string) (value : string) :
  no_paren value = true ->
  forall n i k calls,
    (String.length value - i < n)%nat ->
    Parse.scan_calls uuid4 n value i k calls = Ok (calls, k).
Proof.
  intros Hno. induction n as [|n IH]; intros i k calls Hn; [lia|].
  cbn [Parse.scan_calls].
  destruct (Nat.ltb_spec i (String.length value)); [|reflexivity].
  rewrite call_head_needs_paren by now apply no_paren_drop.
  apply IH. lia.
Qed.

(** X18. An expression without an opening parenthesis has no call:
    [collect_func_calls] returns it unchanged, with no call data, and
    draws no uuid. *)
Theorem no_paren_no_call (uuid4 : nat -> string) (value : string) (k : nat) :
  no_paren value = true ->
  Parse.collect_func_calls uuid4 value k = Ok (value, []%list, k).
Proof.
  intros Hno. unfold Parse.collect_func_calls.
  rewrite scan_calls_no_paren by (assumption || lia). reflexivity.
Qed.

Lemma no_paren_no_call_sample :
  Parse.collect_func_calls sample_uuid4 "x + 1" 0 = Ok ("x + 1", []%list, 0%nat).
Proof. apply (no_paren_no_call sample_uuid4 "x + 1" 0). reflexivity. Defined.

(* ================================================================== *)
(** * The number of arguments of a call *)

Lemma apply_func_params_loop_bound (params arguments : list string)
  (calltype : CallTypeEnum) (idxs : list nat) :
  forall stack record record' stack',
    Cmd.apply_func_params_loop stack record params arguments calltype idxs
    = Ok (record', stack') ->
    forall i, In i idxs -> (i < List.length arguments)%nat.
Proof.
  induction idxs as [|j idxs IH]; intros stack record record' stack' H i Hin;
    [contradiction|].
  cbn [Cmd.apply_func_params_loop] in H.
  rewrite index_nonneg, Nat2Z.id in H by lia.
  destruct (nth_error arguments j) as [arg|] eqn:E; [|discriminate H].
  cbn [bind] in H. ok_steps;
    (destruct Hin as [<-|Hin];
     [apply nth_error_Some; congruence|eapply IH; eauto]).
Qed.

Lemma apply_func_params_loop_surplus (params arguments extra : list string)
  (calltype : CallTypeEnum) (idxs : list nat) :
  (forall i, In i idxs -> (i < List.length arguments)%nat) ->
  forall stack record,
    Cmd.apply_func_params_loop stack record params (arguments ++ extra)%list
      calltype idxs
    = Cmd.apply_func_params_loop stack record params arguments calltype idxs.
Proof.
  induction idxs as [|j idxs IH]; intros Hin stack record;
    cbn [Cmd.apply_func_params_loop]; [reflexivity|].
  rewrite index_app_left
    by (unfold PyList.len; specialize (Hin j (or_introl eq_refl)); lia).
  destruct (PyList.index arguments (Z.of_nat j)); cbn [bind]; try reflexivity.
  destruct (Cmd.translate_vars a); cbn [bind]; try reflexivity.
  destruct (if Cmd.is_deferred calltype then Ok (VStr a0, stack)
            else Cmd.eval a0 stack) as [[v s1]| | |]; cbn [bind];
    try reflexivity.
  destruct (PyList.index params (Z.of_nat j)); cbn [bind]; try reflexivity.
  apply IH. intros i Hi. apply Hin. now right.
Qed.

(** X19. The number of arguments is checked on one side only.  A call with
    fewer arguments than parameters never gets past
    [apply_func_params]; arguments beyond the parameters are ignored,
    whatever they are: they are not translated, not evaluated, and
    change nothing of the result. *)
Theorem surplus_arguments_are_ignored (stack : RuntimeStack.t)
  (record : ActivatationRecord.t) (params arguments extra : list string)
  (calltype : CallTypeEnum) :
  (forall record' stack',
     Cmd.apply_func_params stack record params arguments calltype
     = Ok (record', stack') ->
     (List.length params <= List.length arguments)%nat)
  /\ ((List.length params <= List.length arguments)%nat ->
      Cmd.apply_func_params stack record params (arguments ++ extra)%list
        calltype
      = Cmd.apply_func_params stack record params arguments calltype).
Proof.
  unfold Cmd.apply_func_params, PyList.range. split.
  - intros record' stack' H.
    destruct params as [|p params]; [cbn; lia|].
    pose proof (apply_func_params_loop_bound _ _ _ _ _ _ _ _ H
                  (List.length params)) as Hb.
    cbn [List.length] in *. apply Hb. apply in_seq. lia.
  - intros Hle. apply apply_func_params_loop_surplus.
    intros i Hi. apply in_seq in Hi. lia.
Qed.

Lemma surplus_arguments_are_ignored_sample :
  Cmd.apply_func_params sample_stack (ActivatationRecord.new CBV) ["a"]
    (["x + 1"] ++ ["y"; "(("])%list CBV
  = Cmd.apply_func_params sample_stack (ActivatationRecord.new CBV) ["a"]
      ["x + 1"] CBV.
Proof.
  apply (surplus_arguments_are_ignored sample_stack
           (ActivatationRecord.new CBV) ["a"] ["x + 1"] ["y"; "(("] CBV).
  simpl. lia.
Defined.

(* ================================================================== *)
(** * The result of a call in an expression *)

Lemma star_class_step {A : Type} (p : ascii -> bool) (c : ascii) (s : string)
  (k : string -> option A) :
  p c = true ->
  Re.rmatch (Re.Star (Re.Cls p)) (String c s) k
  = match Re.rmatch (Re.Star (Re.Cls p)) s k with
    | Some x => Some x
    | None => k (String c s)
    end.
Proof.
  intros Hp. cbn [Re.rmatch String.length]. rewrite Hp.
  now rewrite (proj2 (Nat.ltb_lt _ _) (Nat.lt_succ_diag_r (String.length s))).
Qed.

Lemma literal_char_facts (c : ascii) :
  literal_char c = true ->
  Ascii.eqb Str.dquote c = false
  /\ negb (Ascii.eqb c Str.newline) = true.
Proof.
  destruct c as [[] [] [] [] [] [] [] []]; intros H; vm_compute in H;
    try discriminate H; repeat split; reflexivity.
Qed.

(** The greedy [.+] goes to the last double quote. *)
Lemma star_any_quote {A : Type} (u : string) (k : string -> option A) (x : A) :
  Str.forallb literal_char u = true ->
  k "" = None -> k (String Str.dquote "") = Some x ->
  Re.rmatch (Re.Star Re.any) (u ++ String Str.dquote "") k = Some x.
Proof.
  intros Hu Hempty Hquote. unfold Re.any.
  induction u as [|c u IH]; cbn [append Str.forallb] in *.
  - rewrite star_class_step by reflexivity.
    cbn [Re.rmatch String.length]. now rewrite Hempty.
  - apply andb_prop in Hu as [Hc Hu].
    rewrite star_class_step by (now apply literal_char_facts).
    now rewrite IH.
Qed.

Lemma lex_string_literal_head (c : ascii) (s : string) :
  literal_char c = true ->
  PyEval.lex_string Str.dquote (String c s)
  = ('(a, b) <- PyEval.lex_string Str.dquote s ;; Ok (String c a, b)).
Proof. each_char c H. Qed.

Lemma lex_string_literal (u rest : string) :
  Str.forallb literal_char u = true ->
  PyEval.lex_string Str.dquote (u ++ String Str.dquote rest) = Ok (u, rest).
Proof.
  induction u as [|c u IH]; cbn [Str.forallb append]; intros H.
  - reflexivity.
  - apply andb_prop in H as [Hc Hu].
    rewrite lex_string_literal_head, IH by assumption. reflexivity.
Qed.

Lemma take_all (s : string) : Str.take (String.length s) s = s.
Proof. induction s as [|c s IH]; cbn [String.length Str.take]; congruence. Qed.

Lemma drop_all (s : string) : Str.drop (String.length s) s = "".
Proof. induction s as [|c s IH]; cbn [String.length Str.drop]; auto. Qed.

Lemma quoted_matches (u : string) :
  u <> "" -> Str.forallb literal_char u = true ->
  Re.match_len Cmd.elem_pattern (Str.quoted u)
  = Some (String.length (Str.quoted u)).
Proof.
  intros Hne Hu. destruct u as [|c u]; [contradiction|].
  cbn [Str.forallb] in Hu. apply andb_prop in Hu as [Hc Hu].
  destruct (literal_char_facts c Hc) as [_ Hnl].
  unfold Re.match_len, Str.quoted.
  set (k := fun rest : string =>
              Some (String.length
                      (String Str.dquote
                         (String c u ++ String Str.dquote ""))
                    - String.length rest)%nat).
  change Cmd.elem_pattern
    with (Re.Alt
            (Re.Cat (Re.Chr Str.dquote)
               (Re.Cat (Re.Cat Re.any (Re.Star Re.any)) (Re.Chr Str.dquote)))
            (Re.alt
               [Re.Chr "("; Re.Chr ")";
                Re.seq [Re.Opt Re.ws; Re.Chr "+"; Re.Opt Re.ws];
                Re.seq [Re.Opt Re.ws; Re.Chr "-"; Re.Opt Re.ws];
                Re.seq [Re.Opt Re.ws; Re.Chr "*"; Re.Opt Re.ws];
                Re.seq [Re.Opt Re.ws; Re.Chr "/"; Re.Opt Re.ws]]%list)).
  change (Re.rmatch (Re.Alt ?a ?b) ?s k)
    with (match Re.rmatch a s k with
          | Some x => Some x
          | None => Re.rmatch b s k
          end).
  assert (H : Re.rmatch
                (Re.Cat (Re.Chr Str.dquote)
                   (Re.Cat (Re.Cat Re.any (Re.Star Re.any))
                      (Re.Chr Str.dquote)))
                (String Str.dquote (String c u ++ String Str.dquote "")) k
              = Some (String.length
                        (String Str.dquote
                           (String c u ++ String Str.dquote "")))).
  { change (Re.rmatch
              (Re.Cat (Re.Chr Str.dquote)
                 (Re.Cat (Re.Cat Re.any (Re.Star Re.any))
                    (Re.Chr Str.dquote)))
              (String Str.dquote (String c u ++ String Str.dquote "")) k)
      with (if negb (Ascii.eqb c Str.newline)
            then Re.rmatch (Re.Star Re.any) (u ++ String Str.dquote "")
                   (fun s1 => Re.rmatch (Re.Chr Str.dquote) s1 k)
            else None).
    rewrite Hnl. apply star_any_quote; [assumption|reflexivity|].
    cbn [Re.rmatch Re.Chr]. unfold k. cbn [String.length].
    now rewrite Nat.sub_0_r. }
  now rewrite H.
Qed.

Lemma rev_onto_app (a b acc : string) :
  Str.rev_onto (a ++ b) acc = Str.rev_onto b (Str.rev_onto a acc).
Proof.
  revert acc; induction a as [|c a IH]; intros acc; cbn [append Str.rev_onto];
    auto.
Qed.

Lemma strip_quoted (u : string) : Str.strip (Str.quoted u) = Str.quoted u.
Proof.
  unfold Str.strip, Str.rstrip, Str.rev, Str.quoted.
  change (Str.lstrip (String Str.dquote (u ++ String Str.dquote "")))
    with (String Str.dquote (u ++ String Str.dquote "")).
  cbn [Str.rev_onto]. rewrite rev_onto_app. cbn [Str.rev_onto].
  change (Str.lstrip (String Str.dquote ?r)) with (String Str.dquote r).
  cbn [Str.rev_onto]. rewrite rev_onto_rev_onto. cbn [Str.rev_onto append].
  reflexivity.
Qed.

Lemma search_at_start (r : Re.regex) (s : string) (n : nat) :
  Re.match_len r s = Some n ->
  Re.search r s = Some ("", Str.take n s, Str.drop n s).
Proof. intros H. destruct s; cbn [Re.search]; now rewrite H. Qed.

(** What [translate_vars] makes of the quoted uuid of a call. *)
Lemma translate_vars_quoted (u : string) :
  u <> "" -> Str.forallb literal_char u = true ->
  Cmd.translate_vars (Str.quoted u)
  = Ok ("stack.func_ret(" ++ Str.quoted u ++ ")").
Proof.
  intros Hne Hu.
  unfold Cmd.translate_vars, Re.re_split_keep.
  cbn [Re.split_fuel].
  rewrite (search_at_start _ _ _ (quoted_matches u Hne Hu)).
  rewrite take_all, drop_all.
  change (Str.quoted u =? "") with false. cbv iota.
  change (String.length (Str.quoted u))
    with (S (String.length (u ++ String Str.dquote ""))).
  cbn [Re.split_fuel]. change (Re.search Cmd.elem_pattern "") with
    (@None (string * string * string)).
  cbn [bind filter String.eqb negb].
  change (Str.quoted u =? "") with false.
  cbn [negb map String.concat]. unfold Cmd.translate_elem.
  rewrite strip_quoted.
  change (Cmd.is_operator (Str.quoted u)) with false.
  change (Str.isnumeric (Str.quoted u)) with false.
  reflexivity.
Qed.

Lemma lex_func_ret_head (n : nat) (rest : string) :
  PyEval.lex (S (S (S (S n)))) ("stack.func_ret(" ++ rest)
  = (ts <- PyEval.lex n rest ;;
     Ok (PyEval.TName "stack" :: PyEval.TDot :: PyEval.TName "func_ret"
           :: PyEval.TLPar :: ts)%list).
Proof.
  transitivity
    (ts1 <- (ts2 <- (ts3 <- (ts4 <- PyEval.lex n rest ;;
                             Ok (PyEval.TLPar :: ts4)%list) ;;
                     Ok (PyEval.TName "func_ret" :: ts3)%list) ;;
             Ok (PyEval.TDot :: ts2)%list) ;;
     Ok (PyEval.TName "stack" :: ts1)%list).
  - reflexivity.
  - destruct (PyEval.lex n rest); reflexivity.
Qed.

Lemma lex_literal_head (n : nat) (c : ascii) (rest : string) :
  literal_char c = true ->
  PyEval.lex (S n) (String Str.dquote (String c rest))
  = ('(lit, r) <- PyEval.lex_string Str.dquote (String c rest) ;;
     ts <- PyEval.lex n r ;; Ok (PyEval.TStr lit :: ts)%list).
Proof. each_char c H. Qed.

(** The text of a call of [func_ret] with a uuid in double quotes is
    evaluated by that call. *)
Lemma eval_func_ret (u : string) (s : RuntimeStack.t) :
  u <> "" -> Str.forallb literal_char u = true ->
  Cmd.eval ("stack.func_ret(" ++ Str.quoted u ++ ")") s
  = (v <- RuntimeStack.func_ret s u ;; Ok (v, s)).
Proof.
  intros Hne Hu.
  assert (Hlex : PyEval.lex
                   (S (String.length ("stack.func_ret(" ++ Str.quoted u ++ ")")))
                   ("stack.func_ret(" ++ Str.quoted u ++ ")")
                 = Ok [PyEval.TName "stack"; PyEval.TDot;
                       PyEval.TName "func_ret"; PyEval.TLPar;
                       PyEval.TStr u; PyEval.TRPar]%list).
  { assert (Hq : Str.quoted u ++ ")"
                 = String Str.dquote (u ++ String Str.dquote ")")).
    { unfold Str.quoted. cbn [append]. now rewrite append_assoc. }
    rewrite Hq, length_append. cbn [String.length Nat.add].
    rewrite lex_func_ret_head.
    destruct u as [|c u]; [contradiction|].
    pose proof Hu as Hall.
    cbn [Str.forallb] in Hu. apply andb_prop in Hu as [Hc Hu].
    cbn [append]. rewrite lex_literal_head by assumption.
    change (String c (u ++ String Str.dquote ")"))
      with (String c u ++ String Str.dquote ")").
    rewrite lex_string_literal by assumption.
    cbn [bind]. rewrite lex_call_end. reflexivity. }
  unfold Cmd.eval, py_eval, PyEval.parse. rewrite Hlex.
  reflexivity.
Qed.

(** X20. The result of a call in an expression is read from the store.  For
    the quoted uuid that [collect_func_calls] puts in place of a call
    [translate_vars] gives the text of a call of [func_ret], and [eval]
    of that text is what [func_ret] returns for the uuid, with the
    stack as it is; once [store_func_returns] has stored a return
    value under the uuid, that is the value. *)
Theorem call_result_is_read_from_store (u : string) (s : RuntimeStack.t) :
  u <> "" -> Str.forallb literal_char u = true ->
  Cmd.translate_vars (Str.quoted u)
  = Ok ("stack.func_ret(" ++ Str.quoted u ++ ")")
  /\ Cmd.eval ("stack.func_ret(" ++ Str.quoted u ++ ")") s
     = (v <- RuntimeStack.func_ret s u ;; Ok (v, s))
  /\ Cmd.eval ("stack.func_ret(" ++ Str.quoted u ++ ")")
       (RuntimeStack.store_func_returns s u)
     = Ok (RuntimeStack.ret s, RuntimeStack.store_func_returns s u).
Proof.
  intros Hne Hu. split; [now apply translate_vars_quoted|].
  split; [now apply eval_func_ret|].
  rewrite eval_func_ret by assumption.
  unfold RuntimeStack.func_ret, RuntimeStack.store_func_returns.
  cbn [RuntimeStack.func_returns]. now rewrite get_set_any.
Qed.

Lemma call_result_is_read_from_store_sample :
  Cmd.translate_vars (Str.quoted "u")
  = Ok ("stack.func_ret(" ++ Str.quoted "u" ++ ")")
  /\ Cmd.eval ("stack.func_ret(" ++ Str.quoted "u" ++ ")") sample_stack
     = (v <- RuntimeStack.func_ret sample_stack "u" ;; Ok (v, sample_stack))
  /\ Cmd.eval ("stack.func_ret(" ++ Str.quoted "u" ++ ")")
       (RuntimeStack.store_func_returns sample_stack "u")
     = Ok (RuntimeStack.ret sample_stack,
           RuntimeStack.store_func_returns sample_stack "u").
Proof.
  apply (call_result_is_read_from_store "u" sample_stack);
    solve [discriminate | reflexivity].
Defined.

(* ================================================================== *)
(** * Instances of the lemmas on call by need and on the calls of an
    expression *)

Lemma cbneed_memoizes_sample :
  ActivatationRecord.get_value
    (ActivatationRecord.mk [("p", VStr "2 + 3")]%list CBNEED) "p" None
  = Ok (VInt 5, ActivatationRecord.mk [("p", VInt 5)]%list CBNEED)
  /\ ActivatationRecord.get_value
       (ActivatationRecord.mk [("p", VInt 5)]%list CBNEED) "p" None
     = Ok (VInt 5, ActivatationRecord.mk [("p", VInt 5)]%list CBNEED).
Proof.
  apply (cbneed_memoizes
           (ActivatationRecord.mk [("p", VStr "2 + 3")]%list CBNEED)
           "p" "2 + 3" (VInt 5));
    reflexivity.
Defined.

Lemma collect_func_calls_sorted_sample :
  StronglySorted by_end
    [("g(1)", sample_uuid4 1, 2%nat, 6%nat);
     (("f(" ++ Str.quoted (sample_uuid4 1) ++ ")")%string, sample_uuid4 0,
      0%nat, 7%nat)]%list.
Proof.
  apply (collect_func_calls_sorted sample_uuid4 "f(g(1))" 0
           (Str.quoted (sample_uuid4 0)) _ 2).
  vm_compute. reflexivity.
Defined.

Lemma gen_func_call_commands_stores_sample :
  stored_uuids
    [FUNC_CALL "g" ["1"]; STORE_FUNC_RET "u"; VALUE_RESULT "g" ["1"];
     SCOPE_DEL true]%list
  = map call_uuid [("g(1)", "u", 2%nat, 6%nat)]%list.
Proof.
  apply (gen_func_call_commands_stores [("g(1)", "u", 2%nat, 6%nat)]%list).
  vm_compute. reflexivity.
Defined.

(* ================================================================== *)
(** * The records across a call *)

Lemma apply_func_params_loop_count (params arguments : list string)
  (calltype : CallTypeEnum) (idxs : list nat) :
  forall stack record record' stack',
    Cmd.apply_func_params_loop stack record params arguments calltype idxs
    = Ok (record', stack') ->
    record_count stack' = record_count stack.
Proof.
  induction idxs as [|j idxs IH]; intros stack record record' stack' H;
    cbn [Cmd.apply_func_params_loop] in H.
  - now inversion H.
  - destruct (PyList.index arguments (Z.of_nat j)) as [arg| | |];
      try discriminate H.
    cbn [bind] in H.
    destruct (Cmd.translate_vars arg) as [text| | |]; try discriminate H.
    cbn [bind] in H.
    destruct (Cmd.is_deferred calltype).
    + cbn [bind] in H.
      destruct (PyList.index params (Z.of_nat j)); try discriminate H.
      cbn [bind] in H. now apply IH in H.
    + destruct (Cmd.eval text stack) as [[v s1]| | |] eqn:E;
        try discriminate H.
      cbn [bind] in H.
      destruct (PyList.index params (Z.of_nat j)); try discriminate H.
      cbn [bind] in H. apply IH in H. apply eval_count in E. congruence.
Qed.

Lemma value_result_count (stack : RuntimeStack.t) (name : string)
  (args : list string) (s' : RuntimeStack.t) :
  Cmd.value_result stack name args = Ok s' ->
  record_count s' = record_count stack.
Proof.
  unfold Cmd.value_result. intros H.
  destruct (RuntimeStack.get_value stack name) as [[func s1]| | |] eqn:G;
    try discriminate H.
  cbn [bind] in H. unfold RuntimeStack.pop_func in H.
  destruct (PyList.pop (RuntimeStack.func_stack s1)) as [[fs e]| | |];
    try discriminate H.
  cbn [bind RuntimeStack.records RuntimeStack.with_func_stack] in H.
  destruct (PyList.pop (RuntimeStack.records s1)) as [[rs func_record]| | |] eqn:P;
    try discriminate H.
  cbn [bind] in H.
  destruct (Cmd.as_function func); try discriminate H.
  cbn [bind] in H.
  destruct (Cmd.value_result_loop _ _ _); try discriminate H.
  cbn [bind] in H. destruct e as [[r sindex] fname].
  inversion H; subst s'; clear H.
  apply get_value_count in G. rewrite <- G.
  unfold record_count. cbn. apply pop_inv in P. now rewrite P.
Qed.

Lemma del_scope_count (s s' : RuntimeStack.t) (func : bool) :
  Cmd.del_scope s func = Ok s' -> record_count s = S (record_count s').
Proof.
  unfold Cmd.del_scope, RuntimeStack.pop_record, RuntimeStack.pop_func.
  intros H. destruct func.
  - destruct (PyList.pop (RuntimeStack.func_stack s)) as [[fs e]| | |];
      try discriminate H.
    cbn [bind RuntimeStack.records RuntimeStack.with_func_stack] in H.
    destruct (PyList.pop (RuntimeStack.records s)) as [[rs x]| | |] eqn:P;
      try discriminate H.
    cbn [bind] in H. inversion H; subst s'.
    apply pop_inv in P. unfold record_count. cbn. rewrite P, length_app.
    cbn. lia.
  - cbn [bind] in H.
    destruct (PyList.pop (RuntimeStack.records s)) as [[rs x]| | |] eqn:P;
      try discriminate H.
    cbn [bind] in H. inversion H; subst s'.
    apply pop_inv in P. unfold record_count. cbn. rewrite P, length_app.
    cbn. lia.
Qed.

(** X24. A call leaves as many records as it found.  The four commands the
    parser makes for a call (the call, the store of its result, the
    step of value-result, and the closing of the scope of the call)
    run one after the other take the record of the call off again:
    when the body is made of statements without a call and without a
    block and the four commands succeed, the number of records is what
    it was, under every calling convention and either scoping. *)
Theorem call_keeps_record_count (n : nat) (calltype : CallTypeEnum)
  (fname uuid : string) (args : list string) (s s1 s' : RuntimeStack.t)
  (f : Function.t) :
  RuntimeStack.get_value s fname = Ok (VFunc f, s1) ->
  forallb plain (fst (Function.commands f)) = true ->
  in_turn (Cmd.apply (S (S n)) calltype)
    [FUNC_CALL fname args; STORE_FUNC_RET uuid; VALUE_RESULT fname args;
     SCOPE_DEL true]%list s
  = Ok s' ->
  record_count s' = record_count s.
Proof.
  intros Hget Hplain H. cbn [in_turn] in H.
  destruct (Cmd.apply (S (S n)) calltype (FUNC_CALL fname args) s)
    as [a| | |] eqn:Ecall; try discriminate H.
  cbn [bind] in H.
  destruct (Cmd.apply (S (S n)) calltype (STORE_FUNC_RET uuid) a)
    as [a0| | |] eqn:Estore; try discriminate H.
  cbn [bind] in H.
  destruct (Cmd.apply (S (S n)) calltype (VALUE_RESULT fname args) a0)
    as [a1| | |] eqn:Evr; try discriminate H.
  cbn [bind] in H.
  destruct (Cmd.apply (S (S n)) calltype (SCOPE_DEL true) a1)
    as [a2| | |] eqn:Edel; try discriminate H.
  cbn [bind] in H. inversion H; subst a2; clear H.
  assert (Ha : record_count a = S (record_count s)).
  { change (Cmd.apply (S (S n)) calltype (FUNC_CALL fname args) s)
      with (Cmd.call_function
              (fun st body =>
                 Cmd.run_lines (Cmd.apply (S n) calltype) (fst body) (snd body)
                   0 st)
              s fname args calltype) in Ecall.
    unfold Cmd.call_function in Ecall.
    rewrite Hget in Ecall. cbn [bind Cmd.as_function] in Ecall.
    unfold Cmd.apply_func_params in Ecall.
    destruct (Cmd.apply_func_params_loop s1 _ _ _ _ _)
      as [[rfunc s2]| | |] eqn:Eargs; try discriminate Ecall.
    cbn [bind] in Ecall.
    apply (run_lines_plain _ _ _ _ Hplain) in Ecall. rewrite Ecall.
    apply apply_func_params_loop_count in Eargs.
    apply get_value_count in Hget.
    unfold record_count in *. cbn. rewrite length_app. cbn. lia. }
  assert (Ha0 : record_count a0 = record_count a).
  { cbn [Cmd.apply] in Estore. inversion Estore. reflexivity. }
  assert (Ha1 : record_count a1 = record_count a0).
  { cbn [Cmd.apply] in Evr. destruct (CallTypeEnum_eqb calltype CBVR).
    - now apply value_result_count in Evr.
    - now inversion Evr. }
  cbn [Cmd.apply] in Edel. apply del_scope_count in Edel. lia.
Qed.

Lemma call_keeps_record_count_sample :
  record_count
    (RuntimeStack.mk
       [ActivatationRecord.mk [("f", VFunc sample_f); ("v", VInt 5)]%list CBV]
       dynamic CBV VNone []%list [("u", VInt 5)]%list)
  = record_count
      (RuntimeStack.mk
         [ActivatationRecord.mk [("f", VFunc sample_f); ("v", VInt 5)]%list CBV]
         dynamic CBV VNone []%list []%list).
Proof.
  apply (call_keeps_record_count 1 CBV "f" "u" ["1"]%list
           (RuntimeStack.mk
              [ActivatationRecord.mk [("f", VFunc sample_f); ("v", VInt 5)]%list
                 CBV]
              dynamic CBV VNone []%list []%list)
           (RuntimeStack.mk
              [ActivatationRecord.mk [("f", VFunc sample_f); ("v", VInt 5)]%list
                 CBV]
              dynamic CBV VNone []%list []%list)
           _ sample_f);
    vm_compute; reflexivity.
Defined.
